(** * Agentic honeypot: a shallow embedding of the request pipeline

    The development follows the Python sources:
    - [extract.py]  : regular-expression based intelligence extraction,
    - [detector.py] : keyword / model-backed scam detection,
    - [agent.py]    : per-session persona chains,
    - [app.py]      : the HTTP orchestrator ([handle_message]) and the
                      callback with retries ([send_guvi_callback]).
    The module [session_manager.py] that [app.py] imports is not among
    the sources; its operations are modelled from the specification
    (module [SessionManager]).

    Modelling conventions.
    - A Python [str] is a [string]; the embedding covers ASCII text, on
      which the classes [\d], [\s], [\w] and [str.lower] of Python are the
      ones defined in [Text].
    - The confidence of a session is a Python [float]: an IEEE 754
      binary64 number ([float] of [Floats]), with the rounding sums and
      products of the primitive operations. The scores of the detector,
      which are only compared and maximised, and the clock are exact
      rationals ([Q]); a score enters the confidence through
      [Binary64.of_Q], the binary64 number nearest to it.
    - A Python [set] turned into a list is a duplicate-free list; its
      iteration order is unspecified in Python, so statements speak about
      membership and [NoDup] only.
    - External services (classifier, language model, HTTP callback, clock)
      are answers supplied by an environment, and every call is recorded
      in a trace of events. *)

From Stdlib Require Import Ascii String QArith Qminmax Floats.
From stdpp Require Import base option list gmap strings.

Local Open Scope string_scope.

#[local] Set Warnings "-inexact-float".

(* ===================================================================== *)
(** ** Text: the fragment of Python's [str] used by the sources          *)
(* ===================================================================== *)

Module Text.

Definition code (c : ascii) : nat := nat_of_ascii c.

Definition in_range (lo hi : ascii) (c : ascii) : bool :=
  (code lo <=? code c)%nat && (code c <=? code hi)%nat.

Definition is_digit (c : ascii) : bool := in_range "0" "9" c.
Definition is_upper (c : ascii) : bool := in_range "A" "Z" c.
Definition is_lower (c : ascii) : bool := in_range "a" "z" c.
Definition is_alpha (c : ascii) : bool := is_upper c || is_lower c.

(** [\w] : letters, digits and the underscore. *)
Definition is_word (c : ascii) : bool :=
  is_alpha c || is_digit c || Ascii.eqb c "_".

(** [\s] and [str.isspace]: TAB, LF, VT, FF, CR, FS, GS, RS, US, SPACE. *)
Definition is_space (c : ascii) : bool :=
  ((9 <=? code c)%nat && (code c <=? 13)%nat)
  || ((28 <=? code c)%nat && (code c <=? 32)%nat).

(** [str.lower] on one character. *)
Definition lower_char (c : ascii) : ascii :=
  if is_upper c then ascii_of_nat (code c + 32) else c.

(** [str.lower()] *)
Fixpoint lower (s : string) : string :=
  match s with
  | EmptyString => EmptyString
  | String c s' => String (lower_char c) (lower s')
  end.

(** [s.startswith(p)] *)
Fixpoint starts_with (p s : string) : bool :=
  match p, s with
  | EmptyString, _ => true
  | String a p', String b s' => Ascii.eqb a b && starts_with p' s'
  | String _ _, EmptyString => false
  end.

(** [needle in hay] *)
Fixpoint contains (needle hay : string) : bool :=
  starts_with needle hay
  || match hay with
     | EmptyString => false
     | String _ hay' => contains needle hay'
     end.

(** The first [n] characters: the slice [s[:n]]. *)
Fixpoint take (n : nat) (s : string) : string :=
  match n, s with
  | S n', String c s' => String c (take n' s')
  | _, _ => EmptyString
  end.

Fixpoint lstrip (s : string) : string :=
  match s with
  | String c s' => if is_space c then lstrip s' else s
  | EmptyString => EmptyString
  end.

(** [str.strip()] *)
Definition strip (s : string) : string :=
  String.rev (lstrip (String.rev (lstrip s))).

(** [sep.join(parts)] *)
Fixpoint join (sep : string) (parts : list string) : string :=
  match parts with
  | [] => EmptyString
  | [p] => p
  | p :: ps => p ++ sep ++ join sep ps
  end.

(** Declarative counterpart of [contains]. *)
Definition substring_of (needle hay : string) : Prop :=
  exists pre post, hay = pre ++ needle ++ post.

(** The last character, [s[-1]], when there is one. *)
Fixpoint last_char (s : string) : option ascii :=
  match s with
  | EmptyString => None
  | String c EmptyString => Some c
  | String _ s' => last_char s'
  end.

(** Some suffix of [s] passes the test [P]. *)
Fixpoint has_suffix (P : string -> bool) (s : string) : bool :=
  P s || match s with
         | EmptyString => false
         | String _ s' => has_suffix P s'
         end.

Definition first_char (s : string) : option ascii :=
  match s with
  | String c _ => Some c
  | EmptyString => None
  end.

End Text.

(* ===================================================================== *)
(** ** Regex: backtracking matching and [findall] as in Python's [re]    *)
(* ===================================================================== *)

Module Regex.
Import Text.

(** The constructs used by the four patterns of [extract.py]. Bounded
    and unbounded repetition is applied to character classes only. *)
Inductive regex : Type :=
| Eps
| Chr (c : ascii)
| Class (p : ascii -> bool)
| Boundary
| Cat (r1 r2 : regex)
| Alt (r1 r2 : regex)
| Opt (r : regex)
| Repeat (p : ascii -> bool) (lo : nat) (hi : option nat).

(** A literal string is the concatenation of its characters. *)
Fixpoint Lit (s : string) : regex :=
  match s with
  | EmptyString => Eps
  | String c s' => Cat (Chr c) (Lit s')
  end.

Definition word_opt (c : option ascii) : bool :=
  match c with Some a => is_word a | None => false end.

(** [\b] holds between a word character and a non-word character (or an
    end of the text). *)
Definition at_boundary (prev : option ascii) (s : string) : bool :=
  xorb (word_opt prev) (word_opt (first_char s)).

Definition exhausted (hi : option nat) : bool :=
  match hi with Some 0 => true | _ => false end.

(** Greedy repetition of a class, [p{lo,hi}]: take as many characters as
    allowed, give them back one at a time while the continuation fails. *)
Fixpoint repeat_class (p : ascii -> bool) (lo : nat) (hi : option nat)
    (k : option ascii -> string -> option string)
    (prev : option ascii) (s : string) : option string :=
  let stop := match lo with 0 => k prev s | S _ => None end in
  match s with
  | String c s' =>
      if p c && negb (exhausted hi) then
        match repeat_class p (Nat.pred lo) (Nat.pred <$> hi) k (Some c) s' with
        | Some rest => Some rest
        | None => stop
        end
      else stop
  | EmptyString => stop
  end.

(** Backtracking matcher in continuation-passing style. [prev] is the
    character before the current position, [s] the text from the current
    position on; the result is the text left after the match. *)
Fixpoint bt (r : regex) (k : option ascii -> string -> option string)
    (prev : option ascii) (s : string) : option string :=
  match r with
  | Eps => k prev s
  | Chr c =>
      match s with
      | String a s' => if Ascii.eqb a c then k (Some a) s' else None
      | EmptyString => None
      end
  | Class p =>
      match s with
      | String a s' => if p a then k (Some a) s' else None
      | EmptyString => None
      end
  | Boundary => if at_boundary prev s then k prev s else None
  | Cat r1 r2 => bt r1 (bt r2 k) prev s
  | Alt r1 r2 =>
      match bt r1 k prev s with
      | Some rest => Some rest
      | None => bt r2 k prev s
      end
  | Opt r1 =>
      match bt r1 k prev s with
      | Some rest => Some rest
      | None => k prev s
      end
  | Repeat p lo hi => repeat_class p lo hi k prev s
  end.

(** [pattern.match] at the current position. *)
Definition match_at (r : regex) (prev : option ascii) (s : string)
    : option string :=
  bt r (fun _ rest => Some rest) prev s.

Definition step_scan (scan : option ascii -> string -> nat -> list string)
    (s : string) (skip : nat) : list string :=
  match s with
  | String c s' => scan (Some c) s' skip
  | EmptyString => []
  end.

(** [pattern.findall(text)] for a pattern without groups: the matches
    found from left to right, the search resuming where the previous
    match ended. [skip] counts the characters of the last match that are
    still to be passed over. The loop is the one of [re] for patterns
    that never match the empty string, as the four patterns here. *)
Fixpoint scan (r : regex) (prev : option ascii) (s : string) (skip : nat)
    {struct s} : list string :=
  match skip with
  | S n => step_scan (scan r) s n
  | 0 =>
      match match_at r prev s with
      | Some rest =>
          let n := (String.length s - String.length rest)%nat in
          take n s :: step_scan (scan r) s (Nat.pred n)
      | None => step_scan (scan r) s 0
      end
  end.

Definition findall (r : regex) (text : string) : list string :=
  scan r None text 0.

(** A syntactic guarantee that a pattern consumes at least one character. *)
Fixpoint consuming (r : regex) : bool :=
  match r with
  | Eps | Boundary | Opt _ => false
  | Chr _ | Class _ => true
  | Cat r1 r2 => consuming r1 || consuming r2
  | Alt r1 r2 => consuming r1 && consuming r2
  | Repeat _ lo _ => (0 <? lo)%nat
  end.

(** Declarative reading of a pattern: [Matches r prev s prev' s'] when
    [r] can match from the position before [s] (preceded by [prev]) up
    to the position before [s']. *)
Inductive Matches : regex -> option ascii -> string ->
                    option ascii -> string -> Prop :=
| MEps prev s : Matches Eps prev s prev s
| MChr c prev s : Matches (Chr c) prev (String c s) (Some c) s
| MClass (p : ascii -> bool) c prev s :
    p c = true -> Matches (Class p) prev (String c s) (Some c) s
| MBoundary prev s :
    at_boundary prev s = true -> Matches Boundary prev s prev s
| MCat r1 r2 p0 s0 p1 s1 p2 s2 :
    Matches r1 p0 s0 p1 s1 -> Matches r2 p1 s1 p2 s2 ->
    Matches (Cat r1 r2) p0 s0 p2 s2
| MAltL r1 r2 p0 s0 p1 s1 :
    Matches r1 p0 s0 p1 s1 -> Matches (Alt r1 r2) p0 s0 p1 s1
| MAltR r1 r2 p0 s0 p1 s1 :
    Matches r2 p0 s0 p1 s1 -> Matches (Alt r1 r2) p0 s0 p1 s1
| MOptSome r p0 s0 p1 s1 :
    Matches r p0 s0 p1 s1 -> Matches (Opt r) p0 s0 p1 s1
| MOptNone r prev s : Matches (Opt r) prev s prev s
| MRepStop (p : ascii -> bool) hi prev s : Matches (Repeat p 0 hi) prev s prev s
| MRepStep (p : ascii -> bool) lo hi c prev s p1 s1 :
    p c = true -> exhausted hi = false ->
    Matches (Repeat p (Nat.pred lo) (Nat.pred <$> hi)) (Some c) s p1 s1 ->
    Matches (Repeat p lo hi) prev (String c s) p1 s1.

End Regex.

(* ===================================================================== *)
(** ** extract.py                                                        *)
(* ===================================================================== *)

Module Extract.
Import Text Regex.

Definition one_of (cs : string) (c : ascii) : bool :=
  existsb (Ascii.eqb c) (list_ascii_of_string cs).

(** [BANK_ACCOUNT_PATTERN = \b\d{9,18}\b] *)
Definition BANK_ACCOUNT_PATTERN : regex :=
  Cat Boundary (Cat (Repeat is_digit 9 (Some 18)) Boundary).

Definition upi_local (c : ascii) : bool :=
  is_alpha c || is_digit c || one_of ".-_" c.

(** [UPI_PATTERN = \b[a-zA-Z0-9.\-_]{3,}@[a-zA-Z]{2,}\b] *)
Definition UPI_PATTERN : regex :=
  Cat Boundary
    (Cat (Repeat upi_local 3 None)
       (Cat (Chr "@") (Cat (Repeat is_alpha 2 None) Boundary))).

Definition sep_class (c : ascii) : bool := Ascii.eqb c "-" || is_space c.

(** [PHONE_PATTERN = (?:\+91[-\s]?|0)?[6-9]\d{9}\b] *)
Definition PHONE_PATTERN : regex :=
  Cat (Opt (Alt (Cat (Lit "+91") (Opt (Class sep_class))) (Chr "0")))
    (Cat (Class (in_range "6" "9"))
       (Cat (Repeat is_digit 9 (Some 9)) Boundary)).

(** The double quote, character 34. *)
Definition dquote : ascii := "034"%char.

Definition url_char (c : ascii) : bool :=
  negb (is_space c || Ascii.eqb c dquote || one_of "'>" c).

(** [URL_PATTERN = https?://[^\s\x22'>]+], where [\x22] stands for the
    double quote of the source pattern. *)
Definition URL_PATTERN : regex :=
  Cat (Lit "http")
    (Cat (Opt (Chr "s")) (Cat (Lit "://") (Repeat url_char 1 None))).

(** The country code followed by one separator: [+91-], [+91 ], ... *)
Definition is_country_prefix (s : string) : bool :=
  match s with
  | String "+" (String "9" (String "1" (String c EmptyString))) => sep_class c
  | _ => false
  end.

(** The text [pre] ends with the country code and a separator, so that a
    number starting right after [pre] is matched together with them. *)
Definition country_prefixed (pre : string) : bool :=
  has_suffix is_country_prefix pre.

(** The literals of the frozenset [SUSPICIOUS_KEYWORDS], in source order. *)
Definition SUSPICIOUS_KEYWORDS : list string :=
  [ "otp"; "upi"; "bank"; "verify"; "blocked"; "urgent"; "suspended";
    "kyc"; "pin"; "refund"; "gift card"; "crypto"; "bitcoin"; "btc";
    "gold"; "money" ].

(** [_normalize_number]: [re.sub(r"\D", "", num)] *)
Fixpoint _normalize_number (num : string) : string :=
  match num with
  | EmptyString => EmptyString
  | String c s => if is_digit c then String c (_normalize_number s)
                  else _normalize_number s
  end.

(** [set(xs)]: the distinct elements. *)
Definition to_set (xs : list string) : list string := remove_dups xs.

(** The dict returned by [extract_intelligence], keys in insertion order. *)
Record Intelligence : Type := mkIntelligence {
  bankAccounts : list string;
  upiIds : list string;
  phoneNumbers : list string;
  phishingLinks : list string;
  suspiciousKeywords : list string
}.

Definition extract_intelligence (text : string) : Intelligence :=
  let text_lower := lower text in
  let raw_bank_accounts := to_set (findall BANK_ACCOUNT_PATTERN text) in
  let raw_phone_numbers := to_set (findall PHONE_PATTERN text) in
  let upi_ids := to_set (findall UPI_PATTERN text) in
  let urls := to_set (findall URL_PATTERN text) in
  let normalized_phones := to_set (map _normalize_number raw_phone_numbers) in
  let cleaned_bank_accounts :=
    filter (fun acc => _normalize_number acc ∉ normalized_phones)
           raw_bank_accounts in
  {| bankAccounts := cleaned_bank_accounts;
     upiIds := upi_ids;
     phoneNumbers := raw_phone_numbers;
     phishingLinks := urls;
     suspiciousKeywords :=
       filter (fun kw => contains kw text_lower = true)
              (to_set SUSPICIOUS_KEYWORDS) |}.

End Extract.

(* ===================================================================== *)
(** ** detector.py                                                       *)
(* ===================================================================== *)

Module Detector.
Import Text.

Definition SUSPICIOUS_KEYWORDS : list string :=
  [ "urgent"; "verify"; "account"; "blocked"; "suspended"; "kyc";
    "refund"; "debit"; "credit"; "bank"; "upi"; "money" ].

Definition STRONG_KEYWORDS : list string :=
  [ "otp"; "upi pin"; "pin"; "one time password" ].

(** The first element of the classification pipeline's answer. *)
Record Classification : Type := mkClassification {
  label : string;
  score : Q
}.

(** [max(a, b)] of Python: [b] when [b > a], otherwise [a]. *)
Definition pymax (a b : Q) : Q := if Qlt_le_dec a b then b else a.

(** [any(sk in text for sk in STRONG_KEYWORDS)] *)
Definition any_strong (text : string) : bool :=
  existsb (fun sk => contains sk text) STRONG_KEYWORDS.

(** [sum(1 for kw in SUSPICIOUS_KEYWORDS if kw in text)] *)
Definition hits (text : string) : nat :=
  length (filter (fun kw => contains kw text = true) SUSPICIOUS_KEYWORDS).

(** [detect_scam]. [IS_RENDER] is the deployment flag; [detector] is the
    classification pipeline, [None] standing for a raised exception. *)
Definition detect_scam (IS_RENDER : bool)
    (detector : string -> option Classification) (text : string)
    : option (bool * Q) :=
  let text := lower text in
  if IS_RENDER then
    if any_strong text then Some (true, 0.9%Q)
    else if (2 <=? hits text)%nat then Some (true, 0.7%Q)
    else Some (false, 0.0%Q)
  else
    match detector text with
    | None => None
    | Some result =>
        let label := lower (label result) in
        let score := score result in
        let is_scam :=
          contains "phish" label || contains "spam" label
          || contains "fraud" label in
        let '(is_scam, score) :=
          if any_strong text then (true, pymax score 0.85%Q)
          else (is_scam, score) in
        let '(is_scam, score) :=
          if (2 <=? hits text)%nat then (true, pymax score 0.6%Q)
          else (is_scam, score) in
        Some (is_scam, if is_scam then score else 0.0%Q)
    end.

(** Reading of "a strong keyword occurs as a substring of the text". *)
Definition strong_present (text : string) : Prop :=
  exists sk, sk ∈ STRONG_KEYWORDS /\ substring_of sk text.

(** Reading of "the suspicious keyword [kw] occurs in the text". *)
Definition suspicious_in (text kw : string) : Prop :=
  kw ∈ SUSPICIOUS_KEYWORDS /\ substring_of kw text.

(** Reading of "at least two suspicious keywords occur in the text". *)
Definition two_suspicious (text : string) : Prop :=
  exists k1 k2, k1 <> k2 /\ suspicious_in text k1 /\ suspicious_in text k2.

End Detector.

(* ===================================================================== *)
(** ** binary64: the floats of Python                                    *)
(* ===================================================================== *)

(** The arithmetic of steps 7 and 8 of [handle_message] is the one of
    IEEE 754 binary64 numbers, the floats of Python. *)
Module Binary64.

#[local] Set Warnings "-inexact-float".

Definition of_Z (z : Z) : SpecFloat.spec_float :=
  match z with
  | Z0 => SpecFloat.S754_zero false
  | Zpos p => SpecFloat.S754_finite false p 0
  | Zneg p => SpecFloat.S754_finite true p 0
  end.

(** The float a score stands for: the binary64 number nearest to the
    rational [q] (the correctly rounded quotient of its numerator by its
    denominator). A decimal literal of Python such as [0.9] is
    [of_Q 0.9]; a rational that is a binary64 number is kept as it is. *)
Definition of_Q (q : Q) : float :=
  SF2Prim (SpecFloat.SFdiv prec emax (of_Z (Qnum q)) (of_Z (Zpos (Qden q)))).

(** [confidence += scam_confidence * 0.4] *)
Definition raised (confidence scam_confidence : float) : float :=
  (confidence + scam_confidence * 0.4)%float.

(** [session["confidence"] >= 0.6] *)
Definition crossed (confidence : float) : bool :=
  PrimFloat.leb 0.6%float confidence.

Definition first_turn : float := raised 0%float 0.9%float.
Definition second_turn : float := raised first_turn 0.9%float.

End Binary64.

(* ===================================================================== *)
(** ** session_manager.py                                                *)
(* ===================================================================== *)

Module SessionManager.
Import Extract.

(** Modelled from the spec: the session record of the absent module
    [session_manager.py] (section 3, Session). *)
Record Session : Type := mkSession {
  sessionId : string;
  total_messages : nat;
  confidence : float;
  agent_active : bool;
  callback_sent : bool;
  intelligence : Intelligence;
  last_active : Q
}.

(** Modelled from the spec: the five named artifact categories of the
    intelligence record, the keys passed to [add_intelligence]. *)
Inductive Category : Type :=
| BankAccounts | UpiIds | PhoneNumbers | PhishingLinks | SuspiciousKeywords.

(** Modelled from the spec: an intelligence record with five empty
    categories. *)
Definition empty_intelligence : Intelligence :=
  mkIntelligence [] [] [] [] [].

(** Modelled from the spec: a fresh session has all counters zero,
    confidence 0.0, both flags false, five empty categories and
    [last_active] = now. *)
Definition fresh_session (id : string) (now : Q) : Session :=
  mkSession id 0 0.0%float false false empty_intelligence now.

(** Modelled from the spec: [get_session(id)] returns the session for
    [id], creating a fresh one if none exists; it never fails. The result
    is the stored object itself: later reads of it see later updates. *)
Definition get_session (id : string) (now : Q)
    (store : gmap string Session) : gmap string Session :=
  match store !! id with
  | Some _ => store
  | None => <[id := fresh_session id now]> store
  end.

(** Modelled from the spec: the session after one more message at time
    [now]. *)
Definition touched (now : Q) (s : Session) : Session :=
  mkSession (sessionId s) (S (total_messages s)) (confidence s)
            (agent_active s) (callback_sent s) (intelligence s) now.

(** Modelled from the spec: [increment_message_count(id)] adds one to
    [total_messages] and touches [last_active]. *)
Definition increment_message_count (id : string) (now : Q)
    (store : gmap string Session) : gmap string Session :=
  alter (touched now) id store.

(** Modelled from the spec: the session with [delta] added to its
    confidence. *)
Definition raised (delta : float) (s : Session) : Session :=
  mkSession (sessionId s) (total_messages s) (confidence s + delta)%float
            (agent_active s) (callback_sent s) (intelligence s)
            (last_active s).

(** Modelled from the spec: [update_confidence(id, delta)] is
    [confidence += delta]. *)
Definition update_confidence (id : string) (delta : float)
    (store : gmap string Session) : gmap string Session :=
  alter (raised delta) id store.

(** Modelled from the spec: the session with the agent active. *)
Definition activated (s : Session) : Session :=
  mkSession (sessionId s) (total_messages s) (confidence s) true
            (callback_sent s) (intelligence s) (last_active s).

(** Modelled from the spec: [activate_agent(id)] sets [agent_active]. *)
Definition activate_agent (id : string)
    (store : gmap string Session) : gmap string Session :=
  alter activated id store.

(** Modelled from the spec: the session with the callback marked sent. *)
Definition reported (s : Session) : Session :=
  mkSession (sessionId s) (total_messages s) (confidence s)
            (agent_active s) true (intelligence s) (last_active s).

(** Modelled from the spec: [mark_callback_sent(id)] sets
    [callback_sent]. *)
Definition mark_callback_sent (id : string)
    (store : gmap string Session) : gmap string Session :=
  alter reported id store.

(** Modelled from the spec: the union of a category with new values,
    without duplicates. *)
Definition union_values (old new : list string) : list string :=
  old ++ filter (fun v => v ∉ old) (remove_dups new).

(** Modelled from the spec: reading and writing one category of the
    record. *)
Definition get_category (c : Category) (i : Intelligence) : list string :=
  match c with
  | BankAccounts => bankAccounts i
  | UpiIds => upiIds i
  | PhoneNumbers => phoneNumbers i
  | PhishingLinks => phishingLinks i
  | SuspiciousKeywords => suspiciousKeywords i
  end.

Definition set_category (c : Category) (vs : list string)
    (i : Intelligence) : Intelligence :=
  match c with
  | BankAccounts =>
      mkIntelligence vs (upiIds i) (phoneNumbers i) (phishingLinks i)
                     (suspiciousKeywords i)
  | UpiIds =>
      mkIntelligence (bankAccounts i) vs (phoneNumbers i) (phishingLinks i)
                     (suspiciousKeywords i)
  | PhoneNumbers =>
      mkIntelligence (bankAccounts i) (upiIds i) vs (phishingLinks i)
                     (suspiciousKeywords i)
  | PhishingLinks =>
      mkIntelligence (bankAccounts i) (upiIds i) (phoneNumbers i) vs
                     (suspiciousKeywords i)
  | SuspiciousKeywords =>
      mkIntelligence (bankAccounts i) (upiIds i) (phoneNumbers i)
                     (phishingLinks i) vs
  end.

(** Modelled from the spec: the session with [values] merged into the
    category [c]. *)
Definition enriched (c : Category) (values : list string) (s : Session)
    : Session :=
  mkSession (sessionId s) (total_messages s) (confidence s)
    (agent_active s) (callback_sent s)
    (set_category c (union_values (get_category c (intelligence s)) values)
                  (intelligence s))
    (last_active s).

(** Modelled from the spec: [add_intelligence(id, category, values)]
    unions [values] into the category, keeping it duplicate-free. *)
Definition add_intelligence (id : string) (c : Category)
    (values : list string)
    (store : gmap string Session) : gmap string Session :=
  alter (enriched c values) id store.

(** Modelled from the spec: a session is stale when it has been idle for
    longer than [max_idle_seconds]. *)
Definition stale (now max_idle_seconds : Q) (s : Session) : bool :=
  negb (Qle_bool (now - last_active s) max_idle_seconds).

(** Modelled from the spec: the sweep evicts the stale sessions other
    than the excluded one. *)
Definition evictable (now max_idle_seconds : Q)
    (exclude_session_id : string) (kv : string * Session) : Prop :=
  kv.1 ≠ exclude_session_id ∧ stale now max_idle_seconds kv.2 = true.

Global Instance evictable_dec now m x kv : Decision (evictable now m x kv).
Proof. unfold evictable. apply _. Defined.

(** Modelled from the spec: [cleanup_stale(max_idle_seconds, exclude_id)]
    deletes every stale session except [exclude_id] and returns the
    deleted ids. *)
Definition cleanup_stale (now max_idle_seconds : Q)
    (exclude_session_id : string) (store : gmap string Session)
    : list string * gmap string Session :=
  let gone := filter (evictable now max_idle_seconds exclude_session_id) store in
  ((map_to_list gone).*1,
   filter (fun kv => ¬ evictable now max_idle_seconds exclude_session_id kv)
          store).

End SessionManager.

(* ===================================================================== *)
(** ** agent.py                                                          *)
(* ===================================================================== *)

Module Agent.
Import Text.

(** The memory of a chain: the (input, output) turns saved so far. *)
Definition Memory : Type := list (string * string).

(** [_get_or_create_chain] *)
Definition _get_or_create_chain (session_id : string)
    (_chains : gmap string Memory) : Memory * gmap string Memory :=
  match _chains !! session_id with
  | Some m => (m, _chains)
  | None => ([], <[session_id := []]> _chains)
  end.

(** [generate_reply]. [llm] answers [chain.predict]; [None] stands for a
    raised exception, after which the chain exists with its memory as it
    was. *)
Definition generate_reply (llm : Memory -> string -> option string)
    (session_id user_message : string) (_chains : gmap string Memory)
    : option string * gmap string Memory :=
  let '(memory, _chains) := _get_or_create_chain session_id _chains in
  match llm memory user_message with
  | None => (None, _chains)
  | Some response =>
      (Some (if String.eqb response "" then "" else strip response),
       <[session_id := (memory ++ [(user_message, response)])%list]> _chains)
  end.

(** [cleanup_chains_for_sessions] *)
Definition cleanup_chains_for_sessions (session_ids : list string)
    (_chains : gmap string Memory) : gmap string Memory :=
  foldl (fun cs sid => delete sid cs) _chains session_ids.

End Agent.

(* ===================================================================== *)
(** ** app.py                                                            *)
(* ===================================================================== *)

Module App.
Import Text Extract Detector SessionManager Agent.

(** Values read from the process environment at start-up. *)
Record Config : Type := mkConfig {
  API_KEY : string;
  GUVI_CALLBACK_URL : string;
  IS_RENDER : bool
}.

Definition CALLBACK_RETRIES : nat := 3.
Definition CALLBACK_TIMEOUT : Q := 10.

Record Message : Type := mkMessage {
  sender : string;
  text : string;
  timestamp : string
}.

(** A JSON value as far as the handler tells values apart: a string or
    anything else (a number, a boolean, null, a list, an object). *)
Inductive JsonValue : Type :=
| JString (s : string)
| JOther.

(** An entry of [conversationHistory], declared a plain [list]: a JSON
    object (a [dict]) or any other JSON value. *)
Inductive HistoryEntry : Type :=
| JObject (members : gmap string JsonValue)
| JNotObject.

Record IncomingRequest : Type := mkIncomingRequest {
  sessionId : string;
  message : Message;
  conversationHistory : list HistoryEntry;
  metadata : gmap string JsonValue
}.

Record Response : Type := mkResponse {
  status : string;
  reply : string
}.

(** The JSON body of the callback. *)
Record Payload : Type := mkPayload {
  payload_sessionId : string;
  scamDetected : bool;
  totalMessagesExchanged : nat;
  extractedIntelligence : Intelligence;
  agentNotes : string
}.

(** What one [requests.post] followed by [raise_for_status] does: it
    returns, or raises a [requests.RequestException] (an HTTP error
    status or a transport failure). *)
Inductive PostOutcome : Type := Ok2xx | Non2xx | TransportError.

Definition delivered (o : PostOutcome) : bool :=
  match o with Ok2xx => true | _ => false end.

(** Calls that leave the process, in the order they are made. *)
Inductive Event : Type :=
| EvSweep (removed_ids : list string)
| EvDetect (message_text : string)
| EvGenerate (session_id message_text : string)
| EvExtract (cumulative_text : string)
| EvPost (url : string) (json : Payload) (timeout : Q) (outcome : PostOutcome)
| EvSleep (seconds : Q)
| EvLogInfo (session_id : string)
| EvLogWarning (session_id : string) (attempts : nat).

(** The answers of the outside world during one request. *)
Record Env : Type := mkEnv {
  now : Q;
  detector : string -> option Classification;
  llm : Memory -> string -> option string;
  post : nat -> PostOutcome
}.

Inductive Exn : Type :=
| HTTPException (status_code : nat) (detail : string)
| InternalError.

Inductive Result (A : Type) : Type :=
| Ret (a : A)
| Raise (e : Exn).
Arguments Ret {A} a.
Arguments Raise {A} e.

(** The process-wide registries: [session_manager] and [agent._chains]. *)
Record World : Type := mkWorld {
  sessions : gmap string Session;
  chains : gmap string Memory
}.

(** Computations update the registries, emit events and may raise; an
    exception keeps the updates made so far. *)
Definition M (A : Type) : Type := World -> Result A * World * list Event.

Definition ret {A} (a : A) : M A := fun w => (Ret a, w, []).

Definition raise {A} (e : Exn) : M A := fun w => (Raise e, w, []).

Definition bind {A B} (m : M A) (f : A -> M B) : M B :=
  fun w =>
    match m w with
    | (Ret a, w1, t1) =>
        match f a w1 with
        | (r, w2, t2) => (r, w2, (t1 ++ t2)%list)
        end
    | (Raise e, w1, t1) => (Raise e, w1, t1)
    end.

Definition emit (e : Event) : M unit := fun w => (Ret tt, w, [e]).

Definition update_sessions
    (f : gmap string Session -> gmap string Session) : M unit :=
  fun w => (Ret tt, mkWorld (f (sessions w)) (chains w), []).

Definition update_chains
    (f : gmap string Memory -> gmap string Memory) : M unit :=
  fun w => (Ret tt, mkWorld (sessions w) (f (chains w)), []).

(** Reading a field of the [session] object returned by [get_session]:
    the object is the stored one, so the read sees the current store. *)
Definition read_session (session_id : string) : M Session :=
  fun w =>
    match sessions w !! session_id with
    | Some s => (Ret s, w, [])
    | None => (Raise InternalError, w, [])
    end.

Definition when (b : bool) (m : M unit) : M unit :=
  if b then m else ret tt.

Declare Scope monad_scope.
Delimit Scope monad_scope with monad.
Notation "'let*' x ':=' m 'in' k" :=
  (bind m (fun x => k))
    (at level 10, x name, m at level 100, k at level 200) : monad_scope.
Notation "m '>>' k" :=
  (bind m (fun _ => k))
    (at level 100, k at level 200, right associativity) : monad_scope.
Local Open Scope monad_scope.

Definition items (intel : Intelligence) : list (Category * list string) :=
  [ (BankAccounts, bankAccounts intel);
    (UpiIds, upiIds intel);
    (PhoneNumbers, phoneNumbers intel);
    (PhishingLinks, phishingLinks intel);
    (SuspiciousKeywords, suspiciousKeywords intel) ].

Definition is_empty (values : list string) : bool :=
  match values with [] => true | _ => false end.

(** [merge_intelligence] on the store. *)
Definition merge_store (session_id : string) (intel : Intelligence)
    (store : gmap string Session) : gmap string Session :=
  foldl (fun st kv =>
           if is_empty kv.2 then st
           else add_intelligence session_id kv.1 kv.2 st)
        store (items intel).

Definition merge_intelligence (session_id : string) (intel : Intelligence)
    : M unit :=
  update_sessions (merge_store session_id intel).

Definition should_finalize (session : Session) : bool :=
  let intel := intelligence session in
  let has_core_intel :=
    (0 <? length (upiIds intel))%nat
    || (0 <? length (phishingLinks intel))%nat
    || (0 <? length (phoneNumbers intel))%nat
    || (0 <? length (bankAccounts intel))%nat in
  let enough_turns := (8 <=? total_messages session)%nat in
  has_core_intel && enough_turns.

Definition AGENT_NOTES : string :=
  "Scammer used urgency and verification tactics to solicit sensitive details.".

Definition build_payload (session : Session) : Payload :=
  {| payload_sessionId := SessionManager.sessionId session;
     scamDetected := true;
     totalMessagesExchanged := total_messages session;
     extractedIntelligence := intelligence session;
     agentNotes := AGENT_NOTES |}.

(** The [for attempt in range(CALLBACK_RETRIES)] loop, from [attempt]
    with [remaining] iterations to go; the result tells whether the
    function returned from inside the loop. *)
Fixpoint callback_loop (cfg : Config) (env : Env) (session_id : string)
    (payload : Payload) (attempt remaining : nat) : M bool :=
  match remaining with
  | 0 => ret false
  | S remaining' =>
      let outcome := post env attempt in
      emit (EvPost (GUVI_CALLBACK_URL cfg) payload CALLBACK_TIMEOUT outcome) >>
      if delivered outcome then
        update_sessions (mark_callback_sent session_id) >>
        emit (EvLogInfo session_id) >>
        ret true
      else
        when (attempt <? CALLBACK_RETRIES - 1)%nat
             (emit (EvSleep (1.0 * inject_Z (Z.of_nat (attempt + 1))))) >>
        callback_loop cfg env session_id payload (S attempt) remaining'
  end.

(** [send_guvi_callback(session)]: the payload is built once, from the
    session as it is when the function is entered. *)
Definition send_guvi_callback (cfg : Config) (env : Env) (session : Session)
    : M unit :=
  let payload := build_payload session in
  let session_id := SessionManager.sessionId session in
  let* sent := callback_loop cfg env session_id payload 0 CALLBACK_RETRIES in
  when (negb sent) (emit (EvLogWarning session_id CALLBACK_RETRIES)).

Definition FALLBACK_REPLY : string :=
  "I am not very sure what this means. Can you please explain?".

Definition run_cleanup_stale (env : Env) (max_idle_seconds : Q)
    (exclude_session_id : string) : M (list string) :=
  fun w =>
    let '(removed, store) :=
      cleanup_stale (now env) max_idle_seconds exclude_session_id (sessions w) in
    (Ret removed, mkWorld store (chains w), [EvSweep removed]).

Definition run_detect_scam (cfg : Config) (env : Env) (message_text : string)
    : M (bool * Q) :=
  emit (EvDetect message_text) >>
  match detect_scam (IS_RENDER cfg) (detector env) message_text with
  | Some r => ret r
  | None => raise InternalError
  end.

Definition run_generate_reply (env : Env) (session_id message_text : string)
    : M string :=
  emit (EvGenerate session_id message_text) >>
  fun w =>
    match generate_reply (llm env) session_id message_text (chains w) with
    | (Some r, cs) => (Ret r, mkWorld (sessions w) cs, [])
    | (None, cs) => (Raise InternalError, mkWorld (sessions w) cs, [])
    end.

(** [m.get("text", "")]: the value under [text], the empty string when
    the key is missing; an entry that is not a dict has no [get]
    ([AttributeError], here [None]). *)
Definition entry_text (m : HistoryEntry) : option JsonValue :=
  match m with
  | JObject members => Some (default (JString "") (members !! "text"))
  | JNotObject => None
  end.

(** An item of [str.join] must be a [str] ([TypeError] otherwise). *)
Definition as_str (v : JsonValue) : option string :=
  match v with
  | JString s => Some s
  | JOther => None
  end.

(** [" ".join(m.get("text", "") for m in body.conversationHistory)];
    [None] stands for a raised exception. *)
Definition history_text (body : IncomingRequest) : option string :=
  join " " <$> mapM (fun m => entry_text m ≫= as_str) (conversationHistory body).

Definition run_history_text (body : IncomingRequest) : M string :=
  match history_text body with
  | Some h => ret h
  | None => raise InternalError
  end.

Definition run_extract_intelligence (cumulative_text : string)
    : M Intelligence :=
  emit (EvExtract cumulative_text) >>
  ret (extract_intelligence cumulative_text).

(** [POST /honeypot/message] *)
Definition handle_message (cfg : Config) (env : Env)
    (body : IncomingRequest) (x_api_key : option string) : M Response :=
  if negb (bool_decide (x_api_key = Some (API_KEY cfg))) then
    raise (HTTPException 401 "Invalid API key")
  else
    let session_id := sessionId body in
    let message_text := text (message body) in
    let sender := sender (message body) in
    if negb (String.eqb sender "scammer") then
      ret {| status := "ignored"; reply := "" |}
    else
      let* removed_ids := run_cleanup_stale env 86400 session_id in
      update_chains (cleanup_chains_for_sessions removed_ids) >>
      update_sessions (get_session session_id (now env)) >>
      update_sessions (increment_message_count session_id (now env)) >>
      let* detection := run_detect_scam cfg env message_text in
      let '(is_scam, scam_confidence) := detection in
      when is_scam
        (update_sessions
           (update_confidence session_id
              (Binary64.of_Q scam_confidence * 0.4)%float)) >>
      let* session := read_session session_id in
      when (PrimFloat.leb 0.6 (confidence session)
            && negb (agent_active session))
        (update_sessions (activate_agent session_id)) >>
      let* session := read_session session_id in
      let* reply_text :=
        (if agent_active session
         then run_generate_reply env session_id message_text
         else ret FALLBACK_REPLY) in
      let* history_text := run_history_text body in
      let cumulative_text :=
        history_text ++ " " ++ message_text ++ " " ++ reply_text in
      let* intel := run_extract_intelligence cumulative_text in
      merge_intelligence session_id intel >>
      let* session := read_session session_id in
      when (agent_active session && negb (callback_sent session)
            && should_finalize session)
        (send_guvi_callback cfg env session) >>
      ret {| status := "success"; reply := reply_text |}.

(** A sequence of requests served one after the other. *)
Record Call : Type := mkCall {
  call_env : Env;
  call_body : IncomingRequest;
  call_key : option string
}.

Fixpoint serve (cfg : Config) (calls : list Call) (w : World)
    : World * list Event :=
  match calls with
  | [] => (w, [])
  | c :: calls' =>
      match handle_message cfg (call_env c) (call_body c) (call_key c) w with
      | (_, w1, t1) =>
          match serve cfg calls' w1 with
          | (w2, t2) => (w2, (t1 ++ t2)%list)
          end
      end
  end.

(** The outcome [x] of a computation, preceded by the events [t]. *)
Definition after {A} (t : list Event) (x : Result A * World * list Event)
    : Result A * World * list Event :=
  (x.1.1, x.1.2, (t ++ x.2)%list).

Definition result_of {A} (x : Result A * World * list Event) : Result A := x.1.1.
Definition world_of {A} (x : Result A * World * list Event) : World := x.1.2.
Definition events_of {A} (x : Result A * World * list Event) : list Event := x.2.

End App.

(* ===================================================================== *)
(** ** One request seen from its own session                             *)
(* ===================================================================== *)

(** The effect of an authorized scammer request on the session it names,
    as a function of that session alone. [handle_message] is proved to
    agree with it ([handle_message_step] below). *)
Module Step.
Import Text Extract Detector SessionManager Agent App.
Local Open Scope list_scope.

(** Every stored session carries the id it is stored under. *)
Definition wf_store (store : gmap string Session) : Prop :=
  forall id s, store !! id = Some s -> SessionManager.sessionId s = id.

(** The session a request starts from: the stored one, or a fresh one. *)
Definition entry (store : gmap string Session) (id : string) (now : Q)
    : Session :=
  default (fresh_session id now) (store !! id).

Definition merged (intel : Intelligence) (s : Session) : Session :=
  foldl (fun s kv => if is_empty kv.2 then s else enriched kv.1 kv.2 s)
        s (items intel).

(** The events of the retry loop and whether a delivery succeeded. *)
Fixpoint callback_events (cfg : Config) (env : Env) (session_id : string)
    (payload : Payload) (attempt remaining : nat) : bool * list Event :=
  match remaining with
  | 0 => (false, [])
  | S remaining' =>
      let outcome := post env attempt in
      let ev := EvPost (GUVI_CALLBACK_URL cfg) payload CALLBACK_TIMEOUT outcome in
      if delivered outcome then (true, [ev; EvLogInfo session_id])
      else
        let pause :=
          if (attempt <? CALLBACK_RETRIES - 1)%nat
          then [EvSleep (1.0 * inject_Z (Z.of_nat (attempt + 1)))]
          else [] in
        let '(sent, evs) :=
          callback_events cfg env session_id payload (S attempt) remaining' in
        (sent, ev :: pause ++ evs)
  end.

Definition send_events (cfg : Config) (env : Env) (s : Session)
    : bool * list Event :=
  let id := SessionManager.sessionId s in
  let '(sent, evs) :=
    callback_events cfg env id (build_payload s) 0 CALLBACK_RETRIES in
  (sent, evs ++ if sent then [] else [EvLogWarning id CALLBACK_RETRIES]).

(** The finalize condition of step 12. *)
Definition due (s : Session) : bool :=
  agent_active s && negb (callback_sent s) && should_finalize s.

(** Stage 12 on the session. *)
Definition finalized (cfg : Config) (env : Env) (s : Session)
    : Session * list Event :=
  if due s then
    let '(sent, evs) := send_events cfg env s in
    (if sent then reported s else s, evs)
  else (s, []).

(** Stages 6 to 8 on the session, after a detection. *)
Definition scored (detection : bool * Q) (s : Session) : Session :=
  let s :=
    if detection.1 then raised (Binary64.of_Q detection.2 * 0.4)%float s
    else s in
  if PrimFloat.leb 0.6 (confidence s) && negb (agent_active s)
  then activated s else s.

(** [f"{history_text} {message_text} {reply_text}"] *)
Definition cumulative (history_text message_text reply_text : string)
    : string :=
  (history_text ++ " " ++ message_text ++ " " ++ reply_text)%string.

(** The whole request: result, session, chains and events (the sweep
    event apart), from the session [s0] at entry and the chains [cs] left
    by the sweep. *)
Definition step (cfg : Config) (env : Env) (body : IncomingRequest)
    (cs : gmap string Memory) (s0 : Session)
    : Result Response * Session * gmap string Memory * list Event :=
  let sid := App.sessionId body in
  let txt := text (message body) in
  let s1 := touched (now env) s0 in
  match detect_scam (IS_RENDER cfg) (detector env) txt with
  | None => (Raise InternalError, s1, cs, [EvDetect txt])
  | Some detection =>
      let s3 := scored detection s1 in
      let '(reply, cs', gen) :=
        if agent_active s3 then
          (generate_reply (llm env) sid txt cs, [EvGenerate sid txt])
        else ((Some FALLBACK_REPLY, cs), []) in
      match reply, history_text body with
      | Some reply_text, Some history =>
          let text_all := cumulative history txt reply_text in
          let s4 := merged (extract_intelligence text_all) s3 in
          let '(s5, evs) := finalized cfg env s4 in
          (Ret {| status := "success"; reply := reply_text |}, s5, cs',
           EvDetect txt :: gen ++ EvExtract text_all :: evs)
      | _, _ => (Raise InternalError, s3, cs', EvDetect txt :: gen)
      end
  end.

(** The requests of a sequence that were sent with the right key. *)
Definition authorized (cfg : Config) (key : option string) : Prop :=
  key = Some (API_KEY cfg).

Definition is_post (e : Event) : bool :=
  match e with EvPost _ _ _ _ => true | _ => false end.

(** A callback attempt for the session [id]. *)
Definition is_post_for (id : string) (e : Event) : bool :=
  match e with
  | EvPost _ json _ _ => bool_decide (payload_sessionId json = id)
  | _ => false
  end.

(** A successful delivery for the session [id]. *)
Definition is_delivery_for (id : string) (e : Event) : bool :=
  match e with
  | EvPost _ json _ outcome =>
      bool_decide (payload_sessionId json = id) && delivered outcome
  | _ => false
  end.

(** The sweep of some request evicted the session [id]. *)
Definition evicts (id : string) (e : Event) : bool :=
  match e with
  | EvSweep removed_ids => bool_decide (id ∈ removed_ids)
  | _ => false
  end.

Definition count (P : Event -> bool) (t : list Event) : nat :=
  length (List.filter P t).

(** The stored session [id] has been reported. *)
Definition sent_in (w : World) (id : string) : bool :=
  match sessions w !! id with
  | Some s => callback_sent s
  | None => false
  end.

Definition core_intel (s : Session) : bool :=
  let intel := intelligence s in
  (0 <? length (upiIds intel))%nat
  || (0 <? length (phishingLinks intel))%nat
  || (0 <? length (phoneNumbers intel))%nat
  || (0 <? length (bankAccounts intel))%nat.

(** An event that is neither a callback attempt nor a sweep. *)
Definition quiet (e : Event) : Prop :=
  is_post e = false /\ forall id, evicts id e = false.

End Step.

(* ===================================================================== *)
(** ** Sample inputs                                                     *)
(* ===================================================================== *)

Module Sample.
Import Extract SessionManager Agent App.

(** A lightweight-mode deployment. *)
Definition cfg : Config :=
  mkConfig "secret" "https://callback.example/report" true.

(** An environment whose callback attempts end as [outcome] tells. *)
Definition env (outcome : nat -> PostOutcome) : Env :=
  mkEnv 0 (fun _ => None) (fun _ _ => Some "Which bank is this, dear?")
        outcome.

(** The same, at clock time [t]. *)
Definition env_at (t : Q) (outcome : nat -> PostOutcome) : Env :=
  mkEnv t (fun _ => None) (fun _ _ => Some "Which bank is this, dear?")
        outcome.

Definition request (sid who txt : string) : IncomingRequest :=
  mkIncomingRequest sid (mkMessage who txt "2026-01-01T00:00:00Z") [] ∅.

Definition empty_world : World := mkWorld ∅ ∅.

(** A session after seven turns: active, not reported, one phone number. *)
Definition ripe_session : Session :=
  mkSession "s1" 7 0.72 true false
            (mkIntelligence [] [] ["9876543210"] [] ["otp"]) 0.

Definition ripe_world : World := mkWorld {[ "s1" := ripe_session ]} ∅.

End Sample.

(* ===================================================================== *)
(** ** Readings of matches, extracted items and traces                   *)
(* ===================================================================== *)

(** Declarative readings used to state what the extractor returns and
    what the classifier's label means. *)
Module Shape.
Import Text Regex.

(** All characters of [s] pass [p]. *)
Definition all_chars (p : ascii -> bool) (s : string) : bool :=
  forallb p (list_ascii_of_string s).

(** The character before the position reached after [m]. *)
Definition after_text (prev : option ascii) (m : string) : option ascii :=
  match last_char m with
  | Some c => Some c
  | None => prev
  end.

(** What a match looks like, by recursion on the pattern: a match of [r]
    on the piece [m] of the text, with [prev] the character before [m]
    and [rest] the text after it, satisfies [spans r prev m rest]
    ([Matches_spans] below). Greediness is left out. *)
Fixpoint spans (r : regex) (prev : option ascii) (m rest : string) : Prop :=
  match r with
  | Eps => m = ""
  | Boundary => m = "" /\ at_boundary prev rest = true
  | Chr c => m = String c ""
  | Class p => exists c, p c = true /\ m = String c ""
  | Cat r1 r2 =>
      exists m1 m2, m = m1 ++ m2 /\ spans r1 prev m1 (m2 ++ rest) /\
                    spans r2 (after_text prev m1) m2 rest
  | Alt r1 r2 => spans r1 prev m rest \/ spans r2 prev m rest
  | Opt r1 => m = "" \/ spans r1 prev m rest
  | Repeat p lo hi =>
      all_chars p m = true /\ (lo <= String.length m)%nat /\
      match hi with
      | Some h => (String.length m <= h)%nat
      | None => True
      end
  end.

(** The optional prefixes of the phone pattern: none, the trunk [0],
    the country code [+91], or the country code and one separator. *)
Definition phone_prefix (s : string) : bool :=
  String.eqb s "" || String.eqb s "0" || String.eqb s "+91" ||
  Extract.is_country_prefix s.

(** Ten digits of which the first is 6, 7, 8 or 9. *)
Definition mobile_number (s : string) : bool :=
  match s with
  | String c ds =>
      in_range "6" "9" c && all_chars is_digit ds &&
      (String.length ds =? 9)%nat
  | EmptyString => false
  end.

(** The characters a match of the UPI pattern may contain. *)
Definition upi_char (c : ascii) : bool := Extract.upi_local c || Ascii.eqb c "@".

(** The label of the classifier reads as a scam: it contains phish, spam
    or fraud, letter case apart. *)
Definition scam_label (result : Detector.Classification) : Prop :=
  substring_of "phish" (lower (Detector.label result)) \/
  substring_of "spam" (lower (Detector.label result)) \/
  substring_of "fraud" (lower (Detector.label result)).

End Shape.

(** Predicates on the events and the registries of a request. *)
Module Trace.
Import Text Extract SessionManager Agent App Step.

Definition is_generate (e : Event) : bool :=
  match e with EvGenerate _ _ => true | _ => false end.

Definition is_extract (e : Event) : bool :=
  match e with EvExtract _ => true | _ => false end.

(** The events of [send_guvi_callback]: attempts, waits and log lines. *)
Definition is_callback_event (e : Event) : bool :=
  match e with
  | EvPost _ _ _ _ | EvSleep _ | EvLogInfo _ | EvLogWarning _ _ => true
  | _ => false
  end.

(** Every chain of [agent._chains] belongs to a stored session. *)
Definition chains_tracked (w : World) : Prop :=
  forall k, is_Some (chains w !! k) -> is_Some (sessions w !! k).

(** The session stored under [k] has been idle for longer than 86400
    seconds at time [now]: a sweep evicts it, unless it is the session
    of the request. *)
Definition swept_away (now : Q) (store : gmap string Session) (k : string)
    : bool :=
  match store !! k with
  | Some s => stale now 86400 s
  | None => false
  end.

(** Every stored session whose confidence has reached 0.6 is active. *)
Definition confident_active (store : gmap string Session) : Prop :=
  forall k s, store !! k = Some s ->
    PrimFloat.leb 0.6 (confidence s) = true -> agent_active s = true.

End Trace.

(* ===================================================================== *)
(** * Properties                                                         *)
(* ===================================================================== *)

(** ** Strings *)

Section TextFacts.
Import Text.

Lemma append_cons c (s t : string) : String c s ++ t = String c (s ++ t).
Proof. reflexivity. Qed.

Lemma append_empty_l (t : string) : "" ++ t = t.
Proof. reflexivity. Qed.

Lemma append_empty_r (s : string) : s ++ "" = s.
Proof.
  induction s as [|c s IH]; [reflexivity|].
  rewrite append_cons, IH. reflexivity.
Qed.

Lemma append_assoc (s t u : string) : (s ++ t) ++ u = s ++ t ++ u.
Proof.
  induction s as [|c s IH]; [reflexivity|].
  rewrite !append_cons, IH. reflexivity.
Qed.

Lemma length_append (s t : string) :
  String.length (s ++ t) = (String.length s + String.length t)%nat.
Proof.
  induction s as [|c s IH]; [reflexivity|].
  rewrite append_cons. simpl. rewrite IH. reflexivity.
Qed.

Lemma take_append (s t : string) : take (String.length s) (s ++ t) = s.
Proof.
  induction s as [|c s IH]; [destruct t; reflexivity|].
  rewrite append_cons. simpl. rewrite IH. reflexivity.
Qed.

Lemma starts_with_spec (p s : string) :
  starts_with p s = true <-> exists post, s = p ++ post.
Proof.
  revert s. induction p as [|a p IH]; intros s; simpl.
  - split; [intros _; exists s; reflexivity | reflexivity].
  - destruct s as [|b s].
    + split; [discriminate | intros [post H]; discriminate].
    + rewrite andb_true_iff, Ascii.eqb_eq, IH. split.
      * intros [-> [post ->]]. exists post. reflexivity.
      * intros [post H]. rewrite append_cons in H.
        injection H as -> ->. split; [reflexivity | exists post; reflexivity].
Qed.

Lemma contains_spec (needle hay : string) :
  contains needle hay = true <-> substring_of needle hay.
Proof.
  unfold substring_of. induction hay as [|c hay IH].
  - simpl. rewrite orb_false_r, starts_with_spec. split.
    + intros [post H]. exists "", post. exact H.
    + intros (pre & post & H). destruct pre as [|a pre].
      * exists post. exact H.
      * rewrite append_cons in H. discriminate.
  - cbn [contains]. rewrite orb_true_iff, starts_with_spec, IH. split.
    + intros [[post H] | (pre & post & H)].
      * exists "", post. exact H.
      * exists (String c pre), post. rewrite append_cons, H. reflexivity.
    + intros (pre & post & H). destruct pre as [|a pre].
      * left. exists post. exact H.
      * right. rewrite append_cons in H. injection H as -> ->.
        exists pre, post. reflexivity.
Qed.

Lemma contains_false_spec (needle hay : string) :
  contains needle hay = false <-> ~ substring_of needle hay.
Proof.
  rewrite <- contains_spec. destruct (contains needle hay); split;
    intros H; try reflexivity; try discriminate; try tauto.
Qed.

End TextFacts.

(** ** Counting the elements of a duplicate-free list that pass a test *)

Section Counting.
Context {A : Type} (P : A -> Prop) `{!forall x, Decision (P x)}.

Lemma two_pass_iff (l : list A) :
  NoDup l ->
  (2 <= length (filter P l))%nat <->
  exists x y, x <> y /\ x ∈ l /\ y ∈ l /\ P x /\ P y.
Proof.
  intros Hnd. pose proof (NoDup_filter P l Hnd) as Hf. split.
  - destruct (filter P l) as [|x [|y r]] eqn:E; simpl; try lia.
    intros _. exists x, y.
    assert (Hx : x ∈ filter P l) by (rewrite E; left).
    assert (Hy : y ∈ filter P l) by (rewrite E; right; left).
    apply list_elem_of_filter in Hx as [Px Hx], Hy as [Py Hy].
    repeat split; try assumption.
    apply NoDup_cons in Hf as [Hn _].
    intros ->. apply Hn. left.
  - intros (x & y & Hne & Hx & Hy & Px & Py).
    assert (Hx' : x ∈ filter P l) by (apply list_elem_of_filter; auto).
    assert (Hy' : y ∈ filter P l) by (apply list_elem_of_filter; auto).
    destruct (filter P l) as [|a [|b r]]; simpl; try lia.
    + inversion Hx'.
    + apply list_elem_of_singleton in Hx', Hy'. congruence.
Qed.

End Counting.

(** ** detector.py *)

Section DetectorFacts.
Import Text Detector.

Lemma any_strong_spec (text : string) :
  any_strong text = true <-> strong_present text.
Proof.
  unfold any_strong, strong_present. rewrite existsb_exists. split.
  - intros (sk & Hin & Hc). exists sk. split.
    + apply list_elem_of_In. exact Hin.
    + apply contains_spec. exact Hc.
  - intros (sk & Hin & Hc). exists sk. split.
    + apply list_elem_of_In. exact Hin.
    + apply contains_spec. exact Hc.
Qed.

Lemma SUSPICIOUS_KEYWORDS_NoDup : NoDup SUSPICIOUS_KEYWORDS.
Proof. apply (bool_decide_unpack _). vm_compute. exact I. Qed.

Lemma hits_spec (text : string) :
  (2 <=? hits text)%nat = true <-> two_suspicious text.
Proof.
  unfold hits, two_suspicious, suspicious_in.
  rewrite Nat.leb_le, (two_pass_iff _ _ SUSPICIOUS_KEYWORDS_NoDup). split.
  - intros (x & y & Hne & Hx & Hy & Px & Py). exists x, y.
    rewrite <- !contains_spec. tauto.
  - intros (x & y & Hne & [Hx Px] & [Hy Py]). exists x, y.
    rewrite !contains_spec. tauto.
Qed.

Lemma pymax_ge_r (a b : Q) : (b <= pymax a b)%Q.
Proof.
  unfold pymax. destruct (Qlt_le_dec a b); [apply Qle_refl | assumption].
Qed.

Lemma pymax_ge_l (a b : Q) : (a <= pymax a b)%Q.
Proof.
  unfold pymax. destruct (Qlt_le_dec a b); [apply Qlt_le_weak; assumption | apply Qle_refl].
Qed.

Lemma pymax_keep (a b : Q) : (b <= a)%Q -> pymax a b = a.
Proof.
  intros H. unfold pymax. destruct (Qlt_le_dec a b) as [Hlt|]; [|reflexivity].
  exfalso. exact (Qlt_not_le _ _ Hlt H).
Qed.

(** C5. In lightweight mode [detect_scam] answers (true, 0.9) when a
    strong keyword occurs in the lower-cased text; otherwise (true, 0.7)
    when at least two of the twelve suspicious keywords occur; otherwise
    (false, 0.0), in particular when exactly one suspicious keyword and no
    strong keyword occurs. *)
Theorem detect_scam_lightweight
    (detector : string -> option Classification) (text : string) :
  STRONG_KEYWORDS = ["otp"; "upi pin"; "pin"; "one time password"] /\
  length SUSPICIOUS_KEYWORDS = 12%nat /\
  (strong_present (lower text) ->
   detect_scam true detector text = Some (true, 0.9%Q)) /\
  (~ strong_present (lower text) -> two_suspicious (lower text) ->
   detect_scam true detector text = Some (true, 0.7%Q)) /\
  (~ strong_present (lower text) -> ~ two_suspicious (lower text) ->
   detect_scam true detector text = Some (false, 0.0%Q)) /\
  (forall kw,
     ~ strong_present (lower text) ->
     suspicious_in (lower text) kw ->
     (forall kw', suspicious_in (lower text) kw' -> kw' = kw) ->
     detect_scam true detector text = Some (false, 0.0%Q)).
Proof.
  assert (Hnone : ~ strong_present (lower text) -> ~ two_suspicious (lower text) ->
                  detect_scam true detector text = Some (false, 0.0%Q)).
  { intros Hs Ht. unfold detect_scam.
    destruct (any_strong (lower text)) eqn:E1.
    { exfalso. apply Hs, any_strong_spec, E1. }
    destruct (2 <=? hits (lower text))%nat eqn:E2; [|reflexivity].
    exfalso. apply Ht, hits_spec, E2. }
  split; [reflexivity|]. split; [reflexivity|].
  split; [|split; [|split]].
  - intros Hs. apply any_strong_spec in Hs. unfold detect_scam.
    rewrite Hs. reflexivity.
  - intros Hs Ht. apply hits_spec in Ht. unfold detect_scam.
    destruct (any_strong (lower text)) eqn:E1.
    { exfalso. apply Hs, any_strong_spec, E1. }
    rewrite Ht. reflexivity.
  - exact Hnone.
  - intros kw Hs Hkw Huniq. apply Hnone; [exact Hs|].
    intros (k1 & k2 & Hne & H1 & H2).
    apply Hne. rewrite (Huniq _ H1), (Huniq _ H2). reflexivity.
Qed.

(** C6. In model-backed mode, when a strong keyword occurs in the
    lower-cased text, [detect_scam] answers scam-like with a score that is
    the higher of the model's score and 0.85, whatever label and score the
    model produced. *)
Theorem detect_scam_strong_escalation
    (detector : string -> option Classification) (text : string)
    (result : Classification) :
  detector (lower text) = Some result ->
  strong_present (lower text) ->
  exists s,
    detect_scam false detector text = Some (true, s) /\
    s = pymax (score result) 0.85%Q /\
    (0.85 <= s)%Q /\ (score result <= s)%Q.
Proof.
  intros Hd Hs. apply any_strong_spec in Hs.
  exists (pymax (score result) 0.85%Q).
  split; [|split; [reflexivity | split; [apply pymax_ge_r | apply pymax_ge_l]]].
  unfold detect_scam. rewrite Hd, Hs.
  destruct (2 <=? hits (lower text))%nat; [|reflexivity].
  rewrite pymax_keep; [reflexivity|].
  apply Qle_trans with (y := 0.85%Q); [discriminate | apply pymax_ge_r].
Qed.

Lemma detect_scam_strong_escalation_witness :
  exists s,
    detect_scam false (fun _ => Some (mkClassification "LEGITIMATE" 0.3%Q))
                "Tell me the OTP" = Some (true, s) /\
    s = pymax 0.3%Q 0.85%Q /\ (0.85 <= s)%Q /\ (0.3 <= s)%Q.
Proof.
  apply (detect_scam_strong_escalation
           (fun _ => Some (mkClassification "LEGITIMATE" 0.3%Q))
           "Tell me the OTP" (mkClassification "LEGITIMATE" 0.3%Q)).
  - reflexivity.
  - exists "otp". split; [left | exists "tell me the ", ""; reflexivity].
Defined.

End DetectorFacts.

(** ** Regular expressions *)

Section RegexFacts.
Import Text Regex.

Lemma repeat_class_sound p k s : forall lo hi prev x,
  repeat_class p lo hi k prev s = Some x ->
  exists p1 s1, Matches (Repeat p lo hi) prev s p1 s1 /\ k p1 s1 = Some x.
Proof.
  induction s as [|c s IH]; intros lo hi prev x H; simpl in H.
  - destruct lo; [|discriminate]. exists prev, "". split; [constructor | exact H].
  - destruct (p c) eqn:Hp; simpl in H.
    + destruct (exhausted hi) eqn:Hx; simpl in H.
      * destruct lo; [|discriminate].
        exists prev, (String c s). split; [constructor | exact H].
      * destruct (repeat_class p (Nat.pred lo) (Nat.pred <$> hi) k (Some c) s)
          as [rest|] eqn:E.
        -- injection H as ->. apply IH in E as (p1 & s1 & HM & Hk).
           exists p1, s1. split; [|exact Hk].
           apply MRepStep; assumption.
        -- destruct lo; [|discriminate].
           exists prev, (String c s). split; [constructor | exact H].
    + destruct lo; [|discriminate].
      exists prev, (String c s). split; [constructor | exact H].
Qed.

Lemma repeat_class_done p k prev s :
  repeat_class p 0 (Some 0%nat) k prev s = k prev s.
Proof.
  destruct s as [|c s]; simpl; [reflexivity|].
  rewrite andb_false_r. reflexivity.
Qed.

Lemma bt_sound r : forall k prev s x,
  bt r k prev s = Some x ->
  exists p1 s1, Matches r prev s p1 s1 /\ k p1 s1 = Some x.
Proof.
  induction r as [ | c | p | | r1 IH1 r2 IH2 | r1 IH1 r2 IH2 | r IH | p lo hi ];
    intros k prev s x H; simpl in H.
  - exists prev, s. split; [constructor | exact H].
  - destruct s as [|a s]; [discriminate|].
    destruct (Ascii.eqb a c) eqn:E; [|discriminate].
    apply Ascii.eqb_eq in E as ->.
    exists (Some c), s. split; [constructor | exact H].
  - destruct s as [|a s]; [discriminate|].
    destruct (p a) eqn:E; [|discriminate].
    exists (Some a), s. split; [constructor; exact E | exact H].
  - destruct (at_boundary prev s) eqn:E; [|discriminate].
    exists prev, s. split; [constructor; exact E | exact H].
  - apply IH1 in H as (p1 & s1 & HM1 & H). apply IH2 in H as (p2 & s2 & HM2 & H).
    exists p2, s2. split; [econstructor; eassumption | exact H].
  - destruct (bt r1 k prev s) as [rest|] eqn:E.
    + injection H as ->. apply IH1 in E as (p1 & s1 & HM & Hk).
      exists p1, s1. split; [apply MAltL; exact HM | exact Hk].
    + apply IH2 in H as (p1 & s1 & HM & Hk).
      exists p1, s1. split; [apply MAltR; exact HM | exact Hk].
  - destruct (bt r k prev s) as [rest|] eqn:E.
    + injection H as ->. apply IH in E as (p1 & s1 & HM & Hk).
      exists p1, s1. split; [apply MOptSome; exact HM | exact Hk].
    + exists prev, s. split; [apply MOptNone | exact H].
  - apply repeat_class_sound. exact H.
Qed.

Lemma match_at_sound r prev s rest :
  match_at r prev s = Some rest -> exists p1, Matches r prev s p1 rest.
Proof.
  intros H. apply bt_sound in H as (p1 & s1 & HM & Hk).
  injection Hk as ->. exists p1. exact HM.
Qed.

(** A match consumes a prefix of the text. *)
Lemma Matches_consumes r p0 s0 p1 s1 :
  Matches r p0 s0 p1 s1 -> exists m, s0 = m ++ s1.
Proof.
  induction 1 as
    [ prev s | c prev s | p c prev s Hp | prev s Hb
    | r1 r2 p0 s0 p1 s1 p2 s2 _ [m1 ->] _ [m2 ->]
    | r1 r2 p0 s0 p1 s1 _ IH | r1 r2 p0 s0 p1 s1 _ IH
    | r p0 s0 p1 s1 _ IH | r prev s | p hi prev s
    | p lo hi c prev s p1 s1 Hp Hx _ [m ->] ];
    try (exists ""; reflexivity); try exact IH.
  - exists (String c ""). reflexivity.
  - exists (String c ""). reflexivity.
  - exists (m1 ++ m2). rewrite append_assoc. reflexivity.
  - exists (String c m). reflexivity.
Qed.

Lemma Matches_shrinks r p0 s0 p1 s1 :
  Matches r p0 s0 p1 s1 ->
  (String.length s1 <= String.length s0)%nat /\
  (consuming r = true -> (String.length s1 < String.length s0)%nat).
Proof.
  induction 1 as
    [ prev s | c prev s | p c prev s Hp | prev s Hb
    | r1 r2 p0 s0 p1 s1 p2 s2 _ [IH1 IH1'] _ [IH2 IH2']
    | r1 r2 p0 s0 p1 s1 _ [IH IH'] | r1 r2 p0 s0 p1 s1 _ [IH IH']
    | r p0 s0 p1 s1 _ [IH IH'] | r prev s | p hi prev s
    | p lo hi c prev s p1 s1 Hp Hx _ [IH IH'] ];
    cbn [consuming String.length]; split; try lia; try discriminate.
  - intros [H|H]%orb_true_iff; [specialize (IH1' H) | specialize (IH2' H)]; lia.
  - intros [H _]%andb_true_iff. apply IH'. exact H.
  - intros [_ H]%andb_true_iff. apply IH'. exact H.
Qed.

(** A consuming pattern never matches the empty string, so the scanning
    loop of [findall] is the one of [re]. *)
Lemma match_at_consumes r prev s rest :
  consuming r = true -> match_at r prev s = Some rest ->
  (String.length rest < String.length s)%nat.
Proof.
  intros Hc H. apply match_at_sound in H as [p1 H].
  apply Matches_shrinks in H as [_ H]. apply H. exact Hc.
Qed.

Lemma last_char_append (a b : string) :
  b <> "" -> last_char (a ++ b) = last_char b.
Proof.
  intros Hb. induction a as [|c a IH]; [reflexivity|].
  rewrite append_cons. cbn [last_char]. rewrite IH.
  destruct (a ++ b) eqn:E; [|reflexivity].
  destruct a; [|discriminate]. simpl in E. contradiction.
Qed.

Lemma has_suffix_append P (a b : string) :
  has_suffix P b = true -> has_suffix P (a ++ b) = true.
Proof.
  intros H. induction a as [|c a IH]; [exact H|].
  rewrite append_cons. cbn [has_suffix]. rewrite IH. apply orb_true_r.
Qed.

Lemma scan_unfold r prev s skip :
  scan r prev s skip =
  match skip with
  | S n => step_scan (scan r) s n
  | 0%nat =>
      match match_at r prev s with
      | Some rest =>
          let n := (String.length s - String.length rest)%nat in
          take n s :: step_scan (scan r) s (Nat.pred n)
      | None => step_scan (scan r) s 0
      end
  end.
Proof. destruct s; reflexivity. Qed.

(** The scan reaches a match: if the pattern matches [m] at the start of
    [t], and no match that starts in [a] extends into [t], then [m] is
    among the matches found in [a ++ t]. *)
Lemma scan_reaches r (m rest t : string) :
  t = m ++ rest ->
  (forall prev, match_at r prev t = Some rest) ->
  forall a,
  (forall a1 a2 prev rest', a = a1 ++ a2 -> a2 <> "" ->
     match_at r prev (a2 ++ t) = Some rest' ->
     (String.length t <= String.length rest')%nat) ->
  forall prev skip, (skip <= String.length a)%nat ->
  m ∈ scan r prev (a ++ t) skip.
Proof.
  intros Ht Hm. induction a as [|c a IH]; intros Hns prev skip Hskip.
  - simpl in Hskip. assert (skip = 0%nat) as -> by lia.
    rewrite append_empty_l, scan_unfold, Hm. cbv zeta.
    replace (String.length t - String.length rest)%nat with (String.length m)
      by (rewrite Ht, length_append; lia).
    rewrite Ht, take_append. left.
  - assert (IH' : forall prev skip, (skip <= String.length a)%nat ->
                  m ∈ scan r prev (a ++ t) skip).
    { apply IH. intros a1 a2 prev' rest' -> Hne. apply (Hns (String c a1) a2).
      - reflexivity.
      - exact Hne. }
    rewrite append_cons, scan_unfold. destruct skip as [|n]; cbn [step_scan].
    + destruct (match_at r prev (String c (a ++ t))) as [rest'|] eqn:E;
        cbv zeta; cbn [step_scan].
      * right. apply IH'.
        assert (String.length t <= String.length rest')%nat as Hle.
        { apply (Hns "" (String c a) prev rest');
            [reflexivity | discriminate | exact E]. }
        simpl. rewrite length_append. lia.
      * apply IH'. lia.
    + apply IH'. simpl in Hskip. lia.
Qed.

End RegexFacts.

(** ** extract.py *)

Section ExtractFacts.
Import Text Regex Extract.

Lemma in_range_digit_word lo hi c :
  is_digit lo = true -> is_digit hi = true ->
  in_range lo hi c = true -> is_word c = true.
Proof.
  unfold is_word, is_digit, in_range. intros Hlo Hhi H.
  apply andb_true_iff in Hlo as [Hlo _], Hhi as [_ Hhi], H as [H1 H2].
  apply Nat.leb_le in Hlo, Hhi, H1, H2.
  assert (Hd : ((code "0" <=? code c)%nat && (code c <=? code "9")%nat) = true).
  { apply andb_true_iff. split; apply Nat.leb_le; lia. }
  rewrite Hd. rewrite orb_true_r. reflexivity.
Qed.

Lemma is_digit_word c : is_digit c = true -> is_word c = true.
Proof. apply (in_range_digit_word "0" "9"); reflexivity. Qed.

Lemma six_nine_word c : in_range "6" "9" c = true -> is_word c = true.
Proof. apply (in_range_digit_word "6" "9"); reflexivity. Qed.

(** The phone pattern matches a ten-digit number starting with 9 wherever
    the number is followed by a word boundary. *)
Lemma phone_matches_run prev post :
  word_opt (first_char post) = false ->
  match_at PHONE_PATTERN prev ("9876543210" ++ post) = Some post.
Proof.
  intros H. unfold match_at, PHONE_PATTERN.
  rewrite !append_cons, append_empty_l.
  simpl. rewrite repeat_class_done. unfold at_boundary. rewrite H. reflexivity.
Qed.

Ltac invert_matches :=
  repeat match goal with
  | H : Matches (Cat _ _) _ _ _ _ |- _ => inversion H; subst; clear H
  | H : Matches (Alt _ _) _ _ _ _ |- _ => inversion H; subst; clear H
  | H : Matches (Opt _) _ _ _ _ |- _ => inversion H; subst; clear H
  | H : Matches (Chr _) _ _ _ _ |- _ => inversion H; subst; clear H
  | H : Matches (Class _) _ _ _ _ |- _ => inversion H; subst; clear H
  | H : Matches Eps _ _ _ _ |- _ => inversion H; subst; clear H
  | H : Matches Boundary _ _ _ _ |- _ => inversion H; subst; clear H
  | H : Matches (Repeat _ _ _) _ _ _ _ |- _ =>
      inversion H; subst; clear H;
      cbn [Nat.pred fmap option_fmap option_map exhausted] in *;
      try discriminate
  end.

(** Peel the characters of [a] off an equation [m ++ rest = a ++ t] whose
    left-hand side is explicit; [close] refutes the cases where [a] ends
    inside the match. *)
Ltac peel close :=
  lazymatch goal with
  | H : String _ _ = ?a ++ _ |- _ =>
      destruct a as [|? a];
      [ rewrite append_empty_l in H; close
      | rewrite append_cons in H;
        let E := fresh "E" in
        injection H as ? E; subst; peel close ]
  | H : _ = _ ++ _ |- _ => rewrite H, length_append; lia
  | |- _ => rewrite ?length_append; simpl; lia
  end.

Ltac close_straddle :=
  first
    [ congruence
    | match goal with
      | H : String _ _ = String _ _ |- _ => discriminate H
      end
    | match goal with
      | Hl : word_opt (last_char _) = false |- _ =>
          cbn [last_char word_opt] in Hl;
          first [ rewrite is_digit_word in Hl by assumption
                | rewrite six_nine_word in Hl by assumption
                | vm_compute in Hl ];
          discriminate Hl
      end
    | match goal with
      | Hc : country_prefixed _ = false, Hs : sep_class _ = true |- _ =>
          unfold country_prefixed in Hc;
          cbn [has_suffix is_country_prefix] in Hc;
          rewrite Hs in Hc; discriminate Hc
      end ].


Lemma phone_no_straddle prev a t rest :
  a <> "" -> word_opt (last_char a) = false -> country_prefixed a = false ->
  match_at PHONE_PATTERN prev (a ++ String "9" (String "8" t)) = Some rest ->
  (String.length (String "9" (String "8" t)) <= String.length rest)%nat.
Proof.
  intros Hne Hlast Hcc H. apply match_at_sound in H as [p1 H].
  unfold PHONE_PATTERN in H. cbn [Lit] in H.
  remember (a ++ String "9" (String "8" t)) as s eqn:Hs.
  invert_matches.
  all: peel close_straddle.
Qed.

(** None of the four patterns matches the empty string. *)
Lemma patterns_consume :
  consuming BANK_ACCOUNT_PATTERN = true /\ consuming UPI_PATTERN = true /\
  consuming PHONE_PATTERN = true /\ consuming URL_PATTERN = true.
Proof. repeat split. Qed.

(** The matcher on a few texts, with the answers of [re.findall]. *)
Example findall_phone_samples :
  findall PHONE_PATTERN "+91-9876543210" = ["+91-9876543210"] /\
  findall PHONE_PATTERN "+91 9876543210" = ["+91 9876543210"] /\
  findall PHONE_PATTERN "+919876543210" = ["+919876543210"] /\
  findall PHONE_PATTERN "+91--9876543210" = ["9876543210"] /\
  findall PHONE_PATTERN "+9876543210" = ["9876543210"] /\
  findall PHONE_PATTERN "69876543210" = ["9876543210"] /\
  findall PHONE_PATTERN "9876543210_" = [] /\
  findall PHONE_PATTERN "09876543210 123456789012345678"
    = ["09876543210"; "9012345678"].
Proof. repeat split; vm_compute; reflexivity. Qed.

Example findall_bank_samples :
  findall BANK_ACCOUNT_PATTERN "+91-9876543210" = ["9876543210"] /\
  findall BANK_ACCOUNT_PATTERN "+919876543210" = ["919876543210"] /\
  findall BANK_ACCOUNT_PATTERN "9876543210_" = [] /\
  findall BANK_ACCOUNT_PATTERN "12345678 1234567890123456789" = [] /\
  findall BANK_ACCOUNT_PATTERN "09876543210 123456789012345678"
    = ["09876543210"; "123456789012345678"].
Proof. repeat split; vm_compute; reflexivity. Qed.

Example extract_intelligence_samples :
  extract_intelligence "" = mkIntelligence [] [] [] [] [] /\
  extract_intelligence "pay to scammer.acct99@upi now"
    = mkIntelligence [] ["scammer.acct99@upi"] [] [] ["upi"] /\
  phishingLinks (extract_intelligence "open http://a.b/c?d=1>x or https://e.f")
    = ["http://a.b/c?d=1"; "https://e.f"].
Proof. repeat split; vm_compute; reflexivity. Qed.

Lemma elem_of_to_set (x : string) (xs : list string) : x ∈ to_set xs <-> x ∈ xs.
Proof. apply elem_of_remove_dups. Qed.

(** A ten-digit number that stands between word boundaries and is not
    preceded by the country code with a separator is found as it is by
    the phone pattern. *)
Lemma phone_run_found (pre post : string) :
  word_opt (last_char pre) = false ->
  word_opt (first_char post) = false ->
  country_prefixed pre = false ->
  "9876543210" ∈ findall PHONE_PATTERN (pre ++ "9876543210" ++ post).
Proof.
  intros Hl Hr Hcc. unfold findall.
  apply (scan_reaches PHONE_PATTERN "9876543210" post ("9876543210" ++ post)).
  - reflexivity.
  - intros prev. apply phone_matches_run. exact Hr.
  - intros a1 a2 prev rest' -> Hne Hm.
    rewrite !append_cons, append_empty_l in Hm |- *.
    apply (phone_no_straddle prev a2); try assumption.
    + rewrite last_char_append in Hl by exact Hne. exact Hl.
    + destruct (country_prefixed a2) eqn:E; [|reflexivity].
      unfold country_prefixed in Hcc.
      rewrite (has_suffix_append _ a1 a2 E) in Hcc. discriminate.
  - lia.
Qed.

Lemma _normalize_number_digits (s : string) :
  forallb is_digit (list_ascii_of_string s) = true -> _normalize_number s = s.
Proof.
  induction s as [|c s IH]; [reflexivity|]. simpl.
  intros [Hc Hs]%andb_true_iff. rewrite Hc, IH by exact Hs. reflexivity.
Qed.

(** The disambiguation rule: a bank-account candidate is kept exactly when
    its digits differ from the digits of every phone-number candidate. *)
Lemma bank_accounts_rule (text acc : string) :
  acc ∈ bankAccounts (extract_intelligence text) <->
  acc ∈ findall BANK_ACCOUNT_PATTERN text /\
  ~ exists p, p ∈ findall PHONE_PATTERN text /\
              _normalize_number acc = _normalize_number p.
Proof.
  unfold extract_intelligence. cbn [bankAccounts].
  rewrite list_elem_of_filter, !elem_of_to_set, list_elem_of_fmap.
  split.
  - intros [Hn Hb]. split; [exact Hb|]. intros (p & Hp & E).
    apply Hn. exists p. split; [exact E | apply elem_of_to_set; exact Hp].
  - intros [Hb Hn]. split; [|exact Hb]. intros (p & E & Hp).
    apply Hn. exists p. split; [apply elem_of_to_set; exact Hp | exact E].
Qed.

(** C7 (as amended). For every text in which 9876543210 stands between
    word boundaries and is not preceded by the country code +91 with a
    hyphen or white-space separator, [extract_intelligence] returns
    9876543210 among the phone numbers and not among the bank accounts. *)
Theorem phone_run_disambiguated (pre post : string) :
  word_opt (last_char pre) = false ->
  word_opt (first_char post) = false ->
  country_prefixed pre = false ->
  let intel := extract_intelligence (pre ++ "9876543210" ++ post) in
  "9876543210" ∈ phoneNumbers intel /\ "9876543210" ∉ bankAccounts intel.
Proof.
  intros Hl Hr Hcc intel.
  pose proof (phone_run_found pre post Hl Hr Hcc) as Hp. split.
  - unfold intel, extract_intelligence. cbn [phoneNumbers].
    apply elem_of_to_set. exact Hp.
  - intros Hb. apply bank_accounts_rule in Hb as [_ Hn]. apply Hn.
    exists "9876543210". split; [exact Hp | reflexivity].
Qed.

Lemma phone_run_disambiguated_witness :
  let intel := extract_intelligence "call 9876543210 now" in
  "9876543210" ∈ phoneNumbers intel /\ "9876543210" ∉ bankAccounts intel.
Proof.
  apply (phone_run_disambiguated "call " " now"); reflexivity.
Defined.

(** C7 (counterexample). The claim as stated fails on the text
    +91-9876543210: the run stands between word boundaries, the text has
    no at-sign, and yet the run is not returned as a phone number and is
    returned as a bank account. *)
Lemma phone_run_claim_refuted :
  ~ (forall pre post : string,
       word_opt (last_char pre) = false ->
       word_opt (first_char post) = false ->
       contains "@" (pre ++ "9876543210" ++ post) = false ->
       let intel := extract_intelligence (pre ++ "9876543210" ++ post) in
       "9876543210" ∈ phoneNumbers intel /\ "9876543210" ∉ bankAccounts intel).
Proof.
  intros H.
  destruct (H "+91-" "" eq_refl eq_refl eq_refl) as [_ Hb].
  apply Hb. vm_compute. left.
Qed.

(** C10. On the text +91-9876543210 the phone number is returned with its
    country code and the bare ten digits are still returned as a bank
    account: a bank-account candidate is dropped only when its digits equal
    all the digits of some phone-number candidate, here 919876543210. *)
Theorem prefixed_phone_keeps_bank_account :
  let intel := extract_intelligence "+91-9876543210" in
  phoneNumbers intel = ["+91-9876543210"] /\
  bankAccounts intel = ["9876543210"] /\
  _normalize_number "+91-9876543210" = "919876543210" /\
  _normalize_number "9876543210" = "9876543210" /\
  (forall text acc,
     acc ∈ findall BANK_ACCOUNT_PATTERN text ->
     acc ∉ bankAccounts (extract_intelligence text) ->
     exists p, p ∈ phoneNumbers (extract_intelligence text) /\
               _normalize_number acc = _normalize_number p).
Proof.
  cbv zeta. repeat split; try (vm_compute; reflexivity).
  intros text acc Hb Hn.
  destruct (decide (Exists (fun p => _normalize_number acc = _normalize_number p)
                           (findall PHONE_PATTERN text))) as [He|He].
  - apply Exists_exists in He as (p & Hp & E). exists p. split; [|exact E].
    unfold extract_intelligence. cbn [phoneNumbers].
    apply elem_of_to_set. exact Hp.
  - exfalso. apply Hn, bank_accounts_rule. split; [exact Hb|].
    intros (p & Hp & E). apply He, Exists_exists. exists p. split; assumption.
Qed.

(** C8 (counterexample). The keyword set of the extractor does not have
    15 terms. *)
Lemma suspicious_keywords_not_fifteen :
  length (to_set Extract.SUSPICIOUS_KEYWORDS) <> 15%nat.
Proof. vm_compute. discriminate. Qed.

(** C8 (as amended). The keyword set of the extractor has exactly 16
    terms, the listed ones, and for every text the suspiciousKeywords
    category holds exactly the listed terms that occur in the lower-cased
    text, each once. *)
Theorem suspicious_keywords_extracted :
  length (to_set Extract.SUSPICIOUS_KEYWORDS) = 16%nat /\
  (forall kw, kw ∈ to_set Extract.SUSPICIOUS_KEYWORDS <->
     kw ∈ [ "otp"; "upi"; "bank"; "verify"; "blocked"; "urgent";
            "suspended"; "kyc"; "pin"; "refund"; "gift card"; "crypto";
            "bitcoin"; "btc"; "gold"; "money" ]) /\
  (forall text,
     NoDup (suspiciousKeywords (extract_intelligence text)) /\
     forall kw,
       kw ∈ suspiciousKeywords (extract_intelligence text) <->
       kw ∈ Extract.SUSPICIOUS_KEYWORDS /\ substring_of kw (lower text)).
Proof.
  split; [reflexivity|]. split.
  - intros kw. rewrite elem_of_to_set. reflexivity.
  - intros text. unfold extract_intelligence. cbn [suspiciousKeywords]. split.
    + apply NoDup_filter, NoDup_remove_dups.
    + intros kw. rewrite list_elem_of_filter, elem_of_to_set, contains_spec.
      tauto.
Qed.

End ExtractFacts.

(** ** app.py *)

Section AppFacts.
Import Text Extract Detector SessionManager Agent App Step.
Local Open Scope list_scope.

Lemma swept_lookup_self now m x (st : gmap string Session) :
  (cleanup_stale now m x st).2 !! x = st !! x.
Proof.
  unfold cleanup_stale. cbn [snd].
  destruct (st !! x) as [s|] eqn:E.
  - apply map_lookup_filter_Some. split; [exact E|].
    unfold evictable. cbn. tauto.
  - apply map_lookup_filter_None. left. exact E.
Qed.

Lemma swept_lookup_kept now m x (st : gmap string Session) k :
  k ∉ (cleanup_stale now m x st).1 ->
  (cleanup_stale now m x st).2 !! k = st !! k.
Proof.
  unfold cleanup_stale. cbn [fst snd]. intros Hk.
  destruct (st !! k) as [s|] eqn:E.
  - apply map_lookup_filter_Some. split; [exact E|].
    intros Hev. apply Hk. apply list_elem_of_fmap. exists (k, s).
    split; [reflexivity|]. apply elem_of_map_to_list.
    apply map_lookup_filter_Some. split; assumption.
  - apply map_lookup_filter_None. left. exact E.
Qed.

Lemma swept_lookup_Some now m x (st : gmap string Session) k s :
  (cleanup_stale now m x st).2 !! k = Some s -> st !! k = Some s.
Proof.
  unfold cleanup_stale. cbn [snd]. intros H.
  apply map_lookup_filter_Some in H as [H _]. exact H.
Qed.

Lemma swept_self_not_removed now m x (st : gmap string Session) :
  x ∉ (cleanup_stale now m x st).1.
Proof.
  unfold cleanup_stale. cbn [fst]. intros H.
  apply list_elem_of_fmap in H as ([k s] & -> & H).
  apply elem_of_map_to_list, map_lookup_filter_Some in H as [_ [H _]].
  cbn in H. congruence.
Qed.

Lemma cleanup_chains_lookup ids (cs : gmap string Memory) k :
  k ∉ ids -> cleanup_chains_for_sessions ids cs !! k = cs !! k.
Proof.
  unfold cleanup_chains_for_sessions. revert cs.
  induction ids as [|i ids IH]; intros cs Hk; [reflexivity|].
  cbn [foldl]. rewrite IH.
  - apply lookup_delete_ne. intros ->. apply Hk. left.
  - intros H. apply Hk. right. exact H.
Qed.

Lemma get_session_entry id now (st : gmap string Session) :
  get_session id now st = <[id := entry st id now]> st.
Proof.
  unfold get_session, entry. destruct (st !! id) as [s|] eqn:E; cbn.
  - symmetry. apply insert_id. exact E.
  - reflexivity.
Qed.

Lemma merge_store_merged id intel (st : gmap string Session) :
  merge_store id intel st = alter (merged intel) id st.
Proof.
  unfold merge_store, merged. generalize (items intel). intros l.
  revert st. induction l as [|kv l IH]; intros st; cbn [foldl].
  - symmetry. apply alter_id. reflexivity.
  - rewrite IH. destruct (is_empty kv.2) eqn:E.
    + apply alter_ext. intros s _. reflexivity.
    + unfold add_intelligence. rewrite alter_alter_eq. apply alter_ext.
      intros s _. reflexivity.
Qed.

Lemma callback_loop_events cfg env id payload w : forall remaining attempt,
  callback_loop cfg env id payload attempt remaining w =
  let x := callback_events cfg env id payload attempt remaining in
  (Ret x.1,
   if x.1 then mkWorld (mark_callback_sent id (sessions w)) (chains w) else w,
   x.2).
Proof.
  induction remaining as [|r IH]; intros attempt; [reflexivity|].
  cbn [callback_loop callback_events].
  destruct (delivered (post env attempt)) eqn:D.
  - unfold bind, emit, update_sessions, ret. cbn. reflexivity.
  - unfold bind at 1. unfold emit at 1. cbn.
    unfold bind at 1.
    unfold when, emit, ret; cbn.
    destruct (attempt <=? 1)%nat; cbn; rewrite IH;
      destruct (callback_events cfg env id payload (S attempt) r) as [b t];
      reflexivity.
Qed.

(** *** Running the monad *)

Lemma after_nil {A} (x : Result A * World * list Event) : after [] x = x.
Proof. destruct x as [[r w] t]. reflexivity. Qed.

Lemma after_after {A} t1 t2 (x : Result A * World * list Event) :
  after t1 (after t2 x) = after (t1 ++ t2) x.
Proof. destruct x as [[r w] t]. unfold after. cbn. rewrite app_assoc. reflexivity. Qed.

Lemma bind_ret {A B} (a : A) (f : A -> M B) w : bind (ret a) f w = f a w.
Proof. unfold bind, ret. destruct (f a w) as [[r w2] t2]. reflexivity. Qed.

Lemma bind_raise {A B} e (f : A -> M B) w :
  bind (raise e) f w = (Raise e, w, []).
Proof. reflexivity. Qed.

Lemma bind_emit {B} e (f : unit -> M B) w :
  bind (emit e) f w = after [e] (f tt w).
Proof. unfold bind, emit, after. destruct (f tt w) as [[r w2] t2]. reflexivity. Qed.

Lemma bind_update_sessions {B} g (f : unit -> M B) w :
  bind (update_sessions g) f w = f tt (mkWorld (g (sessions w)) (chains w)).
Proof.
  unfold bind, update_sessions.
  destruct (f tt _) as [[r w2] t2]. reflexivity.
Qed.

Lemma bind_update_chains {B} g (f : unit -> M B) w :
  bind (update_chains g) f w = f tt (mkWorld (sessions w) (g (chains w))).
Proof.
  unfold bind, update_chains.
  destruct (f tt _) as [[r w2] t2]. reflexivity.
Qed.

Lemma bind_read_session {B} id s (f : Session -> M B) w :
  sessions w !! id = Some s -> bind (read_session id) f w = f s w.
Proof.
  intros H. unfold bind, read_session. rewrite H.
  destruct (f s w) as [[r w2] t2]. reflexivity.
Qed.

Lemma bind_when {B} (b : bool) m (f : unit -> M B) w :
  bind (when b m) f w = if b then bind m f w else f tt w.
Proof. destruct b; [reflexivity | apply bind_ret]. Qed.

Lemma bind_assoc {A B C} (m : M A) (f : A -> M B) (g : B -> M C) w :
  bind (bind m f) g w = bind m (fun a => bind (f a) g) w.
Proof.
  unfold bind. destruct (m w) as [[[a|e] w1] t1]; [|reflexivity].
  destruct (f a w1) as [[[b|e] w2] t2]; [|reflexivity].
  destruct (g b w2) as [[r w3] t3]. rewrite app_assoc. reflexivity.
Qed.

Lemma bind_run_cleanup_stale {B} env m x (f : list string -> M B) w :
  bind (run_cleanup_stale env m x) f w =
  let sw := cleanup_stale (now env) m x (sessions w) in
  after [EvSweep sw.1] (f sw.1 (mkWorld sw.2 (chains w))).
Proof.
  unfold bind, run_cleanup_stale, after.
  destruct (cleanup_stale (now env) m x (sessions w)) as [rm swept]. cbn.
  destruct (f rm _) as [[r w2] t2]. reflexivity.
Qed.

Lemma send_guvi_callback_events cfg env s w :
  send_guvi_callback cfg env s w =
  let x := send_events cfg env s in
  (Ret tt,
   if x.1
   then mkWorld (mark_callback_sent (SessionManager.sessionId s) (sessions w))
                (chains w)
   else w,
   x.2).
Proof.
  unfold send_guvi_callback, send_events, bind.
  rewrite callback_loop_events. cbv zeta.
  destruct (callback_events cfg env (SessionManager.sessionId s)
              (build_payload s) 0 CALLBACK_RETRIES) as [b t].
  destruct b; cbn; [rewrite app_nil_r|]; reflexivity.
Qed.

(** *** The stages of [handle_message] on a store that holds the session *)

Lemma run_activation {B} sid s swept cs (K : unit -> M B) :
  bind (read_session sid)
    (fun session =>
       bind (when (PrimFloat.leb 0.6 (confidence session)
                   && negb (agent_active session))
                  (update_sessions (activate_agent sid))) K)
    (mkWorld (<[sid := s]> swept) cs) =
  K tt (mkWorld
          (<[sid := if PrimFloat.leb 0.6 (confidence s) && negb (agent_active s)
                    then activated s else s]> swept) cs).
Proof.
  rewrite (bind_read_session sid s) by apply lookup_insert_eq.
  rewrite bind_when.
  destruct (PrimFloat.leb 0.6 (confidence s) && negb (agent_active s));
    [|reflexivity].
  rewrite bind_update_sessions. cbn [sessions chains].
  unfold activate_agent. rewrite alter_insert_eq. reflexivity.
Qed.

Lemma run_reply {B} env sid txt s swept cs (K : string -> M B) :
  bind (read_session sid)
    (fun session =>
       bind (if agent_active session
             then run_generate_reply env sid txt
             else ret FALLBACK_REPLY) K)
    (mkWorld (<[sid := s]> swept) cs) =
  if agent_active s then
    after [EvGenerate sid txt]
      match generate_reply (llm env) sid txt cs with
      | (Some r, cs') => K r (mkWorld (<[sid := s]> swept) cs')
      | (None, cs') => (Raise InternalError, mkWorld (<[sid := s]> swept) cs', [])
      end
  else K FALLBACK_REPLY (mkWorld (<[sid := s]> swept) cs).
Proof.
  rewrite (bind_read_session sid s) by apply lookup_insert_eq.
  destruct (agent_active s); [|apply bind_ret].
  unfold run_generate_reply. rewrite bind_assoc, bind_emit. f_equal.
  unfold bind at 1. cbn [sessions chains].
  destruct (generate_reply (llm env) sid txt cs) as [[r|] cs']; [|reflexivity].
  destruct (K r _) as [[r' w'] t']. reflexivity.
Qed.

Lemma run_history {B} body (K : string -> M B) w :
  bind (run_history_text body) K w =
  match history_text body with
  | Some h => K h w
  | None => (Raise InternalError, w, [])
  end.
Proof.
  unfold run_history_text. destruct (history_text body) as [h|].
  - apply bind_ret.
  - apply bind_raise.
Qed.

Lemma run_extract {B} sid txt s swept cs (K : unit -> M B) :
  bind (run_extract_intelligence txt)
    (fun intel => bind (merge_intelligence sid intel) K)
    (mkWorld (<[sid := s]> swept) cs) =
  after [EvExtract txt]
    (K tt (mkWorld (<[sid := merged (extract_intelligence txt) s]> swept) cs)).
Proof.
  unfold run_extract_intelligence. rewrite bind_assoc, bind_emit, bind_ret.
  unfold merge_intelligence. rewrite bind_update_sessions. cbn [sessions chains].
  rewrite merge_store_merged, alter_insert_eq. reflexivity.
Qed.

Lemma run_finalize cfg env sid s swept cs (resp : Response) :
  SessionManager.sessionId s = sid ->
  bind (read_session sid)
    (fun session =>
       bind (when (agent_active session && negb (callback_sent session)
                   && should_finalize session)
                  (send_guvi_callback cfg env session))
            (fun _ => ret resp))
    (mkWorld (<[sid := s]> swept) cs) =
  (Ret resp, mkWorld (<[sid := (finalized cfg env s).1]> swept) cs,
   (finalized cfg env s).2).
Proof.
  intros Hid.
  rewrite (bind_read_session sid s) by apply lookup_insert_eq.
  rewrite bind_when. unfold finalized, due.
  destruct (agent_active s && negb (callback_sent s) && should_finalize s);
    [|reflexivity].
  unfold bind. rewrite send_guvi_callback_events. cbv zeta.
  destruct (send_events cfg env s) as [sent evs]. cbn [fst snd sessions chains].
  unfold ret. rewrite app_nil_r, Hid. destruct sent; [|reflexivity].
  unfold mark_callback_sent. rewrite alter_insert_eq. reflexivity.
Qed.

Lemma sessionId_merged intel s :
  SessionManager.sessionId (merged intel s) = SessionManager.sessionId s.
Proof.
  unfold merged. generalize (items intel). intros l. revert s.
  induction l as [|kv l IH]; intros s; cbn [foldl]; [reflexivity|].
  rewrite IH. destruct (is_empty kv.2); reflexivity.
Qed.

Lemma sessionId_scored d s :
  SessionManager.sessionId (scored d s) = SessionManager.sessionId s.
Proof.
  unfold scored. destruct d.1; cbn;
    match goal with |- context [if ?b then _ else _] => destruct b end;
    reflexivity.
Qed.

Lemma handle_message_step cfg env body w :
  wf_store (sessions w) ->
  sender (message body) = "scammer" ->
  let sid := App.sessionId body in
  let sw := cleanup_stale (now env) 86400 sid (sessions w) in
  let cs := cleanup_chains_for_sessions sw.1 (chains w) in
  let st := step cfg env body cs (entry (sessions w) sid (now env)) in
  handle_message cfg env body (Some (API_KEY cfg)) w =
  (st.1.1.1, mkWorld (<[sid := st.1.1.2]> sw.2) st.1.2, EvSweep sw.1 :: st.2).
Proof.
  intros Hwf Hs sid sw cs st. unfold handle_message.
  rewrite bool_decide_eq_true_2 by reflexivity. rewrite Hs.
  change (String.eqb "scammer" "scammer") with true. cbn [negb].
  rewrite bind_run_cleanup_stale. cbv zeta. fold sid sw.
  rewrite bind_update_chains, !bind_update_sessions. cbn [sessions chains].
  fold cs. rewrite get_session_entry. unfold increment_message_count.
  rewrite alter_insert_eq.
  assert (Hentry : entry sw.2 sid (now env) = entry (sessions w) sid (now env)).
  { unfold entry, sw. rewrite swept_lookup_self. reflexivity. }
  rewrite Hentry. set (s0 := entry (sessions w) sid (now env)) in *.
  assert (Hid0 : SessionManager.sessionId s0 = sid).
  { unfold s0, entry. destruct (sessions w !! sid) as [s|] eqn:E; cbn.
    - apply (Hwf _ _ E).
    - reflexivity. }
  unfold run_detect_scam. rewrite bind_assoc, bind_emit.
  unfold st, step. fold sid.
  destruct (detect_scam (IS_RENDER cfg) (detector env) (text (message body)))
    as [[is_scam conf]|] eqn:Edet.
  2: { rewrite bind_raise. reflexivity. }
  rewrite bind_ret, bind_when.
  set (s1 := touched (now env) s0).
  assert (Hpre : forall B (K : unit -> M B),
    (if is_scam
     then bind (update_sessions (update_confidence sid (Binary64.of_Q conf * 0.4)%float)) K
            (mkWorld (<[sid := s1]> sw.2) cs)
     else K tt (mkWorld (<[sid := s1]> sw.2) cs)) =
    K tt (mkWorld (<[sid := if is_scam then raised (Binary64.of_Q conf * 0.4)%float s1 else s1]> sw.2) cs)).
  { intros B K. destruct is_scam; [|reflexivity].
    rewrite bind_update_sessions. cbn [sessions chains].
    unfold update_confidence. rewrite alter_insert_eq. reflexivity. }
  rewrite Hpre. clear Hpre. rewrite run_activation, run_reply.
  unfold scored. cbn [fst snd].
  set (s2 := if is_scam then raised (Binary64.of_Q conf * 0.4)%float s1 else s1).
  set (s3 := if PrimFloat.leb 0.6 (confidence s2) && negb (agent_active s2)
             then activated s2 else s2).
  assert (Hid3 : SessionManager.sessionId s3 = sid).
  { rewrite <- Hid0. unfold s3, s2, s1.
    destruct is_scam; cbn;
      match goal with |- context [if ?b then _ else _] => destruct b end;
      reflexivity. }
  unfold cumulative.
  destruct (agent_active s3) eqn:Eag.
  - destruct (generate_reply (llm env) sid (text (message body)) cs)
      as [[r|] cs'] eqn:Eg; [|reflexivity].
    rewrite run_history.
    destruct (history_text body) as [h|]; [|reflexivity].
    rewrite run_extract, run_finalize by (rewrite sessionId_merged; exact Hid3).
    destruct (finalized cfg env _) as [s5 evs]. reflexivity.
  - rewrite run_history.
    destruct (history_text body) as [h|]; [|reflexivity].
    rewrite run_extract, run_finalize by (rewrite sessionId_merged; exact Hid3).
    destruct (finalized cfg env _) as [s5 evs]. reflexivity.
Qed.

(** *** Fields of the session through the stages *)

Lemma merged_fields intel s :
  agent_active (merged intel s) = agent_active s /\
  callback_sent (merged intel s) = callback_sent s /\
  total_messages (merged intel s) = total_messages s /\
  confidence (merged intel s) = confidence s /\
  (core_intel s = true -> core_intel (merged intel s) = true).
Proof.
  unfold merged. generalize (items intel). intros l. revert s.
  induction l as [|kv l IH]; intros s; cbn [foldl]; [tauto|].
  destruct (is_empty kv.2); [apply IH|].
  destruct (IH (enriched kv.1 kv.2 s)) as (H1 & H2 & H3 & H4 & H5).
  rewrite H1, H2, H3, H4. repeat split; try reflexivity.
  intros Hc. apply H5. revert Hc. unfold core_intel, enriched.
  cbn [intelligence]. generalize (intelligence s). intros i.
  destruct kv.1; cbn [set_category get_category bankAccounts upiIds
    phoneNumbers phishingLinks suspiciousKeywords]; try exact id;
    unfold union_values; rewrite length_app;
    rewrite !orb_true_iff, !Nat.ltb_lt; lia.
Qed.

Lemma scored_fields d s :
  callback_sent (scored d s) = callback_sent s /\
  total_messages (scored d s) = total_messages s /\
  intelligence (scored d s) = intelligence s /\
  (agent_active s = true -> agent_active (scored d s) = true).
Proof.
  unfold scored. destruct d.1; cbn;
    match goal with |- context [if ?b then _ else _] => destruct b end;
    cbn; tauto.
Qed.

Lemma should_finalize_core s :
  should_finalize s = core_intel s && (8 <=? total_messages s)%nat.
Proof. reflexivity. Qed.

(** The four courses of one finalize attempt. *)
Lemma send_events_cases cfg env s :
  let id := SessionManager.sessionId s in
  let attempt i :=
    EvPost (GUVI_CALLBACK_URL cfg) (build_payload s) CALLBACK_TIMEOUT (post env i) in
  send_events cfg env s =
  if delivered (post env 0) then (true, [attempt 0%nat; EvLogInfo id])
  else if delivered (post env 1) then
    (true, [attempt 0%nat; EvSleep 1.0; attempt 1%nat; EvLogInfo id])
  else if delivered (post env 2) then
    (true, [attempt 0%nat; EvSleep 1.0; attempt 1%nat; EvSleep 2.0;
            attempt 2%nat; EvLogInfo id])
  else
    (false, [attempt 0%nat; EvSleep 1.0; attempt 1%nat; EvSleep 2.0;
             attempt 2%nat; EvLogWarning id CALLBACK_RETRIES]).
Proof.
  cbv zeta. unfold send_events, CALLBACK_RETRIES. cbn [callback_events].
  destruct (delivered (post env 0)); [reflexivity|].
  destruct (delivered (post env 1)); [reflexivity|].
  destruct (delivered (post env 2)); reflexivity.
Qed.

Lemma count_app P t1 t2 : count P (t1 ++ t2) = (count P t1 + count P t2)%nat.
Proof. unfold count. rewrite List.filter_app, length_app. reflexivity. Qed.

Lemma count_cons P e t :
  count P (e :: t) = ((if P e then 1 else 0) + count P t)%nat.
Proof. unfold count. cbn. destruct (P e); reflexivity. Qed.

Lemma count_quiet P t :
  Forall (fun e => P e = false) t -> count P t = 0%nat.
Proof.
  induction 1 as [|e t He _ IH]; [reflexivity|].
  rewrite count_cons, He, IH. reflexivity.
Qed.

Lemma is_post_for_post id e : is_post_for id e = true -> is_post e = true.
Proof. destruct e; cbn; congruence. Qed.

Lemma is_delivery_for_post id e :
  is_delivery_for id e = true -> is_post_for id e = true.
Proof. destruct e; cbn; try congruence. intros [H _]%andb_true_iff. exact H. Qed.

Lemma send_events_sent cfg env s :
  (send_events cfg env s).1 =
  delivered (post env 0) || delivered (post env 1) || delivered (post env 2).
Proof.
  rewrite send_events_cases. cbv zeta.
  destruct (delivered (post env 0)); [reflexivity|].
  destruct (delivered (post env 1)); [reflexivity|].
  destruct (delivered (post env 2)); reflexivity.
Qed.

(** What one finalize attempt emits. *)
Lemma send_events_facts cfg env s id :
  let x := send_events cfg env s in
  (1 <= count is_post x.2 <= 3)%nat /\
  count (is_post_for id) x.2 =
    (if bool_decide (SessionManager.sessionId s = id)
     then count is_post x.2 else 0%nat) /\
  count (is_delivery_for id) x.2 =
    (if bool_decide (SessionManager.sessionId s = id) && x.1
     then 1%nat else 0%nat) /\
  count (evicts id) x.2 = 0%nat.
Proof.
  cbv zeta. rewrite send_events_cases. cbv zeta.
  destruct (delivered (post env 0)) eqn:D0;
    [|destruct (delivered (post env 1)) eqn:D1;
      [|destruct (delivered (post env 2)) eqn:D2]];
    cbn [fst snd]; rewrite ?count_cons; cbn [is_post is_post_for
      is_delivery_for evicts build_payload payload_sessionId count
      List.filter length];
    rewrite ?D0, ?D1, ?D2;
    destruct (bool_decide (SessionManager.sessionId s = id));
    cbn; repeat split; lia.
Qed.

(** The shape of one request on its session: the session [s4] reached
    when the request fails or decides about the callback, the events
    [pre] before that point, and the events [evs] of the callback. *)
Lemma step_summary cfg env body cs s0 :
  let st := step cfg env body cs s0 in
  exists s4 pre evs,
    st.2 = pre ++ evs /\
    Forall quiet pre /\
    SessionManager.sessionId s4 = SessionManager.sessionId s0 /\
    total_messages s4 = S (total_messages s0) /\
    (agent_active s0 = true -> agent_active s4 = true) /\
    callback_sent s4 = callback_sent s0 /\
    (core_intel s0 = true -> core_intel s4 = true) /\
    ((evs = [] /\ st.1.1.2 = s4 /\
      forall resp, st.1.1.1 = Ret resp -> due s4 = false)
     \/
     (due s4 = true /\
      (exists r, st.1.1.1 = Ret {| status := "success"; reply := r |}) /\
      evs = (send_events cfg env s4).2 /\
      st.1.1.2 = if (send_events cfg env s4).1 then reported s4 else s4)).
Proof.
  cbv zeta. unfold step.
  set (s1 := touched (now env) s0).
  set (txt := text (message body)).
  destruct (detect_scam (IS_RENDER cfg) (detector env) txt) as [d|].
  2: { exists s1, [EvDetect txt], []. cbn [fst snd].
       repeat split; try reflexivity; try (intros; assumption).
       - repeat constructor.
       - left. repeat split. intros resp H. discriminate. }
  set (s3 := scored d s1).
  destruct (scored_fields d s1) as (Hc3 & Ht3 & Hi3 & Ha3).
  assert (Hid3 : SessionManager.sessionId s3 = SessionManager.sessionId s0)
    by exact (sessionId_scored d s1).
  assert (Hcore3 : core_intel s0 = true -> core_intel s3 = true).
  { unfold core_intel, s3. rewrite Hi3. exact id. }
  set (g := if agent_active s3
            then (generate_reply (llm env) (App.sessionId body) txt cs,
                  [EvGenerate (App.sessionId body) txt])
            else ((Some FALLBACK_REPLY, cs), [])).
  assert (Hg : Forall quiet g.2).
  { unfold g. destruct (agent_active s3); cbn; repeat constructor. }
  destruct g as [[[r|] cs'] gen]; cbn [fst snd] in *.
  2: { exists s3, (EvDetect txt :: gen), []. cbn [fst snd].
       rewrite app_nil_r.
       repeat split; try assumption; try reflexivity.
       - constructor; [repeat constructor | exact Hg].
       - left. repeat split. intros resp H. discriminate. }
  destruct (history_text body) as [h|].
  2: { exists s3, (EvDetect txt :: gen), []. cbn [fst snd].
       rewrite app_nil_r.
       repeat split; try assumption; try reflexivity.
       - constructor; [repeat constructor | exact Hg].
       - left. repeat split. intros resp H. discriminate. }
  set (s4 := merged (extract_intelligence (cumulative h txt r)) s3).
  destruct (merged_fields (extract_intelligence (cumulative h txt r)) s3)
    as (Ha4 & Hc4 & Ht4 & _ & Hcore4).
  exists s4, (EvDetect txt :: gen ++ [EvExtract (cumulative h txt r)]).
  unfold finalized. destruct (due s4) eqn:Hdue.
  - destruct (send_events cfg env s4) as [sent evs] eqn:Esend.
    exists evs. cbn [fst snd].
    split; [cbn [app]; rewrite <- app_assoc; reflexivity|].
    repeat split.
    + constructor; [repeat constructor|].
      apply Forall_app. split; [exact Hg | repeat constructor].
    + unfold s4. rewrite sessionId_merged. exact Hid3.
    + fold s4 in Ht4. rewrite Ht4. exact Ht3.
    + intros H. fold s4 in Ha4. rewrite Ha4. apply Ha3. exact H.
    + fold s4 in Hc4. rewrite Hc4. exact Hc3.
    + intros H. apply Hcore4, Hcore3, H.
    + right. repeat split. exists r. reflexivity.
  - exists []. cbn [fst snd].
    split; [cbn [app]; rewrite <- app_assoc; reflexivity|].
    repeat split.
    + constructor; [repeat constructor|].
      apply Forall_app. split; [exact Hg | repeat constructor].
    + unfold s4. rewrite sessionId_merged. exact Hid3.
    + fold s4 in Ht4. rewrite Ht4. exact Ht3.
    + intros H. fold s4 in Ha4. rewrite Ha4. apply Ha3. exact H.
    + fold s4 in Hc4. rewrite Hc4. exact Hc3.
    + intros H. apply Hcore4, Hcore3, H.
    + left. repeat split.
Qed.

Lemma handle_message_unauthorized cfg env body key w :
  key <> Some (API_KEY cfg) ->
  handle_message cfg env body key w =
  (Raise (HTTPException 401 "Invalid API key"), w, []).
Proof.
  intros H. unfold handle_message.
  rewrite bool_decide_eq_false_2 by exact H. reflexivity.
Qed.

Lemma handle_message_ignored cfg env body w :
  sender (message body) <> "scammer" ->
  handle_message cfg env body (Some (API_KEY cfg)) w =
  (Ret {| status := "ignored"; reply := "" |}, w, []).
Proof.
  intros H. unfold handle_message.
  rewrite bool_decide_eq_true_2 by reflexivity. cbn [negb].
  apply String.eqb_neq in H. rewrite H. reflexivity.
Qed.

Lemma entry_id store id now :
  wf_store store -> SessionManager.sessionId (entry store id now) = id.
Proof.
  intros Hwf. unfold entry. destruct (store !! id) as [s|] eqn:E; cbn.
  - apply (Hwf _ _ E).
  - reflexivity.
Qed.

Lemma entry_sent w id now :
  callback_sent (entry (sessions w) id now) = sent_in w id.
Proof.
  unfold entry, sent_in. destruct (sessions w !! id); reflexivity.
Qed.

(** An authorized scammer request, on its own session. *)
Lemma processed_request cfg env body w :
  wf_store (sessions w) ->
  sender (message body) = "scammer" ->
  let x := handle_message cfg env body (Some (API_KEY cfg)) w in
  let sid := App.sessionId body in
  let s0 := entry (sessions w) sid (now env) in
  let sw := cleanup_stale (now env) 86400 sid (sessions w) in
  exists s4 s' pre evs,
    events_of x = EvSweep sw.1 :: pre ++ evs /\
    Forall quiet pre /\
    sessions (world_of x) = <[sid := s']> sw.2 /\
    SessionManager.sessionId s4 = sid /\
    total_messages s4 = S (total_messages s0) /\
    (agent_active s0 = true -> agent_active s4 = true) /\
    callback_sent s4 = callback_sent s0 /\
    (core_intel s0 = true -> core_intel s4 = true) /\
    ((evs = [] /\ s' = s4 /\
      forall resp, result_of x = Ret resp -> due s4 = false)
     \/
     (due s4 = true /\
      (exists r, result_of x = Ret {| status := "success"; reply := r |}) /\
      evs = (send_events cfg env s4).2 /\
      s' = if (send_events cfg env s4).1 then reported s4 else s4)).
Proof.
  intros Hwf Hs x sid s0 sw. unfold x.
  rewrite (handle_message_step cfg env body w Hwf Hs). cbv zeta.
  fold sid sw s0.
  set (cs := cleanup_chains_for_sessions sw.1 (chains w)).
  destruct (step_summary cfg env body cs s0)
    as (s4 & pre & evs & Ht & Hq & Hid & Htot & Hact & Hsent & Hcore & Hend).
  exists s4, (step cfg env body cs s0).1.1.2, pre, evs.
  unfold events_of, world_of, result_of. cbn [fst snd sessions].
  rewrite Ht. repeat split; try assumption.
  rewrite Hid. apply entry_id. exact Hwf.
Qed.

Lemma quiet_counts pre id :
  Forall quiet pre ->
  count is_post pre = 0%nat /\ count (is_post_for id) pre = 0%nat /\
  count (is_delivery_for id) pre = 0%nat /\ count (evicts id) pre = 0%nat.
Proof.
  intros H. repeat split; apply count_quiet; eapply Forall_impl; try exact H;
    intros e [Hp He]; cbn.
  - exact Hp.
  - destruct (is_post_for id e) eqn:E; [|reflexivity].
    apply is_post_for_post in E. congruence.
  - destruct (is_delivery_for id e) eqn:E; [|reflexivity].
    apply is_delivery_for_post, is_post_for_post in E. congruence.
  - apply He.
Qed.

Lemma wf_store_insert store id s :
  wf_store store -> SessionManager.sessionId s = id ->
  wf_store (<[id := s]> store).
Proof.
  intros Hwf Hid k s' H. destruct (decide (id = k)) as [->|Hne].
  - rewrite lookup_insert_eq in H. congruence.
  - rewrite lookup_insert_ne in H by exact Hne. apply (Hwf _ _ H).
Qed.

Lemma wf_store_swept now m x store :
  wf_store store -> wf_store (cleanup_stale now m x store).2.
Proof. intros Hwf k s H. apply (Hwf k s), (swept_lookup_Some _ _ _ _ _ _ H). Qed.

(** What any request does to the report status of any session [k]. *)
Lemma request_reports cfg env body key w k :
  wf_store (sessions w) ->
  let x := handle_message cfg env body key w in
  wf_store (sessions (world_of x)) /\
  (count (evicts k) (events_of x) = 0%nat ->
   (count (is_delivery_for k) (events_of x)
      <= if sent_in w k then 0 else 1)%nat /\
   (sent_in w k = true -> count (is_post_for k) (events_of x) = 0%nat) /\
   (sent_in w k = true \/ (1 <= count (is_delivery_for k) (events_of x))%nat ->
    sent_in (world_of x) k = true)).
Proof.
  intros Hwf x. unfold x.
  destruct (decide (key = Some (API_KEY cfg))) as [->|Hkey].
  2: { rewrite handle_message_unauthorized by exact Hkey.
       unfold world_of, events_of. cbn.
       split; [exact Hwf|]. intros _. repeat split.
       - destruct (sent_in w k); lia.
       - intros [H|H]; [exact H | lia]. }
  destruct (decide (sender (message body) = "scammer")) as [Hs|Hs].
  2: { rewrite handle_message_ignored by exact Hs.
       unfold world_of, events_of. cbn.
       split; [exact Hwf|]. intros _. repeat split.
       - destruct (sent_in w k); lia.
       - intros [H|H]; [exact H | lia]. }
  destruct (processed_request cfg env body w Hwf Hs)
    as (s4 & s' & pre & evs & Hev & Hq & Hw & Hid & _ & _ & Hsent & _ & Hend).
  set (sid := App.sessionId body) in *.
  set (sw := cleanup_stale (now env) 86400 sid (sessions w)) in *.
  rewrite entry_sent in Hsent.
  assert (Hid' : SessionManager.sessionId s' = sid).
  { destruct Hend as [(_ & -> & _) | (_ & _ & _ & ->)]; [exact Hid|].
    destruct (send_events cfg env s4).1; exact Hid. }
  split.
  { rewrite Hw. apply wf_store_insert; [|exact Hid'].
    apply wf_store_swept. exact Hwf. }
  rewrite Hev. destruct (quiet_counts pre k Hq) as (_ & Hp1 & Hp2 & Hp3).
  rewrite !count_cons, !count_app, Hp1, Hp2, Hp3. cbn [evicts is_post_for
    is_delivery_for]. intros Hkeep.
  assert (Hin : k ∉ sw.1).
  { destruct (bool_decide (k ∈ sw.1)) eqn:E; [lia|].
    apply bool_decide_eq_false in E. exact E. }
  assert (Hlook : sent_in (world_of (handle_message cfg env body (Some (API_KEY cfg)) w)) k
                  = if bool_decide (sid = k) then callback_sent s' else sent_in w k).
  { unfold sent_in. rewrite Hw. destruct (decide (sid = k)) as [E|E].
    - rewrite (bool_decide_eq_true_2 _ E), <- E, lookup_insert_eq. reflexivity.
    - rewrite (bool_decide_eq_false_2 _ E), lookup_insert_ne by exact E.
      unfold sw. rewrite swept_lookup_kept by exact Hin. reflexivity. }
  rewrite Hlook. clear Hlook.
  destruct Hend as [(-> & -> & _) | (Hdue & _ & -> & ->)].
  - cbn. repeat split.
    + destruct (sent_in w k); lia.
    + intros [H|H]; [|lia].
      destruct (decide (sid = k)) as [E|E].
      * rewrite (bool_decide_eq_true_2 _ E), Hsent, E. exact H.
      * rewrite (bool_decide_eq_false_2 _ E). exact H.
  - destruct (send_events_facts cfg env s4 k) as (Hn & Hpf & Hdf & _).
    cbv zeta in Hn, Hpf, Hdf. rewrite Hpf, Hdf, Hid.
    unfold due in Hdue. apply andb_true_iff in Hdue as [Hdue _].
    apply andb_true_iff in Hdue as [_ Hns]. apply negb_true_iff in Hns.
    rewrite Hns in Hsent.
    destruct (decide (sid = k)) as [E|E].
    + rewrite (bool_decide_eq_true_2 _ E). rewrite <- E, <- Hsent.
      cbn [andb plus]. repeat split.
      * destruct (send_events cfg env s4).1; lia.
      * discriminate.
      * intros [H|H]; [discriminate|].
        destruct (send_events cfg env s4).1; [reflexivity | lia].
    + rewrite (bool_decide_eq_false_2 _ E). cbn [andb plus]. repeat split.
      * destruct (sent_in w k); lia.
      * intros [H|H]; [exact H | lia].
Qed.

Lemma swept_lookup_removed now m x (st : gmap string Session) k :
  k ∈ (cleanup_stale now m x st).1 -> (cleanup_stale now m x st).2 !! k = None.
Proof.
  unfold cleanup_stale. cbn [fst snd]. intros H.
  apply list_elem_of_fmap in H as ([k' s] & -> & H).
  apply elem_of_map_to_list, map_lookup_filter_Some in H as [Hl He].
  apply map_lookup_filter_None. right. intros s' Hs' Hn. cbn in *.
  rewrite Hl in Hs'. injection Hs' as <-. exact (Hn He).
Qed.

(** Posts of a request are for the session the request names, and the
    sessions reported after it were reported before or delivered in it. *)
Lemma request_posts_own cfg env body key w k :
  wf_store (sessions w) ->
  let x := handle_message cfg env body key w in
  count is_post (events_of x)
    = count (is_post_for (App.sessionId body)) (events_of x) /\
  count (evicts (App.sessionId body)) (events_of x) = 0%nat /\
  (sent_in (world_of x) k = true ->
   sent_in w k = true \/ (1 <= count (is_delivery_for k) (events_of x))%nat).
Proof.
  intros Hwf x. unfold x.
  destruct (decide (key = Some (API_KEY cfg))) as [->|Hkey].
  2: { rewrite handle_message_unauthorized by exact Hkey.
       unfold world_of, events_of. cbn. auto. }
  destruct (decide (sender (message body) = "scammer")) as [Hs|Hs].
  2: { rewrite handle_message_ignored by exact Hs.
       unfold world_of, events_of. cbn. auto. }
  destruct (processed_request cfg env body w Hwf Hs)
    as (s4 & s' & pre & evs & Hev & Hq & Hw & Hid & _ & _ & Hsent & _ & Hend).
  set (sid := App.sessionId body) in *.
  set (sw := cleanup_stale (now env) 86400 sid (sessions w)) in *.
  rewrite entry_sent in Hsent. rewrite Hev.
  destruct (quiet_counts pre sid Hq) as (Hp0 & Hp1 & _ & Hp3).
  destruct (quiet_counts pre k Hq) as (_ & _ & Hp2 & _).
  rewrite !count_cons, !count_app, Hp0, Hp1, Hp2, Hp3.
  cbn [evicts is_post is_post_for is_delivery_for].
  rewrite (bool_decide_eq_false_2 (sid ∈ sw.1))
    by apply swept_self_not_removed.
  destruct (send_events_facts cfg env s4 sid) as (_ & Hpf & _ & Hef).
  destruct (send_events_facts cfg env s4 k) as (_ & _ & Hdf & _).
  cbv zeta in Hpf, Hdf, Hef.
  rewrite (bool_decide_eq_true_2 _ Hid) in Hpf. rewrite Hid in Hdf.
  assert (Hstay : sent_in (world_of (handle_message cfg env body (Some (API_KEY cfg)) w)) k = true ->
                  sid <> k -> sent_in w k = true).
  { unfold sent_in. rewrite Hw. intros H E.
    rewrite lookup_insert_ne in H by exact E.
    destruct (sw.2 !! k) as [s|] eqn:El; [|discriminate].
    apply swept_lookup_Some in El. rewrite El. exact H. }
  assert (Hown : sent_in (world_of (handle_message cfg env body (Some (API_KEY cfg)) w)) sid
                 = callback_sent s').
  { unfold sent_in. rewrite Hw, lookup_insert_eq. reflexivity. }
  destruct Hend as [(-> & -> & _) | (Hdue & _ & -> & ->)].
  - cbn. repeat split. intros H.
    destruct (decide (sid = k)) as [E|E]; [|left; apply Hstay; assumption].
    left. rewrite <- E, <- Hsent, <- Hown. rewrite E. exact H.
  - rewrite Hpf, Hef, Hdf. repeat split. intros H.
    destruct (decide (sid = k)) as [E|E]; [|left; apply Hstay; assumption].
    right. rewrite (bool_decide_eq_true_2 _ E). rewrite <- E, Hown in H.
    unfold due in Hdue. apply andb_true_iff in Hdue as [Hdue _].
    apply andb_true_iff in Hdue as [_ Hns]. apply negb_true_iff in Hns.
    destruct (send_events cfg env s4).1; cbn in *; [lia | congruence].
Qed.

Lemma serve_cons cfg c calls w :
  serve cfg (c :: calls) w =
  let x := handle_message cfg (call_env c) (call_body c) (call_key c) w in
  let y := serve cfg calls (world_of x) in
  (y.1, events_of x ++ y.2).
Proof.
  cbn [serve]. unfold world_of, events_of.
  destruct (handle_message _ _ _ _ w) as [[r w1] t1]. cbn.
  destruct (serve cfg calls w1) as [w2 t2]. reflexivity.
Qed.

Lemma count_le P Q t :
  (forall e, P e = true -> Q e = true) -> (count P t <= count Q t)%nat.
Proof.
  intros H. induction t as [|e t IH]; [reflexivity|].
  rewrite !count_cons. specialize (H e).
  destruct (P e), (Q e); lia.
Qed.

(** Over any sequence of requests during which the session [k] is not
    evicted: at most one delivery, and none at all, nor any attempt, once
    the session is reported. *)
Lemma serve_reports cfg calls : forall w k,
  wf_store (sessions w) ->
  let y := serve cfg calls w in
  wf_store (sessions y.1) /\
  (count (evicts k) y.2 = 0%nat ->
   (count (is_delivery_for k) y.2 <= if sent_in w k then 0 else 1)%nat /\
   (sent_in w k = true ->
    count (is_post_for k) y.2 = 0%nat /\ sent_in y.1 k = true) /\
   ((1 <= count (is_delivery_for k) y.2)%nat -> sent_in y.1 k = true)).
Proof.
  induction calls as [|c calls IH]; intros w k Hwf.
  - cbn. split; [exact Hwf|]. intros _. split; [|split].
    + destruct (sent_in w k); lia.
    + intros H. split; [reflexivity | exact H].
    + unfold count. cbn. lia.
  - rewrite serve_cons. cbv zeta.
    destruct (request_reports cfg (call_env c) (call_body c) (call_key c) w k Hwf)
      as [Hwf1 H1].
    set (x := handle_message cfg (call_env c) (call_body c) (call_key c) w) in *.
    destruct (IH (world_of x) k Hwf1) as [Hwf2 H2].
    cbn [fst snd]. split; [exact Hwf2|].
    rewrite !count_app. intros Hkeep.
    destruct H1 as (Hd1 & Hp1 & Hs1); [lia|].
    destruct H2 as (Hd2 & Hp2 & Hs2); [lia|].
    split; [|split].
    + destruct (sent_in w k) eqn:Ew.
      * rewrite Hs1 in Hd2 by (left; reflexivity). lia.
      * destruct (count (is_delivery_for k) (events_of x)) as [|n] eqn:En.
        -- destruct (sent_in (world_of x) k); lia.
        -- rewrite Hs1 in Hd2 by (right; lia). lia.
    + intros Hw. specialize (Hp1 Hw).
      destruct Hp2 as [Hp2 Hs2']; [apply Hs1; left; exact Hw|].
      split; [lia | exact Hs2'].
    + intros Hn.
      destruct (count (is_delivery_for k) (events_of x)) as [|n] eqn:En.
      * apply Hs2. lia.
      * apply Hp2, Hs1. right. lia.
Qed.

(** *** Confidence and activation *)

Lemma finalized_fields cfg env s :
  confidence (finalized cfg env s).1 = confidence s /\
  agent_active (finalized cfg env s).1 = agent_active s.
Proof.
  unfold finalized. destruct (due s); [|split; reflexivity].
  destruct (send_events cfg env s) as [[] evs]; split; reflexivity.
Qed.

Lemma processed_scoring cfg env body w d :
  wf_store (sessions w) ->
  sender (message body) = "scammer" ->
  detect_scam (IS_RENDER cfg) (detector env) (text (message body)) = Some d ->
  let x := handle_message cfg env body (Some (API_KEY cfg)) w in
  let sid := App.sessionId body in
  let s3 := scored d (touched (now env) (entry (sessions w) sid (now env))) in
  exists s', sessions (world_of x) !! sid = Some s' /\
             confidence s' = confidence s3 /\
             agent_active s' = agent_active s3.
Proof.
  intros Hwf Hs Hd x sid s3. unfold x.
  rewrite (handle_message_step cfg env body w Hwf Hs). cbv zeta.
  unfold world_of. cbn [fst snd sessions]. fold sid.
  eexists. split; [apply lookup_insert_eq|].
  unfold step. rewrite Hd. fold sid. fold s3.
  set (txt := text (message body)).
  destruct (agent_active s3) eqn:Ea.
  - destruct (generate_reply _ _ _ _) as [[r|] cs']; cbn [fst snd];
      [destruct (history_text body) as [h|]|]; cbn [fst snd].
    + destruct (finalized_fields cfg env
                  (merged (extract_intelligence (cumulative h txt r)) s3))
        as [Hc Ha].
      destruct (merged_fields (extract_intelligence (cumulative h txt r)) s3)
        as (Ha' & _ & _ & Hc' & _).
      destruct (finalized cfg env _) as [s5 evs]. cbn [fst snd] in *.
      rewrite Hc, Ha, Hc', Ha'. split; congruence.
    + split; congruence.
    + split; congruence.
  - cbn [fst snd]. destruct (history_text body) as [h|]; cbn [fst snd];
      [|split; congruence].
    destruct (finalized_fields cfg env
                (merged (extract_intelligence (cumulative h txt FALLBACK_REPLY)) s3))
      as [Hc Ha].
    destruct (merged_fields (extract_intelligence (cumulative h txt FALLBACK_REPLY)) s3)
      as (Ha' & _ & _ & Hc' & _).
    destruct (finalized cfg env _) as [s5 evs]. cbn [fst snd] in *.
    rewrite Hc, Ha, Hc', Ha'. split; congruence.
Qed.

Lemma request_keeps_active cfg env body key w s :
  wf_store (sessions w) ->
  sessions w !! App.sessionId body = Some s -> agent_active s = true ->
  let x := handle_message cfg env body key w in
  exists s', sessions (world_of x) !! App.sessionId body = Some s' /\
             agent_active s' = true.
Proof.
  intros Hwf Hl Ha x. unfold x.
  destruct (decide (key = Some (API_KEY cfg))) as [->|Hkey].
  2: { rewrite handle_message_unauthorized by exact Hkey. exists s. auto. }
  destruct (decide (sender (message body) = "scammer")) as [Hs|Hs].
  2: { rewrite handle_message_ignored by exact Hs. exists s. auto. }
  destruct (processed_request cfg env body w Hwf Hs)
    as (s4 & s' & pre & evs & _ & _ & Hw & _ & _ & Hact & _ & _ & Hend).
  exists s'. rewrite Hw, lookup_insert_eq. split; [reflexivity|].
  unfold entry in Hact. rewrite Hl in Hact. specialize (Hact Ha).
  destruct Hend as [(_ & -> & _) | (_ & _ & _ & ->)]; [exact Hact|].
  destruct (send_events cfg env s4).1; exact Hact.
Qed.

Lemma serve_keeps_active cfg calls : forall w sid s,
  wf_store (sessions w) ->
  Forall (fun c => App.sessionId (call_body c) = sid) calls ->
  sessions w !! sid = Some s -> agent_active s = true ->
  exists s', sessions (serve cfg calls w).1 !! sid = Some s' /\
             agent_active s' = true.
Proof.
  induction calls as [|c calls IH]; intros w sid s Hwf Hall Hl Ha.
  - exists s. auto.
  - rewrite serve_cons. cbv zeta. cbn [fst].
    apply Forall_cons in Hall as [Hc Hall]. subst sid.
    destruct (request_keeps_active cfg (call_env c) (call_body c) (call_key c)
                w s Hwf Hl Ha) as (s1 & Hl1 & Ha1).
    destruct (request_reports cfg (call_env c) (call_body c) (call_key c) w
                (App.sessionId (call_body c)) Hwf) as [Hwf1 _].
    apply (IH _ _ s1 Hwf1 Hall Hl1 Ha1).
Qed.

Lemma wf_store_empty : wf_store ∅.
Proof. intros id s H. rewrite lookup_empty in H. discriminate. Qed.

Lemma wf_store_singleton id s :
  SessionManager.sessionId s = id -> wf_store {[ id := s ]}.
Proof.
  intros Hid k s' H. apply lookup_singleton_Some in H as [<- <-]. exact Hid.
Qed.

(** C3. A request whose key is missing or differs from the configured
    secret fails with HTTP 401 and does nothing else: the registries are
    unchanged and no event (sweep, detection, generation, extraction,
    callback) is emitted. *)
Theorem unauthorized_request_rejected cfg env body key w :
  key <> Some (API_KEY cfg) ->
  handle_message cfg env body key w =
  (Raise (HTTPException 401 "Invalid API key"), w, []).
Proof. apply handle_message_unauthorized. Qed.

Lemma unauthorized_request_rejected_witness :
  handle_message Sample.cfg (Sample.env (fun _ => Ok2xx))
    (Sample.request "s1" "scammer" "send the otp") None Sample.ripe_world =
  (Raise (HTTPException 401 "Invalid API key"), Sample.ripe_world, []) /\
  handle_message Sample.cfg (Sample.env (fun _ => Ok2xx))
    (Sample.request "s1" "scammer" "send the otp") (Some "guess")
    Sample.ripe_world =
  (Raise (HTTPException 401 "Invalid API key"), Sample.ripe_world, []).
Proof.
  split; apply unauthorized_request_rejected; discriminate.
Defined.

(** C4. An authorized request whose sender is not exactly "scammer" is
    answered with status "ignored" and an empty reply, and does nothing
    else: the registries are unchanged and no event is emitted. *)
Theorem non_scammer_ignored cfg env body key w :
  key = Some (API_KEY cfg) ->
  sender (message body) <> "scammer" ->
  handle_message cfg env body key w =
  (Ret {| status := "ignored"; reply := "" |}, w, []).
Proof. intros ->. apply handle_message_ignored. Qed.

Lemma non_scammer_ignored_witness :
  handle_message Sample.cfg (Sample.env (fun _ => Ok2xx))
    (Sample.request "s1" "customer" "send the otp") (Some "secret")
    Sample.ripe_world =
  (Ret {| status := "ignored"; reply := "" |}, Sample.ripe_world, []).
Proof.
  apply non_scammer_ignored; [reflexivity | discriminate].
Defined.

Lemma scored_scam_confidence conf s :
  confidence (scored (true, conf) s)
  = (confidence s + Binary64.of_Q conf * 0.4)%float.
Proof.
  unfold scored. cbn [fst snd].
  destruct (PrimFloat.leb 0.6 (confidence (raised (Binary64.of_Q conf * 0.4)%float s))
            && negb (agent_active (raised (Binary64.of_Q conf * 0.4)%float s))); reflexivity.
Qed.

Lemma scored_clean_confidence conf s :
  confidence (scored (false, conf) s) = confidence s.
Proof.
  unfold scored. cbn [fst snd].
  destruct (PrimFloat.leb 0.6 (confidence s) && negb (agent_active s)); reflexivity.
Qed.

Lemma scored_active d s :
  agent_active (scored d s) =
  agent_active s || PrimFloat.leb 0.6 (confidence (scored d s)).
Proof.
  unfold scored. destruct d as [[] conf]; cbn [fst snd].
  - cbn [agent_active raised confidence].
    destruct (PrimFloat.leb 0.6 (confidence s + Binary64.of_Q conf * 0.4)) eqn:E;
      destruct (agent_active s) eqn:Ea;
      cbn [andb negb orb agent_active activated raised confidence];
      rewrite ?Ea, ?E; reflexivity.
  - destruct (PrimFloat.leb 0.6 (confidence s)) eqn:E;
      destruct (agent_active s) eqn:Ea;
      cbn [andb negb orb agent_active activated confidence];
      rewrite ?Ea, ?E; reflexivity.
Qed.

(** A session that is active stays active through one request that does
    not evict it, whatever session the request names. *)
Lemma request_keeps_unevicted cfg env body key w k s :
  wf_store (sessions w) ->
  sessions w !! k = Some s -> agent_active s = true ->
  let x := handle_message cfg env body key w in
  count (evicts k) (events_of x) = 0%nat ->
  exists s', sessions (world_of x) !! k = Some s' /\ agent_active s' = true.
Proof.
  intros Hwf Hl Ha x Hev.
  destruct (decide (k = App.sessionId body)) as [->|Hne].
  { apply (request_keeps_active cfg env body key w s Hwf Hl Ha). }
  unfold x in *. clear x.
  destruct (decide (key = Some (API_KEY cfg))) as [->|Hkey].
  2: { rewrite handle_message_unauthorized by exact Hkey. eauto. }
  destruct (decide (sender (message body) = "scammer")) as [Hs|Hs].
  2: { rewrite handle_message_ignored by exact Hs. eauto. }
  destruct (processed_request cfg env body w Hwf Hs)
    as (s4 & s' & pre & evs & Hevs & _ & Hw & _).
  rewrite Hevs, count_cons in Hev. cbn [evicts] in Hev.
  exists s. split; [|exact Ha].
  rewrite Hw, lookup_insert_ne by congruence.
  rewrite swept_lookup_kept; [exact Hl|].
  intros Hin. rewrite bool_decide_eq_true_2 in Hev by exact Hin.
  discriminate Hev.
Qed.

Lemma serve_keeps_unevicted cfg calls : forall w k s,
  wf_store (sessions w) ->
  sessions w !! k = Some s -> agent_active s = true ->
  count (evicts k) (serve cfg calls w).2 = 0%nat ->
  exists s', sessions (serve cfg calls w).1 !! k = Some s' /\
             agent_active s' = true.
Proof.
  induction calls as [|c calls IH]; intros w k s Hwf Hl Ha Hev.
  - exists s. auto.
  - rewrite serve_cons in Hev |- *. cbv zeta in Hev |- *. cbn [fst snd] in *.
    rewrite count_app in Hev.
    destruct (request_keeps_unevicted cfg (call_env c) (call_body c)
                (call_key c) w k s Hwf Hl Ha) as (s1 & Hl1 & Ha1); [lia|].
    destruct (request_reports cfg (call_env c) (call_body c) (call_key c) w
                k Hwf) as [Hwf1 _].
    apply (IH _ _ s1 Hwf1 Hl1 Ha1). lia.
Qed.

(** C2 (as amended). From a fresh session (confidence 0.0, not active),
    each authorized request flagged scam-like with score 0.9 adds the
    binary64 product 0.9 x 0.4 to the confidence: the confidence is
    0.36000000000000004 after the first request, with the agent not
    active, and 0.7200000000000001 after the second, which is at least
    0.6, with the agent active on that request. The agent stays active
    through every later sequence of requests, for this or for other
    sessions, in which no sweep evicts the session, and a non-scam
    detection leaves the confidence as it is. *)
Theorem confidence_accumulates_and_activates cfg e1 e2 b1 b2 w :
  let sid := App.sessionId b1 in
  let key := Some (API_KEY cfg) in
  let x1 := handle_message cfg e1 b1 key w in
  let x2 := handle_message cfg e2 b2 key (world_of x1) in
  wf_store (sessions w) ->
  confidence (entry (sessions w) sid (now e1)) = 0.0%float ->
  agent_active (entry (sessions w) sid (now e1)) = false ->
  App.sessionId b2 = sid ->
  sender (message b1) = "scammer" -> sender (message b2) = "scammer" ->
  detect_scam (IS_RENDER cfg) (detector e1) (text (message b1))
    = Some (true, 0.9%Q) ->
  detect_scam (IS_RENDER cfg) (detector e2) (text (message b2))
    = Some (true, 0.9%Q) ->
  (exists s1 s2,
     sessions (world_of x1) !! sid = Some s1 /\
     sessions (world_of x2) !! sid = Some s2 /\
     confidence s1 = (0.0 + 0.9 * 0.4)%float /\
     confidence s1 = 0x1.70a3d70a3d70bp-2%float /\
     agent_active s1 = false /\
     confidence s2 = (confidence s1 + 0.9 * 0.4)%float /\
     confidence s2 = 0x1.70a3d70a3d70bp-1%float /\
     PrimFloat.leb 0.6 (confidence s2) = true /\
     agent_active s2 = true) /\
  (forall calls,
     count (evicts sid) (serve cfg calls (world_of x2)).2 = 0%nat ->
     exists s, sessions (serve cfg calls (world_of x2)).1 !! sid = Some s /\
               agent_active s = true) /\
  (forall env body w0 is_scam conf,
     wf_store (sessions w0) -> sender (message body) = "scammer" ->
     detect_scam (IS_RENDER cfg) (detector env) (text (message body))
       = Some (is_scam, conf) ->
     exists s,
       sessions (world_of (handle_message cfg env body key w0))
         !! App.sessionId body = Some s /\
       confidence s =
         (if is_scam
          then confidence (entry (sessions w0) (App.sessionId body) (now env))
               + Binary64.of_Q conf * 0.4
          else confidence (entry (sessions w0) (App.sessionId body) (now env)))%float).
Proof.
  intros sid key x1 x2 Hwf Hc0 Ha0 Hb2 Hs1 Hs2 Hd1 Hd2.
  destruct (processed_scoring cfg e1 b1 w _ Hwf Hs1 Hd1) as (s1 & Hl1 & Hc1 & Ha1).
  fold sid key x1 in Hl1.
  destruct (request_reports cfg e1 b1 key w sid Hwf) as [Hwf1 _]. fold x1 in Hwf1.
  destruct (processed_scoring cfg e2 b2 (world_of x1) _ Hwf1 Hs2 Hd2)
    as (s2 & Hl2 & Hc2 & Ha2).
  fold key x2 in Hl2. rewrite Hb2 in Hl2, Hc2, Ha2.
  unfold entry in Hc2, Ha2. rewrite Hl1 in Hc2, Ha2. cbn [default] in Hc2, Ha2.
  rewrite scored_active, <- Hc1 in Ha1. rewrite scored_active, <- Hc2 in Ha2.
  rewrite scored_scam_confidence in Hc1, Hc2.
  cbn [confidence touched agent_active] in Hc1, Hc2, Ha1, Ha2.
  fold sid in Hc1, Ha1. rewrite Hc0 in Hc1.
  assert (F1 : confidence s1 = 0x1.70a3d70a3d70bp-2%float).
  { etransitivity; [exact Hc1|]. vm_compute. reflexivity. }
  assert (F2 : confidence s2 = 0x1.70a3d70a3d70bp-1%float).
  { etransitivity; [exact Hc2|]. unfold id.
    etransitivity; [exact (f_equal (fun c => (c + _)%float) F1)|].
    vm_compute. reflexivity. }
  assert (L1 : PrimFloat.leb 0.6 (confidence s1) = false).
  { etransitivity; [exact (f_equal (PrimFloat.leb 0.6) F1)|].
    vm_compute. reflexivity. }
  assert (L2 : PrimFloat.leb 0.6 (confidence s2) = true).
  { etransitivity; [exact (f_equal (PrimFloat.leb 0.6) F2)|].
    vm_compute. reflexivity. }
  assert (A1 : agent_active s1 = false).
  { etransitivity; [exact Ha1|]. rewrite Ha0.
    etransitivity; [exact (f_equal (orb false) L1)|]. reflexivity. }
  assert (A2 : agent_active s2 = true).
  { etransitivity; [exact Ha2|].
    etransitivity; [exact (f_equal (orb _) L2)|]. apply orb_true_r. }
  split; [|split].
  - exists s1, s2. split; [exact Hl1|]. split; [exact Hl2|].
    split; [etransitivity; [exact F1|]; vm_compute; reflexivity|].
    split; [exact F1|]. split; [exact A1|].
    split; [etransitivity; [exact F2|]; symmetry;
            etransitivity; [exact (f_equal (fun c => (c + _)%float) F1)|];
            vm_compute; reflexivity|].
    split; [exact F2|]. split; [exact L2 | exact A2].
  - intros calls Hev.
    destruct (request_reports cfg e2 b2 key (world_of x1) sid Hwf1) as [Hwf2 _].
    fold x2 in Hwf2.
    apply (serve_keeps_unevicted cfg calls (world_of x2) sid s2 Hwf2 Hl2 A2 Hev).
  - intros env body w0 is_scam conf Hwf0 Hs0 Hd0.
    destruct (processed_scoring cfg env body w0 _ Hwf0 Hs0 Hd0)
      as (s & Hl & Hc & _).
    exists s. split; [exact Hl|]. rewrite Hc.
    destruct is_scam;
      [rewrite scored_scam_confidence | rewrite scored_clean_confidence];
      reflexivity.
Qed.

(** *** Requests on a session that is due for the callback *)

Lemma should_finalize_spec s :
  should_finalize s = true <->
  (upiIds (intelligence s) <> [] \/ phishingLinks (intelligence s) <> [] \/
   phoneNumbers (intelligence s) <> [] \/ bankAccounts (intelligence s) <> []) /\
  (8 <= total_messages s)%nat.
Proof.
  unfold should_finalize.
  rewrite andb_true_iff, !orb_true_iff, !Nat.ltb_lt, Nat.leb_le.
  assert (H : forall l : list string, (0 < length l)%nat <-> l <> []).
  { intros [|a l]; cbn; split; intros H; try lia; try congruence. }
  rewrite !H. tauto.
Qed.

(** A completed request on a session that is active, not reported, holds
    a core artifact and has seen at least seven messages invokes the
    callback. *)
Lemma ripe_request cfg env body w :
  wf_store (sessions w) ->
  sender (message body) = "scammer" ->
  let x := handle_message cfg env body (Some (API_KEY cfg)) w in
  let sid := App.sessionId body in
  let s0 := entry (sessions w) sid (now env) in
  agent_active s0 = true -> callback_sent s0 = false ->
  core_intel s0 = true -> (7 <= total_messages s0)%nat ->
  (exists resp, result_of x = Ret resp) ->
  exists s4 pre,
    Forall quiet pre /\
    events_of x =
      EvSweep (cleanup_stale (now env) 86400 sid (sessions w)).1
      :: pre ++ (send_events cfg env s4).2 /\
    SessionManager.sessionId s4 = sid /\ due s4 = true /\
    total_messages s4 = S (total_messages s0) /\
    sessions (world_of x) !! sid =
      Some (if (send_events cfg env s4).1 then reported s4 else s4).
Proof.
  intros Hwf Hs x sid s0 Ha Hc Hi Ht [resp Hr].
  destruct (processed_request cfg env body w Hwf Hs)
    as (s4 & s' & pre & evs & Hev & Hq & Hw & Hid & Htot & Hact & Hsent & Hcore & Hend).
  fold x sid s0 in Hev, Hw, Hid, Htot, Hact, Hsent, Hcore, Hend.
  assert (Hdue : due s4 = true).
  { unfold due. rewrite (Hact Ha), Hsent, Hc, should_finalize_core.
    fold (core_intel s4). rewrite (Hcore Hi). cbn [andb negb].
    apply Nat.leb_le. lia. }
  destruct Hend as [(_ & _ & Hn) | (_ & _ & -> & ->)].
  { rewrite (Hn resp Hr) in Hdue. discriminate. }
  exists s4, pre. repeat split; try assumption.
  rewrite Hw. apply lookup_insert_eq.
Qed.

(** A request that makes a callback attempt. *)
Lemma posting_request cfg env body key w :
  wf_store (sessions w) ->
  let x := handle_message cfg env body key w in
  let sid := App.sessionId body in
  (1 <= count is_post (events_of x))%nat ->
  key = Some (API_KEY cfg) /\ sender (message body) = "scammer" /\
  sent_in w sid = false /\
  exists s4 pre,
    Forall quiet pre /\
    events_of x =
      EvSweep (cleanup_stale (now env) 86400 sid (sessions w)).1
      :: pre ++ (send_events cfg env s4).2 /\
    SessionManager.sessionId s4 = sid /\ due s4 = true /\
    (exists r, result_of x = Ret {| status := "success"; reply := r |}) /\
    sessions (world_of x) !! sid =
      Some (if (send_events cfg env s4).1 then reported s4 else s4).
Proof.
  intros Hwf x sid. unfold x.
  destruct (decide (key = Some (API_KEY cfg))) as [->|Hkey].
  2: { rewrite handle_message_unauthorized by exact Hkey.
       unfold events_of, count. cbn. lia. }
  destruct (decide (sender (message body) = "scammer")) as [Hs|Hs].
  2: { rewrite handle_message_ignored by exact Hs.
       unfold events_of, count. cbn. lia. }
  destruct (processed_request cfg env body w Hwf Hs)
    as (s4 & s' & pre & evs & Hev & Hq & Hw & Hid & _ & _ & Hsent & _ & Hend).
  fold sid in Hev, Hw, Hid, Hsent.
  destruct (quiet_counts pre sid Hq) as (Hp0 & _).
  rewrite Hev, count_cons, count_app, Hp0. cbn [is_post]. intros Hn.
  destruct Hend as [(-> & _) | (Hdue & Hr & -> & ->)].
  { unfold count in Hn. cbn in Hn. lia. }
  split; [reflexivity|]. split; [exact Hs|]. split.
  - rewrite <- entry_sent with (now := now env). rewrite <- Hsent.
    unfold due in Hdue. apply andb_true_iff in Hdue as [Hdue _].
    apply andb_true_iff in Hdue as [_ Hns]. apply negb_true_iff in Hns.
    exact Hns.
  - exists s4, pre. repeat split; try assumption.
    rewrite Hw. apply lookup_insert_eq.
Qed.

Lemma due_spec s :
  due s = true <->
  agent_active s = true /\ callback_sent s = false /\ should_finalize s = true.
Proof.
  unfold due. rewrite !andb_true_iff, negb_true_iff. tauto.
Qed.

(** C1. The callback is attempted during a request only when the session is
    active, not yet reported, and the finalize condition holds;
    [callback_sent] becomes true only through a successful delivery; once a
    session is reported no further attempt is made for it; so over any
    sequence of requests a session is delivered at most once, and exactly
    once in the two-turn scenario. *)
Theorem callback_reported_at_most_once cfg :
  (forall env body key w,
     wf_store (sessions w) ->
     let x := handle_message cfg env body key w in
     let sid := App.sessionId body in
     (1 <= count is_post (events_of x))%nat ->
     key = Some (API_KEY cfg) /\ sender (message body) = "scammer" /\
     sent_in w sid = false /\
     count (is_post_for sid) (events_of x) = count is_post (events_of x) /\
     exists s,
       agent_active s = true /\ callback_sent s = false /\
       should_finalize s = true /\
       sessions (world_of x) !! sid =
         Some (if (1 <=? count (is_delivery_for sid) (events_of x))%nat
               then reported s else s)) /\
  (forall s,
     should_finalize s = true <->
     (upiIds (intelligence s) <> [] \/ phishingLinks (intelligence s) <> [] \/
      phoneNumbers (intelligence s) <> [] \/
      bankAccounts (intelligence s) <> []) /\
     (8 <= total_messages s)%nat) /\
  (forall env body key w k,
     wf_store (sessions w) ->
     let x := handle_message cfg env body key w in
     sent_in (world_of x) k = true ->
     sent_in w k = true \/ (1 <= count (is_delivery_for k) (events_of x))%nat) /\
  (forall calls w k,
     wf_store (sessions w) ->
     let y := serve cfg calls w in
     count (evicts k) y.2 = 0%nat ->
     (count (is_delivery_for k) y.2 <= 1)%nat /\
     (sent_in w k = true ->
      count (is_post_for k) y.2 = 0%nat /\ sent_in y.1 k = true)) /\
  (forall calls1 calls2 w k,
     wf_store (sessions w) ->
     let y1 := serve cfg calls1 w in
     let y2 := serve cfg calls2 y1.1 in
     count (evicts k) (y1.2 ++ y2.2) = 0%nat ->
     (1 <= count (is_delivery_for k) y1.2)%nat ->
     sent_in y1.1 k = true /\ count (is_post_for k) y2.2 = 0%nat /\
     sent_in y2.1 k = true) /\
  (forall e8 e9 b8 b9 w s,
     let key := Some (API_KEY cfg) in
     let sid := App.sessionId b8 in
     wf_store (sessions w) ->
     App.sessionId b9 = sid ->
     sender (message b8) = "scammer" -> sender (message b9) = "scammer" ->
     sessions w !! sid = Some s ->
     total_messages s = 7%nat -> agent_active s = true ->
     callback_sent s = false -> core_intel s = true ->
     let x8 := handle_message cfg e8 b8 key w in
     let x9 := handle_message cfg e9 b9 key (world_of x8) in
     (exists resp, result_of x8 = Ret resp) ->
     delivered (post e8 0) || delivered (post e8 1) || delivered (post e8 2)
       = true ->
     (1 <= count is_post (events_of x8) <= 3)%nat /\
     count (is_delivery_for sid) (events_of x8) = 1%nat /\
     sent_in (world_of x8) sid = true /\
     count is_post (events_of x9) = 0%nat /\
     sent_in (world_of x9) sid = true).
Proof.
  split; [|split; [|split; [|split; [|split]]]].
  - intros env body key w Hwf x sid Hn.
    destruct (posting_request cfg env body key w Hwf Hn)
      as (Hk & Hs & Hsent & s4 & pre & Hq & Hev & Hid & Hdue & _ & Hl).
    fold x sid in Hev, Hl, Hid.
    destruct (request_posts_own cfg env body key w sid Hwf) as (Hown & _).
    fold x sid in Hown.
    repeat split; try assumption; [symmetry; exact Hown|].
    apply due_spec in Hdue as (Ha & Hc & Hf).
    exists s4. repeat split; try assumption.
    rewrite Hl, Hev, count_cons, count_app.
    destruct (quiet_counts pre sid Hq) as (_ & _ & -> & _).
    destruct (send_events_facts cfg env s4 sid) as (_ & _ & -> & _).
    rewrite (bool_decide_eq_true_2 _ Hid). cbn [is_delivery_for andb plus].
    destruct (send_events cfg env s4).1; reflexivity.
  - apply should_finalize_spec.
  - intros env body key w k Hwf x.
    apply (request_posts_own cfg env body key w k Hwf).
  - intros calls w k Hwf y Hkeep.
    destruct (serve_reports cfg calls w k Hwf) as [_ H].
    destruct (H Hkeep) as (Hd & Hp & _).
    split; [|exact Hp]. fold y in Hd. destruct (sent_in w k); lia.
  - intros calls1 calls2 w k Hwf y1 y2 Hkeep Hn.
    rewrite count_app in Hkeep.
    destruct (serve_reports cfg calls1 w k Hwf) as [Hwf1 H1]. fold y1 in Hwf1, H1.
    destruct H1 as (_ & _ & Hs1); [lia|]. specialize (Hs1 Hn).
    destruct (serve_reports cfg calls2 y1.1 k Hwf1) as [_ H2]. fold y2 in H2.
    destruct H2 as (_ & Hp2 & _); [lia|]. destruct (Hp2 Hs1) as [Hp Hs2].
    repeat split; assumption.
  - intros e8 e9 b8 b9 w s key sid Hwf Hb9 Hs8 Hs9 Hl Ht Ha Hc Hi x8 x9 Hr Hok.
    assert (He0 : entry (sessions w) sid (now e8) = s).
    { unfold entry. rewrite Hl. reflexivity. }
    destruct (ripe_request cfg e8 b8 w Hwf Hs8) as
      (s4 & pre & Hq & Hev & Hid & Hdue & _ & Hl8);
      try (fold sid; rewrite He0; first [assumption | lia]); [exact Hr|].
    fold key in Hev, Hl8. fold x8 sid in Hev, Hl8, Hid.
    rewrite (send_events_sent cfg e8 s4), Hok in Hl8.
    destruct (send_events_facts cfg e8 s4 sid) as (Hn & _ & Hd & _).
    cbv zeta in Hn, Hd.
    rewrite (bool_decide_eq_true_2 _ Hid), send_events_sent, Hok in Hd.
    destruct (request_reports cfg e8 b8 key w sid Hwf) as [Hwf8 _].
    fold x8 in Hwf8.
    assert (Hsent8 : sent_in (world_of x8) sid = true).
    { unfold sent_in. rewrite Hl8. reflexivity. }
    destruct (request_posts_own cfg e9 b9 key (world_of x8) sid Hwf8)
      as (Hown9 & Hev9 & _).
    fold x9 in Hown9, Hev9. rewrite Hb9 in Hown9, Hev9.
    destruct (request_reports cfg e9 b9 key (world_of x8) sid Hwf8) as [_ H9].
    fold x9 in H9. destruct (H9 Hev9) as (_ & Hp9 & Hs9').
    specialize (Hp9 Hsent8).
    destruct (quiet_counts pre sid Hq) as (Hq0 & _ & Hq2 & _).
    rewrite Hown9, Hp9, Hev, !count_cons, !count_app, Hq0, Hq2, Hd.
    cbn [is_post is_delivery_for andb plus].
    repeat split; try lia; try assumption. apply Hs9'. left. exact Hsent8.
Qed.

Lemma callback_reported_at_most_once_witness :
  let key := Some "secret" in
  let env := Sample.env (fun i => if (i <? 1)%nat then Non2xx else Ok2xx) in
  let body := Sample.request "s1" "scammer" "send the otp" in
  let x8 := handle_message Sample.cfg env body key Sample.ripe_world in
  let x9 := handle_message Sample.cfg env body key (world_of x8) in
  (1 <= count is_post (events_of x8) <= 3)%nat /\
  count (is_delivery_for "s1") (events_of x8) = 1%nat /\
  sent_in (world_of x8) "s1" = true /\
  count is_post (events_of x9) = 0%nat /\
  sent_in (world_of x9) "s1" = true.
Proof.
  cbv zeta.
  destruct (callback_reported_at_most_once Sample.cfg) as (_ & _ & _ & _ & _ & H).
  apply (H (Sample.env (fun i => if (i <? 1)%nat then Non2xx else Ok2xx))
           (Sample.env (fun i => if (i <? 1)%nat then Non2xx else Ok2xx))
           (Sample.request "s1" "scammer" "send the otp")
           (Sample.request "s1" "scammer" "send the otp")
           Sample.ripe_world Sample.ripe_session);
    try reflexivity.
  - apply wf_store_singleton. reflexivity.
  - eexists. vm_compute. reflexivity.
Defined.

Lemma confidence_accumulates_and_activates_witness :
  let key := Some "secret" in
  let env := Sample.env (fun _ => Ok2xx) in
  let body := Sample.request "s9" "scammer" "share the otp now" in
  let x1 := handle_message Sample.cfg env body key Sample.empty_world in
  let x2 := handle_message Sample.cfg env body key (world_of x1) in
  exists s1 s2,
    sessions (world_of x1) !! "s9" = Some s1 /\
    sessions (world_of x2) !! "s9" = Some s2 /\
    confidence s1 = (0.0 + 0.9 * 0.4)%float /\
    confidence s1 = 0x1.70a3d70a3d70bp-2%float /\
    agent_active s1 = false /\
    confidence s2 = (confidence s1 + 0.9 * 0.4)%float /\
    confidence s2 = 0x1.70a3d70a3d70bp-1%float /\
    PrimFloat.leb 0.6 (confidence s2) = true /\
    agent_active s2 = true.
Proof.
  cbv zeta.
  apply (confidence_accumulates_and_activates Sample.cfg
           (Sample.env (fun _ => Ok2xx)) (Sample.env (fun _ => Ok2xx))
           (Sample.request "s9" "scammer" "share the otp now")
           (Sample.request "s9" "scammer" "share the otp now")
           Sample.empty_world);
    try reflexivity.
  apply wf_store_empty.
Defined.

(** Every store reached from an empty one is well formed. *)
Lemma reachable_wf cfg calls cs :
  wf_store (sessions (serve cfg calls (mkWorld ∅ cs)).1).
Proof. apply (serve_reports cfg calls (mkWorld ∅ cs) ""), wf_store_empty. Qed.

(** The no-eviction condition of C1 is needed: an id evicted by the
    sweep of another session's request gets a fresh session on its next
    request, which is reported in its turn. *)
Example report_after_eviction :
  let key := Some "secret" in
  let otp := "send the otp to 9876543210" in
  let first := mkCall (Sample.env_at 0 (fun _ => Ok2xx))
                      (Sample.request "s1" "scammer" otp) key in
  let other := mkCall (Sample.env_at 100000 (fun _ => Ok2xx))
                      (Sample.request "s2" "scammer" otp) key in
  let again := mkCall (Sample.env_at 100001 (fun _ => Ok2xx))
                      (Sample.request "s1" "scammer" otp) key in
  let y := serve Sample.cfg (first :: other :: replicate 8 again)
                 Sample.ripe_world in
  count (evicts "s1") y.2 = 1%nat /\ count (is_delivery_for "s1") y.2 = 2%nat.
Proof. cbv zeta. split; vm_compute; reflexivity. Qed.

(** C2 (counterexample). The claim as stated fails twice. On the
    numbers: the confidence of a fresh session after one request flagged
    with score 0.9 is not the float 0.36 but the next float above it,
    0.36000000000000004, and after two such requests it is not the float
    0.72 but the next float above it, 0.7200000000000001. On the later
    requests: once the session has been idle for more than a day, the
    sweep of a request for another session evicts it, and its next
    request finds the agent not active. *)
Lemma confidence_claim_refuted :
  let key := Some (API_KEY Sample.cfg) in
  let otp (t : Q) := mkCall (Sample.env_at t (fun _ => Ok2xx))
                 (Sample.request "s9" "scammer" "share the otp now") key in
  let other := mkCall (Sample.env_at 100000 (fun _ => Ok2xx))
                 (Sample.request "s2" "scammer" "hello") key in
  let later := mkCall (Sample.env_at 100001 (fun _ => Ok2xx))
                 (Sample.request "s9" "scammer" "hello") key in
  let after calls :=
    sessions (serve Sample.cfg calls Sample.empty_world).1 !! "s9" in
  detect_scam (IS_RENDER Sample.cfg) (detector (call_env (otp 0%Q)))
    (text (message (call_body (otp 0%Q)))) = Some (true, 0.9%Q) /\
  after [] = None /\
  (confidence <$> after [otp 0%Q]) = Some 0x1.70a3d70a3d70bp-2%float /\
  (confidence <$> after [otp 0%Q; otp 1%Q])
    = Some 0x1.70a3d70a3d70bp-1%float /\
  PrimFloat.eqb 0x1.70a3d70a3d70bp-2 0.36 = false /\
  PrimFloat.ltb 0.36 0x1.70a3d70a3d70bp-2 = true /\
  PrimFloat.eqb 0x1.70a3d70a3d70bp-1 0.72 = false /\
  PrimFloat.ltb 0.72 0x1.70a3d70a3d70bp-1 = true /\
  (agent_active <$> after [otp 0%Q; otp 1%Q]) = Some true /\
  (agent_active <$> after [otp 0%Q; otp 1%Q; later]) = Some true /\
  count (evicts "s9")
    (serve Sample.cfg [otp 0%Q; otp 1%Q; other; later] Sample.empty_world).2
    = 1%nat /\
  (agent_active <$> after [otp 0%Q; otp 1%Q; other; later]) = Some false.
Proof. cbv zeta. repeat split; vm_compute; reflexivity. Qed.

(** The arithmetic of the two turns by itself, and the reading of the
    decimal literals: the floats 0.9 and 0.36 of Python are the binary64
    numbers nearest to 9/10 and 36/100. *)
Example binary64_two_scam_turns :
  Binary64.crossed Binary64.first_turn = false /\
  Binary64.crossed Binary64.second_turn = true /\
  Binary64.first_turn = 0x1.70a3d70a3d70bp-2%float /\
  Binary64.second_turn = 0x1.70a3d70a3d70bp-1%float /\
  PrimFloat.ltb 0x1.70a3d70a3d70ap-2%float Binary64.first_turn = true /\
  Binary64.of_Q 0.9 = 0.9%float /\ Binary64.of_Q 0.36 = 0.36%float /\
  Binary64.of_Q 0.36 = 0x1.70a3d70a3d70ap-2%float.
Proof. repeat split; vm_compute; reflexivity. Qed.

(** Three turns whose scores add up to 1.5 leave the confidence just
    below the threshold: on binary64 numbers the sum of the three
    increments is 0.5999999999999999, and the agent is not activated;
    stages 6 to 8 of the handler compute just that. *)
Example binary64_below_threshold :
  let c := Binary64.raised (Binary64.raised (Binary64.raised 0 0.08) 0.70) 0.72 in
  let s := scored (true, 0.72%Q)
             (scored (true, 0.70%Q)
                (scored (true, 0.08%Q) (fresh_session "s1" 0))) in
  c = 0x1.3333333333332p-1%float /\ Binary64.crossed c = false /\
  confidence s = c /\ agent_active s = false.
Proof. cbv zeta. repeat split; vm_compute; reflexivity. Qed.




End AppFacts.

(* ===================================================================== *)
(** * Further properties                                                 *)
(* ===================================================================== *)

(** ** Strings: reversal and [strip] *)

Section FurtherTextFacts.
Import Text Shape.

Lemma rev_app_append (s acc : string) :
  String.rev_app s acc = String.rev s ++ acc.
Proof.
  unfold String.rev. revert acc.
  induction s as [|c s IH]; intros acc; [rewrite append_empty_l; reflexivity|].
  cbn [String.rev_app]. rewrite (IH (String c "")), (IH (String c acc)).
  rewrite append_assoc, append_cons, append_empty_l. reflexivity.
Qed.

Lemma rev_cons c (s : string) : String.rev (String c s) = String.rev s ++ String c "".
Proof. unfold String.rev at 1. cbn [String.rev_app]. apply rev_app_append. Qed.

Lemma rev_append (a b : string) :
  String.rev (a ++ b) = String.rev b ++ String.rev a.
Proof.
  induction a as [|c a IH].
  - rewrite append_empty_l, append_empty_r. reflexivity.
  - rewrite append_cons, !rev_cons, IH, append_assoc. reflexivity.
Qed.

Lemma rev_involutive (s : string) : String.rev (String.rev s) = s.
Proof.
  induction s as [|c s IH]; [reflexivity|].
  rewrite rev_cons, rev_append, IH. reflexivity.
Qed.


Lemma all_chars_append p (a b : string) :
  all_chars p (a ++ b) = all_chars p a && all_chars p b.
Proof.
  unfold all_chars. induction a as [|c a IH]; [reflexivity|].
  rewrite append_cons. cbn. rewrite IH. apply andb_assoc.
Qed.

Lemma all_chars_rev p (s : string) : all_chars p (String.rev s) = all_chars p s.
Proof.
  induction s as [|c s IH]; [reflexivity|].
  rewrite rev_cons, all_chars_append, IH. unfold all_chars. cbn.
  rewrite andb_true_r. apply andb_comm.
Qed.

Lemma last_char_rev (s : string) : last_char (String.rev s) = first_char s.
Proof.
  destruct s as [|c s]; [reflexivity|].
  rewrite rev_cons, last_char_append by discriminate. reflexivity.
Qed.

(** [lstrip] removes a white-space prefix and stops at the first other
    character. *)
Lemma lstrip_spec (s : string) :
  exists a, s = a ++ lstrip s /\ all_chars is_space a = true /\
            forall c, first_char (lstrip s) = Some c -> is_space c = false.
Proof.
  induction s as [|c s (a & E & Ha & Hf)].
  - exists "". repeat split. discriminate.
  - cbn [lstrip]. destruct (is_space c) eqn:Ec.
    + exists (String c a). rewrite append_cons, <- E. repeat split.
      * unfold all_chars in *. cbn. rewrite Ec, Ha. reflexivity.
      * exact Hf.
    + exists "". repeat split. intros d [= <-]. exact Ec.
Qed.

(** [strip] removes the white space around a text and nothing else. *)
Lemma strip_spec (s : string) :
  exists a b,
    s = a ++ strip s ++ b /\
    all_chars is_space a = true /\ all_chars is_space b = true /\
    (forall c, first_char (strip s) = Some c -> is_space c = false) /\
    (forall c, last_char (strip s) = Some c -> is_space c = false).
Proof.
  destruct (lstrip_spec s) as (a & Ea & Ha & Hfa).
  destruct (lstrip_spec (String.rev (lstrip s))) as (b & Eb & Hb & Hfb).
  assert (Et : lstrip s = strip s ++ String.rev b).
  { unfold strip. rewrite <- rev_append, <- Eb, rev_involutive. reflexivity. }
  exists a, (String.rev b). split; [|split; [|split; [|split]]].
  - rewrite <- Et. exact Ea.
  - exact Ha.
  - rewrite all_chars_rev. exact Hb.
  - intros c Hc. apply Hfa. rewrite Et.
    destruct (strip s) as [|d t]; [discriminate|].
    rewrite append_cons. exact Hc.
  - intros c Hc. apply Hfb. unfold strip in Hc. rewrite last_char_rev in Hc.
    exact Hc.
Qed.

End FurtherTextFacts.

(** ** Regular expressions: what [findall] returns *)

Section FurtherRegexFacts.
Import Text Regex Shape.

Lemma after_text_append prev a b :
  after_text (after_text prev a) b = after_text prev (a ++ b).
Proof.
  unfold after_text. destruct b as [|c b].
  - rewrite append_empty_r. reflexivity.
  - rewrite last_char_append by discriminate.
    destruct (last_char (String c b)) eqn:E; [reflexivity|].
    exfalso. revert c E. induction b as [|d b IH]; intros c E; [discriminate|].
    cbn [last_char] in E. apply (IH d). exact E.
Qed.

Lemma Matches_spans r p0 s0 p1 s1 :
  Matches r p0 s0 p1 s1 ->
  exists m, s0 = m ++ s1 /\ spans r p0 m s1 /\ p1 = after_text p0 m.
Proof.
  induction 1 as
    [ prev s | c prev s | p c prev s Hp | prev s Hb
    | r1 r2 p0 s0 p1 s1 p2 s2 _ (m1 & -> & L1 & ->) _ (m2 & -> & L2 & ->)
    | r1 r2 p0 s0 p1 s1 _ (m & -> & L & ->)
    | r1 r2 p0 s0 p1 s1 _ (m & -> & L & ->)
    | r p0 s0 p1 s1 _ (m & -> & L & ->) | r prev s | p hi prev s
    | p lo hi c prev s p1 s1 Hp Hx _ (m & -> & L & ->) ].
  - exists "". repeat split.
  - exists (String c ""). repeat split.
  - exists (String c ""). repeat split. exists c. auto.
  - exists "". repeat split. exact Hb.
  - exists (m1 ++ m2). rewrite append_assoc, after_text_append.
    repeat split. exists m1, m2. auto.
  - exists m. repeat split. left. exact L.
  - exists m. repeat split. right. exact L.
  - exists m. repeat split. right. exact L.
  - exists "". repeat split. left. reflexivity.
  - exists "". repeat split. cbn. lia. destruct hi; cbn; [lia | exact I].
  - exists (String c m). cbn [spans] in L |- *. destruct L as (La & Ll & Lh).
    repeat split.
    + unfold all_chars in *. cbn. rewrite Hp, La. reflexivity.
    + cbn. lia.
    + destruct hi as [[|h]|]; cbn in *; try discriminate; try exact I. lia.
    + change (String c m) with (String c "" ++ m).
      rewrite <- after_text_append. reflexivity.
Qed.

Lemma scan_sound r : forall s prev skip m,
  m ∈ scan r prev s skip ->
  exists a b rest,
    s = a ++ b /\ match_at r (after_text prev a) b = Some rest /\
    m = take (String.length b - String.length rest) b.
Proof.
  induction s as [|c s IH]; intros prev skip m; rewrite scan_unfold.
  - destruct skip; cbn [step_scan]; [|intros H; inversion H].
    destruct (match_at r prev "") as [rest|] eqn:E; [|intros H; inversion H].
    cbv zeta. intros H. apply list_elem_of_singleton in H; subst m.
    exists "", "", rest. repeat split; assumption.
  - assert (Hin : forall n, m ∈ scan r (Some c) s n ->
              exists a b rest, String c s = a ++ b /\
                match_at r (after_text prev a) b = Some rest /\
                m = take (String.length b - String.length rest) b).
    { intros n H. apply IH in H as (a & b & rest & -> & Hm & ->).
      exists (String c a), b, rest. repeat split.
      change (String c a) with (String c "" ++ a).
      rewrite <- after_text_append. exact Hm. }
    destruct skip; cbn [step_scan]; [|apply Hin].
    destruct (match_at r prev (String c s)) as [rest|] eqn:E;
      cbv zeta; cbn [step_scan]; [|apply Hin].
    intros H. apply elem_of_cons in H as [->|H]; [|exact (Hin _ H)].
    exists "", (String c s), rest. repeat split. exact E.
Qed.

Lemma append_length_cancel (a c : string) :
  String.length (a ++ c) - String.length c = String.length a.
Proof. rewrite length_append. lia. Qed.

(** Every string returned by [findall] stands in the text and is
    matched there by the pattern. *)
Lemma findall_sound r text m :
  m ∈ findall r text ->
  exists a rest, text = a ++ m ++ rest /\ spans r (last_char a) m rest.
Proof.
  intros H. apply scan_sound in H as (a & b & rest & -> & Hm & ->).
  apply match_at_sound in Hm as [p1 HM].
  destruct (Matches_spans _ _ _ _ _ HM) as (m & -> & L & _).
  rewrite append_length_cancel, take_append.
  exists a, rest. split; [reflexivity|].
  unfold after_text in L. destruct (last_char a); exact L.
Qed.

End FurtherRegexFacts.

(** ** extract.py: the shape of the extracted items *)

Section FurtherExtractFacts.
Import Text Regex Shape Extract.

Lemma first_char_append (a b : string) :
  a <> "" -> first_char (a ++ b) = first_char a.
Proof. destruct a; [congruence|]. rewrite append_cons. reflexivity. Qed.

Lemma all_chars_first p (m : string) c :
  all_chars p m = true -> first_char m = Some c -> p c = true.
Proof.
  destruct m as [|d m]; [discriminate|]. unfold all_chars. cbn.
  intros [H _]%andb_true_iff [= <-]. exact H.
Qed.

Lemma all_chars_last p (m : string) c :
  all_chars p m = true -> last_char m = Some c -> p c = true.
Proof.
  unfold all_chars. induction m as [|d m IH]; [discriminate|]. cbn.
  intros [Hd Hm]%andb_true_iff. destruct m as [|e m].
  - intros [= <-]. exact Hd.
  - intros H. apply IH; assumption.
Qed.

Lemma not_word_not_digit (o : option ascii) c :
  word_opt o = false -> o = Some c -> is_digit c = false.
Proof.
  intros H ->. cbn in H. destruct (is_digit c) eqn:E; [|reflexivity].
  rewrite (is_digit_word _ E) in H. discriminate.
Qed.

Lemma last_char_none (s : string) : last_char s = None -> s = "".
Proof.
  destruct s as [|c s]; [reflexivity|]. intros H. exfalso. revert c H.
  induction s as [|d s IH]; intros c H; [discriminate | exact (IH d H)].
Qed.

Lemma long_nonempty (s : string) n : (S n <= String.length s)%nat -> s <> "".
Proof. intros H ->. simpl in H. lia. Qed.

(** A non-empty run of word characters starts and ends with one. *)
Lemma word_run_ends p (m : string) :
  (forall c, p c = true -> is_word c = true) ->
  all_chars p m = true -> m <> "" ->
  word_opt (first_char m) = true /\ word_opt (last_char m) = true.
Proof.
  intros Hp Hd Hne. split.
  - destruct (first_char m) as [c|] eqn:E.
    + apply Hp, (all_chars_first p m); assumption.
    + destruct m; [congruence | discriminate].
  - destruct (last_char m) as [c|] eqn:E.
    + apply Hp, (all_chars_last p m); assumption.
    + apply last_char_none in E. congruence.
Qed.

Lemma after_text_nonempty prev (m : string) :
  m <> "" -> after_text prev m = last_char m.
Proof.
  intros Hne. unfold after_text. destruct (last_char m) eqn:E; [reflexivity|].
  apply last_char_none in E. congruence.
Qed.

(** Two ways of cutting one text: the shorter first piece is a prefix of
    the longer one. *)
Lemma append_split (a b c d : string) :
  a ++ b = c ++ d -> (String.length a <= String.length c)%nat ->
  exists u, c = a ++ u /\ b = u ++ d.
Proof.
  revert c. induction a as [|x a IH]; intros c H Hl.
  - exists c. rewrite !append_empty_l in *. auto.
  - destruct c as [|y c]; [simpl in Hl; lia|].
    rewrite !append_cons in H. injection H as -> H.
    destruct (IH c H) as (u & -> & ->); [simpl in Hl; lia|].
    exists u. rewrite append_cons. auto.
Qed.

(** Greedy repetition over a run of admissible characters that ends where
    the class stops: the continuation is entered after the whole run. *)
Lemma repeat_class_run p k rest x (m : string) : forall lo hi prev,
  all_chars p m = true -> (lo <= String.length m)%nat ->
  match hi with Some h => (String.length m <= h)%nat | None => True end ->
  (forall c, first_char rest = Some c -> p c = false) ->
  k (after_text prev m) rest = Some x ->
  repeat_class p lo hi k prev (m ++ rest) = Some x.
Proof.
  unfold all_chars. induction m as [|c m IH]; intros lo hi prev Ha Hlo Hhi Hr Hk.
  - rewrite append_empty_l. simpl in Hlo. assert (lo = 0%nat) as -> by lia.
    destruct rest as [|d rest]; cbn [repeat_class]; [exact Hk|].
    rewrite (Hr d eq_refl). cbn. exact Hk.
  - rewrite append_cons. cbn in Ha. apply andb_true_iff in Ha as [Hc Ha].
    cbn [repeat_class]. rewrite Hc.
    assert (exhausted hi = false) as ->.
    { destruct hi as [[|h]|]; try reflexivity. simpl in Hhi. lia. }
    cbn [andb negb]. rewrite (IH (Nat.pred lo) (Nat.pred <$> hi) (Some c)).
    + reflexivity.
    + exact Ha.
    + simpl in Hlo. lia.
    + destruct hi as [h|]; cbn in *; [lia | exact I].
    + exact Hr.
    + change (String c m) with (String c "" ++ m) in Hk.
      rewrite <- after_text_append in Hk. exact Hk.
Qed.

(** A delimited run of 9 to 18 digits is matched whole by the
    bank-account pattern. *)
Lemma bank_matches_run prev (m rest : string) :
  all_chars is_digit m = true ->
  (9 <= String.length m <= 18)%nat ->
  word_opt prev = false -> word_opt (first_char rest) = false ->
  match_at BANK_ACCOUNT_PATTERN prev (m ++ rest) = Some rest.
Proof.
  intros Hd [Hlo Hhi] Hp Hr.
  assert (Hne : m <> "") by (apply (long_nonempty m 8); exact Hlo).
  destruct (word_run_ends is_digit m is_digit_word Hd Hne) as [Hf Hl].
  unfold match_at, BANK_ACCOUNT_PATTERN. cbn [bt].
  unfold at_boundary at 1. rewrite Hp, first_char_append, Hf by exact Hne.
  cbn [xorb].
  apply repeat_class_run; try assumption.
  - intros d Hd'. eapply not_word_not_digit; eassumption.
  - unfold at_boundary. rewrite Hr, after_text_nonempty, Hl by exact Hne.
    reflexivity.
Qed.

(** A match of the bank-account pattern that starts in a text ending with
    a non-word character ends inside that text. *)
Lemma bank_no_straddle prev (a t rest : string) :
  a <> "" -> word_opt (last_char a) = false ->
  match_at BANK_ACCOUNT_PATTERN prev (a ++ t) = Some rest ->
  (String.length t <= String.length rest)%nat.
Proof.
  intros Hne Hl H. apply match_at_sound in H as [p1 H].
  apply Matches_spans in H as (m & E & S & _).
  destruct S as (m1 & m2 & -> & [-> _] & m3 & m4 & -> & (Hd & _) & [-> _]).
  rewrite append_empty_l, append_empty_r in E.
  destruct (le_lt_dec (String.length a) (String.length m3)) as [Hle|Hlt].
  - destruct (append_split _ _ _ _ E Hle) as (u & -> & _).
    rewrite all_chars_append in Hd. apply andb_true_iff in Hd as [Hd _].
    destruct (word_run_ends is_digit a is_digit_word Hd Hne) as [_ Hw].
    congruence.
  - apply (f_equal String.length) in E. rewrite !length_append in E. lia.
Qed.

(** The scan reaches a match whose success depends on the character
    before it. *)
Lemma scan_reaches_after r (m rest t : string) :
  t = m ++ rest ->
  forall a,
  (forall a1 a2 prev rest', a = a1 ++ a2 -> a2 <> "" ->
     match_at r prev (a2 ++ t) = Some rest' ->
     (String.length t <= String.length rest')%nat) ->
  forall prev skip, (skip <= String.length a)%nat ->
  match_at r (after_text prev a) t = Some rest ->
  m ∈ scan r prev (a ++ t) skip.
Proof.
  intros Ht. induction a as [|c a IH]; intros Hns prev skip Hskip Hm.
  - simpl in Hskip. assert (skip = 0%nat) as -> by lia.
    rewrite append_empty_l, scan_unfold. cbn in Hm. rewrite Hm. cbv zeta.
    replace (String.length t - String.length rest)%nat with (String.length m)
      by (rewrite Ht, length_append; lia).
    rewrite Ht, take_append. left.
  - assert (IH' : forall skip, (skip <= String.length a)%nat ->
                  m ∈ scan r (Some c) (a ++ t) skip).
    { intros n Hn. apply IH.
      - intros a1 a2 prev' rest' -> Hne. apply (Hns (String c a1) a2).
        + reflexivity.
        + exact Hne.
      - exact Hn.
      - change (String c a) with (String c "" ++ a) in Hm.
        rewrite <- after_text_append in Hm. exact Hm. }
    rewrite append_cons, scan_unfold. destruct skip as [|n]; cbn [step_scan].
    + destruct (match_at r prev (String c (a ++ t))) as [rest'|] eqn:E;
        cbv zeta; cbn [step_scan].
      * right. apply IH'.
        assert (String.length t <= String.length rest')%nat as Hle.
        { apply (Hns "" (String c a) prev rest');
            [reflexivity | discriminate | exact E]. }
        simpl. rewrite length_append. lia.
      * apply IH'. lia.
    + apply IH'. simpl in Hskip. lia.
Qed.

(** The candidates of the bank-account pattern are exactly the runs of 9
    to 18 digits that stand between non-word characters or ends of the
    text. *)
Lemma bank_candidates (text acc : string) :
  acc ∈ findall BANK_ACCOUNT_PATTERN text <->
  all_chars is_digit acc = true /\ (9 <= String.length acc <= 18)%nat /\
  exists pre post, text = pre ++ acc ++ post /\
    word_opt (last_char pre) = false /\ word_opt (first_char post) = false.
Proof.
  split.
  - intros H. apply findall_sound in H as (a & rest & -> & S).
    destruct S as (m1 & m2 & -> & [-> Hb1] & m3 & m4 & -> & (Hd & Hlo & Hhi)
                   & [-> Hb2]).
    rewrite append_empty_l, append_empty_r in *.
    assert (Hne : m3 <> "") by (apply (long_nonempty m3 8); exact Hlo).
    destruct (word_run_ends is_digit m3 is_digit_word Hd Hne) as [Hf Hl].
    split; [exact Hd|]. split; [lia|]. exists a, rest. split; [reflexivity|].
    unfold at_boundary in Hb1, Hb2.
    rewrite first_char_append, Hf in Hb1 by exact Hne.
    rewrite after_text_nonempty, Hl in Hb2 by exact Hne. split.
    + destruct (word_opt (last_char a)); [discriminate | reflexivity].
    + destruct (word_opt (first_char rest)); [discriminate | reflexivity].
  - intros (Hd & Hlen & pre & post & -> & Hl & Hr). unfold findall.
    apply (scan_reaches_after BANK_ACCOUNT_PATTERN acc post (acc ++ post)).
    + reflexivity.
    + intros a1 a2 prev rest' -> Hne Hm.
      apply (bank_no_straddle prev a2); try assumption.
      rewrite last_char_append in Hl by exact Hne. exact Hl.
    + lia.
    + apply bank_matches_run; try assumption.
      unfold after_text. destruct (last_char pre); [exact Hl | reflexivity].
Qed.

Lemma six_nine_digit c : in_range "6" "9" c = true -> is_digit c = true.
Proof.
  unfold is_digit, in_range. intros [H1 H2]%andb_true_iff.
  apply Nat.leb_le in H1, H2. apply andb_true_iff.
  split; apply Nat.leb_le; [|exact H2].
  etransitivity; [|exact H1]. vm_compute. lia.
Qed.

Lemma mobile_number_digits (num : string) :
  mobile_number num = true ->
  all_chars is_digit num = true /\ String.length num = 10%nat.
Proof.
  destruct num as [|c ds]; [discriminate|]. cbn [mobile_number].
  intros [[Hc Hd]%andb_true_iff Hl%Nat.eqb_eq]%andb_true_iff. split.
  - unfold all_chars in *. cbn. rewrite (six_nine_digit c Hc), Hd. reflexivity.
  - cbn. lia.
Qed.

(** What the phone pattern matches: an optional prefix and a mobile
    number, followed by a non-word character or the end of the text. *)
Lemma phone_spans prev (m rest : string) :
  spans PHONE_PATTERN prev m rest ->
  exists pfx num, m = pfx ++ num /\ phone_prefix pfx = true /\
    mobile_number num = true /\ word_opt (first_char rest) = false.
Proof.
  unfold PHONE_PATTERN. cbn [spans Lit].
  intros (pfx & m2 & -> & Hp & c0 & m3 & -> & (c & Hc & ->) & ds & m4 & ->
          & (Hd & Hlo & Hhi) & [-> Hb]).
  exists pfx, (String c ds). rewrite append_empty_r, append_cons, append_empty_l.
  split; [reflexivity|]. split; [|split].
  - destruct Hp as [->|[(p1 & p2 & -> & (p3 & p4 & -> & -> & p5 & p6 & -> & ->
                                          & p7 & p8 & -> & -> & ->) & Hs)| ->]];
      [reflexivity| |reflexivity].
    destruct Hs as [->|(x & Hx & ->)]; [reflexivity|].
    change (phone_prefix (String "+" (String "9" (String "1" (String x ""))))
            = true).
    unfold phone_prefix. cbn [is_country_prefix]. rewrite Hx. apply orb_true_r.
  - cbn [mobile_number]. rewrite Hc, Hd. cbn [andb]. apply Nat.eqb_eq. lia.
  - unfold at_boundary in Hb.
    assert (Hne : String c "" ++ ds <> "") by (rewrite append_cons; discriminate).
    rewrite after_text_append in Hb.
    rewrite (after_text_nonempty _ _ Hne) in Hb.
    assert (Hw : word_opt (last_char (String c "" ++ ds)) = true).
    { apply (word_run_ends is_digit); [exact is_digit_word | | exact Hne].
      rewrite all_chars_append, Hd. unfold all_chars. cbn.
      rewrite (six_nine_digit c Hc). reflexivity. }
    rewrite Hw in Hb. destruct (word_opt (first_char rest));
      [discriminate | reflexivity].
Qed.

(** Case analysis on the eight bits of a character. *)
Ltac bits c := destruct c as [[] [] [] [] [] [] [] []].

Lemma six_nine_not_prefix c :
  in_range "6" "9" c = true ->
  Ascii.eqb c "+" = false /\ Ascii.eqb c "0" = false.
Proof. bits c; intros H; try discriminate H; split; reflexivity. Qed.

(** The phone pattern matches a mobile number wherever the number is
    followed by a non-word character or the end of the text. *)
Lemma phone_matches_mobile prev (num rest : string) :
  mobile_number num = true -> word_opt (first_char rest) = false ->
  match_at PHONE_PATTERN prev (num ++ rest) = Some rest.
Proof.
  destruct num as [|c ds]; [discriminate|]. cbn [mobile_number].
  intros [[Hc Hd]%andb_true_iff Hl%Nat.eqb_eq]%andb_true_iff Hr.
  destruct (six_nine_not_prefix c Hc) as [Hplus Hzero].
  rewrite append_cons. unfold match_at, PHONE_PATTERN. cbn [bt Lit].
  rewrite Hplus, Hzero, Hc.
  apply repeat_class_run.
  - exact Hd.
  - lia.
  - lia.
  - intros d Hd'. eapply not_word_not_digit; eassumption.
  - unfold at_boundary. rewrite Hr. unfold after_text.
    destruct (last_char ds) as [l|] eqn:El; cbn.
    + rewrite (is_digit_word l); [reflexivity|].
      apply (all_chars_last is_digit ds); assumption.
    + rewrite (six_nine_word c Hc). reflexivity.
Qed.

Lemma all_chars_prefix_last p (a u : string) :
  (forall c, p c = true -> is_word c = true) ->
  all_chars p (a ++ u) = true -> a <> "" -> word_opt (last_char a) = true.
Proof.
  intros Hp H Hne. rewrite all_chars_append in H.
  apply andb_true_iff in H as [H _]. apply (word_run_ends p a); assumption.
Qed.

Lemma is_country_prefix_spec (s : string) :
  is_country_prefix s = true ->
  exists c, sep_class c = true /\
            s = String "+" (String "9" (String "1" (String c ""))).
Proof.
  destruct s as [|c1 [|c2 [|c3 [|c4 [|c5 r]]]]]; cbn [is_country_prefix];
    intros H.
  - discriminate H.
  - bits c1; discriminate H.
  - bits c1; try discriminate H; bits c2; discriminate H.
  - bits c1; try discriminate H; bits c2; try discriminate H;
      bits c3; discriminate H.
  - bits c1; try discriminate H; bits c2; try discriminate H;
      bits c3; try discriminate H.
    exists c4. split; [exact H | reflexivity].
  - bits c1; try discriminate H; bits c2; try discriminate H;
      bits c3; discriminate H.
Qed.

Lemma phone_prefix_cases (pfx : string) :
  phone_prefix pfx = true ->
  pfx = "" \/ pfx = "0" \/ pfx = "+91" \/
  exists c, sep_class c = true /\
            pfx = String "+" (String "9" (String "1" (String c ""))).
Proof.
  unfold phone_prefix. rewrite !orb_true_iff, !String.eqb_eq.
  intros [[[H|H]|H]|H]; auto using is_country_prefix_spec.
Qed.

Lemma sep_not_digit c : sep_class c = true -> is_digit c = false.
Proof. bits c; intros H; try discriminate H; reflexivity. Qed.

Lemma append_eq_cons (a w : string) c s :
  a ++ w = String c s ->
  (a = "" /\ w = String c s) \/ exists a', a = String c a' /\ a' ++ w = s.
Proof.
  destruct a as [|x a].
  - rewrite append_empty_l. auto.
  - rewrite append_cons. intros [= -> H]. right. exists a. auto.
Qed.

Lemma append_eq_empty (a w : string) : a ++ w = "" -> a = "" /\ w = "".
Proof.
  destruct a; [rewrite append_empty_l; auto|].
  rewrite append_cons. discriminate.
Qed.

(** A match of the phone pattern that starts in a text ending with a
    non-word character, the country code and a separator apart, ends
    before a delimited mobile number that follows the text. *)
Lemma phone_no_straddle_mobile prev (a num post rest : string) :
  a <> "" -> word_opt (last_char a) = false -> country_prefixed a = false ->
  mobile_number num = true -> word_opt (first_char post) = false ->
  match_at PHONE_PATTERN prev (a ++ num ++ post) = Some rest ->
  (String.length (num ++ post) <= String.length rest)%nat.
Proof.
  intros Hne Hl Hcc Hnum Hpost H. apply match_at_sound in H as [p1 H].
  apply Matches_spans in H as (m & E & S & _).
  apply phone_spans in S as (pfx & num' & -> & Hp & Hn' & _).
  destruct (mobile_number_digits _ Hn') as [Hd' Hlen'].
  destruct (mobile_number_digits _ Hnum) as [Hd Hlen].
  destruct (le_lt_dec (String.length (pfx ++ num')) (String.length a))
    as [Hle|Hlt].
  { apply (f_equal String.length) in E. rewrite !length_append in *. lia. }
  exfalso.
  destruct (append_split _ _ _ _ E) as (u & Em & Eu); [lia|].
  destruct (le_lt_dec (String.length pfx) (String.length a)) as [Hpa|Hpa].
  - (* the text covers the prefix of the match *)
    destruct (append_split _ _ _ _ Em Hpa) as (v & -> & ->).
    destruct v as [|x v].
    + rewrite append_empty_r in *.
      destruct (phone_prefix_cases _ Hp) as [->|[->|[->|(c & Hc & ->)]]];
        try congruence; try discriminate Hl.
      unfold country_prefixed in Hcc. cbn in Hcc. rewrite Hc in Hcc.
      discriminate Hcc.
    + rewrite last_char_append in Hl by discriminate.
      rewrite (all_chars_prefix_last is_digit (String x v) u) in Hl;
        [discriminate | exact is_digit_word | exact Hd' | discriminate].
  - (* the text ends inside the prefix of the match *)
    symmetry in Em.
    destruct (append_split _ _ _ _ Em (Nat.lt_le_incl _ _ Hpa))
      as (w & -> & ->).
    assert (Hw : w <> "").
    { intros ->. rewrite append_empty_r in Hpa. lia. }
    assert (Ha : a = "+" /\
               (w = "91" \/ exists c, sep_class c = true /\
                                     w = String "9" (String "1" (String c "")))).
    { destruct (phone_prefix_cases _ Hp) as [E0|[E0|[E0|(c & Hc & E0)]]].
      - apply append_eq_empty in E0 as [-> _]. congruence.
      - apply append_eq_cons in E0 as [[-> _]|(a1 & -> & E0)]; [congruence|].
        apply append_eq_empty in E0 as [_ ->]. congruence.
      - apply append_eq_cons in E0 as [[-> _]|(a1 & -> & E0)]; [congruence|].
        apply append_eq_cons in E0 as [[-> ->]|(a2 & -> & E0)]; [auto|].
        apply append_eq_cons in E0 as [[-> ->]|(a3 & -> & E0)];
          [discriminate Hl|].
        apply append_eq_empty in E0 as [_ ->]. congruence.
      - apply append_eq_cons in E0 as [[-> _]|(a1 & -> & E0)]; [congruence|].
        apply append_eq_cons in E0 as [[-> ->]|(a2 & -> & E0)]; [eauto|].
        apply append_eq_cons in E0 as [[-> ->]|(a3 & -> & E0)];
          [discriminate Hl|].
        apply append_eq_cons in E0 as [[-> ->]|(a4 & -> & E0)];
          [discriminate Hl|].
        apply append_eq_empty in E0 as [_ ->]. congruence. }
    destruct Ha as [-> [->|(c & Hc & ->)]].
    + (* twelve digits follow the plus sign, two more than the number has *)
      assert (Hle : (String.length num <= String.length ("91" ++ num'))%nat)
        by (rewrite length_append; simpl; lia).
      destruct (append_split _ _ _ _ Eu Hle) as (v & Ev & ->).
      assert (Hv : v <> "").
      { intros ->. apply (f_equal String.length) in Ev.
        rewrite !length_append in Ev. simpl in Ev. lia. }
      rewrite first_char_append in Hpost by exact Hv.
      assert (Hall : all_chars is_digit (num ++ v) = true).
      { rewrite <- Ev, all_chars_append, Hd'. reflexivity. }
      rewrite all_chars_append in Hall. apply andb_true_iff in Hall as [_ Hall].
      destruct (word_run_ends is_digit v is_digit_word Hall Hv) as [Hf _].
      congruence.
    + (* the separator would be the third digit of the number *)
      destruct num as [|n1 [|n2 [|n3 num]]]; try (simpl in Hlen; lia).
      rewrite !append_cons in Eu. injection Eu as _ _ -> _.
      unfold all_chars in Hd. cbn in Hd. rewrite (sep_not_digit c Hc) in Hd.
      rewrite !andb_false_r in Hd. discriminate Hd.
Qed.

(** A delimited mobile number that is not preceded by the country code
    and a separator is among the candidates of the phone pattern. *)
Lemma mobile_found (pre num post : string) :
  mobile_number num = true ->
  word_opt (last_char pre) = false -> word_opt (first_char post) = false ->
  country_prefixed pre = false ->
  num ∈ findall PHONE_PATTERN (pre ++ num ++ post).
Proof.
  intros Hn Hl Hr Hcc. unfold findall.
  apply (scan_reaches PHONE_PATTERN num post (num ++ post)).
  - reflexivity.
  - intros prev. apply phone_matches_mobile; assumption.
  - intros a1 a2 prev rest' -> Hne Hm.
    apply (phone_no_straddle_mobile prev a2); try assumption.
    + rewrite last_char_append in Hl by exact Hne. exact Hl.
    + destruct (country_prefixed a2) eqn:E; [|reflexivity].
      unfold country_prefixed in Hcc.
      rewrite (has_suffix_append _ a1 a2 E) in Hcc. discriminate.
  - lia.
Qed.

Lemma _normalize_number_append (a b : string) :
  _normalize_number (a ++ b) = _normalize_number a ++ _normalize_number b.
Proof.
  induction a as [|c a IH]; [rewrite !append_empty_l; reflexivity|].
  rewrite append_cons. cbn [_normalize_number].
  destruct (is_digit c); rewrite IH; [rewrite append_cons|]; reflexivity.
Qed.

Lemma _normalize_number_all_digits (s : string) :
  all_chars is_digit (_normalize_number s) = true.
Proof.
  unfold all_chars. induction s as [|c s IH]; [reflexivity|].
  cbn [_normalize_number]. destruct (is_digit c) eqn:E; [|exact IH].
  cbn. rewrite E, IH. reflexivity.
Qed.

(** X1. The bank accounts returned for a text are exactly the runs of 9
    to 18 digits that stand in the text between non-word characters (or
    its ends) and that no returned phone number reduces to when its
    non-digits are removed. *)
Theorem bank_accounts_characterised (text acc : string) :
  acc ∈ bankAccounts (extract_intelligence text) <->
  (all_chars is_digit acc = true /\ (9 <= String.length acc <= 18)%nat /\
   exists pre post, text = pre ++ acc ++ post /\
     word_opt (last_char pre) = false /\ word_opt (first_char post) = false) /\
  ~ exists p, p ∈ phoneNumbers (extract_intelligence text) /\
              _normalize_number p = acc.
Proof.
  rewrite bank_accounts_rule, bank_candidates.
  unfold extract_intelligence at 1. cbn [phoneNumbers].
  split; intros [Hc Hn]; (split; [exact Hc|]); intros (p & Hp & E); apply Hn;
    exists p; destruct Hc as (Hd & _).
  - split; [exact (proj1 (elem_of_to_set _ _) Hp)|].
    rewrite E. apply _normalize_number_digits. exact Hd.
  - split; [exact (proj2 (elem_of_to_set _ _) Hp)|].
    rewrite <- E. apply _normalize_number_digits. exact Hd.
Qed.

(** X2. Every phone number returned for a text stands in the text and is
    a mobile number (ten digits, the first one 6 to 9) behind one of the
    prefixes of the pattern (nothing, 0, +91, or +91 and one hyphen or
    white-space character), followed by a non-word character or the end
    of the text; its digits are the mobile number alone, or behind 0 or
    91. *)
Theorem phone_numbers_shape (text p : string) :
  p ∈ phoneNumbers (extract_intelligence text) ->
  exists pfx num pre post,
    text = pre ++ p ++ post /\ p = pfx ++ num /\
    phone_prefix pfx = true /\ mobile_number num = true /\
    word_opt (first_char post) = false /\
    (_normalize_number p = num \/ _normalize_number p = "0" ++ num \/
     _normalize_number p = "91" ++ num).
Proof.
  unfold extract_intelligence. cbn [phoneNumbers]. intros H.
  apply elem_of_to_set, findall_sound in H as (pre & post & -> & S).
  apply phone_spans in S as (pfx & num & -> & Hp & Hn & Hb).
  exists pfx, num, pre, post. repeat (split; [assumption || reflexivity|]).
  destruct (mobile_number_digits _ Hn) as [Hd _].
  rewrite _normalize_number_append, (_normalize_number_digits num Hd).
  destruct (phone_prefix_cases _ Hp) as [->|[->|[->|(c & Hc & ->)]]]; auto.
  right. right. cbn [_normalize_number].
  change (is_digit "+") with false. change (is_digit "9") with true.
  change (is_digit "1") with true. rewrite (sep_not_digit c Hc). reflexivity.
Qed.

Lemma phone_numbers_shape_witness :
  exists pfx num pre post,
    "call +91-9876543210 now" = pre ++ "+91-9876543210" ++ post /\
    "+91-9876543210" = pfx ++ num /\
    phone_prefix pfx = true /\ mobile_number num = true /\
    word_opt (first_char post) = false /\
    (_normalize_number "+91-9876543210" = num \/
     _normalize_number "+91-9876543210" = "0" ++ num \/
     _normalize_number "+91-9876543210" = "91" ++ num).
Proof.
  apply (phone_numbers_shape "call +91-9876543210 now" "+91-9876543210").
  vm_compute. left.
Defined.

(** X3. Every mobile number (ten digits, the first one 6 to 9) that
    stands in a text between non-word characters or ends of the text, and
    is not preceded by +91 and a hyphen or white-space character, is
    returned among the phone numbers and not among the bank accounts. *)
Theorem mobile_number_extracted (pre num post : string) :
  mobile_number num = true ->
  word_opt (last_char pre) = false ->
  word_opt (first_char post) = false ->
  country_prefixed pre = false ->
  let intel := extract_intelligence (pre ++ num ++ post) in
  num ∈ phoneNumbers intel /\ num ∉ bankAccounts intel.
Proof.
  intros Hn Hl Hr Hcc intel.
  pose proof (mobile_found pre num post Hn Hl Hr Hcc) as Hp. split.
  - unfold intel, extract_intelligence. cbn [phoneNumbers].
    apply elem_of_to_set. exact Hp.
  - intros Hb. apply bank_accounts_rule in Hb as [_ Hno]. apply Hno.
    exists num. split; [exact Hp | reflexivity].
Qed.

Lemma mobile_number_extracted_witness :
  let intel := extract_intelligence "send it to 7000012345, please" in
  "7000012345" ∈ phoneNumbers intel /\ "7000012345" ∉ bankAccounts intel.
Proof.
  apply (mobile_number_extracted "send it to " "7000012345" ", please");
    reflexivity.
Defined.

(** X4. Every UPI id returned for a text stands in the text and reads
    local@domain: at least three letters, digits, dots, hyphens or
    underscores, the at-sign, and at least two letters, followed by a
    non-word character or the end of the text. *)
Theorem upi_ids_shape (text u : string) :
  u ∈ upiIds (extract_intelligence text) ->
  exists loc dom pre post,
    text = pre ++ u ++ post /\ u = loc ++ "@" ++ dom /\
    all_chars upi_local loc = true /\ (3 <= String.length loc)%nat /\
    all_chars is_alpha dom = true /\ (2 <= String.length dom)%nat /\
    word_opt (first_char post) = false.
Proof.
  unfold extract_intelligence. cbn [upiIds]. intros H.
  apply elem_of_to_set, findall_sound in H as (pre & post & -> & S).
  destruct S as (m1 & m2 & -> & [-> _] & loc & m3 & -> & (Hl & Hll & _)
                 & m4 & m5 & -> & -> & dom & m6 & -> & (Hd & Hdl & _)
                 & [-> Hb]).
  exists loc, dom, pre, post.
  rewrite append_empty_l, append_empty_r.
  repeat (split; [assumption || reflexivity|]).
  assert (Hne : dom <> "") by (apply (long_nonempty dom 1); exact Hdl).
  unfold at_boundary in Hb. rewrite (after_text_nonempty _ dom Hne) in Hb.
  assert (Hw : word_opt (last_char dom) = true).
  { apply (word_run_ends is_alpha dom); [|exact Hd | exact Hne].
    intros c Hc. unfold is_word. rewrite Hc. reflexivity. }
  rewrite Hw in Hb. destruct (word_opt (first_char post));
    [discriminate | reflexivity].
Qed.

Lemma upi_ids_shape_witness :
  exists loc dom pre post,
    "pay to scammer.acct99@upi now" = pre ++ "scammer.acct99@upi" ++ post /\
    "scammer.acct99@upi" = loc ++ "@" ++ dom /\
    all_chars upi_local loc = true /\ (3 <= String.length loc)%nat /\
    all_chars is_alpha dom = true /\ (2 <= String.length dom)%nat /\
    word_opt (first_char post) = false.
Proof.
  apply (upi_ids_shape "pay to scammer.acct99@upi now" "scammer.acct99@upi").
  vm_compute. left.
Defined.

(** X5. Every phishing link returned for a text stands in the text and
    reads http:// or https:// followed by at least one character, none of
    which is white space, a quote or a greater-than sign. *)
Theorem phishing_links_shape (text u : string) :
  u ∈ phishingLinks (extract_intelligence text) ->
  exists body pre post,
    text = pre ++ u ++ post /\
    (u = "http://" ++ body \/ u = "https://" ++ body) /\
    body <> "" /\ all_chars url_char body = true.
Proof.
  unfold extract_intelligence. cbn [phishingLinks]. intros H.
  apply elem_of_to_set, findall_sound in H as (pre & post & -> & S).
  unfold URL_PATTERN in S. cbn [spans Lit] in S.
  destruct S as (m1 & m2 & -> &
                 (h1 & h2 & -> & -> & h3 & h4 & -> & -> & h5 & h6 & -> & ->
                  & h7 & h8 & -> & -> & ->)
                 & m3 & m4 & -> & Hs & m5 & body & -> &
                 (c1 & c2 & -> & -> & c3 & c4 & -> & -> & c5 & c6 & -> & ->
                  & ->)
                 & (Hb & Hlen & _)).
  exists body, pre, post. split; [reflexivity|]. split; [|split].
  - destruct Hs as [->| ->]; [left | right]; reflexivity.
  - apply (long_nonempty body 0). exact Hlen.
  - exact Hb.
Qed.

Lemma phishing_links_shape_witness :
  exists body pre post,
    "open http://a.b/c?d=1>x" = pre ++ "http://a.b/c?d=1" ++ post /\
    ("http://a.b/c?d=1" = "http://" ++ body \/
     "http://a.b/c?d=1" = "https://" ++ body) /\
    body <> "" /\ all_chars url_char body = true.
Proof.
  apply (phishing_links_shape "open http://a.b/c?d=1>x" "http://a.b/c?d=1").
  vm_compute. left.
Defined.

(** X6. [_normalize_number] keeps the digits of its argument and nothing
    else: the result consists of digits, normalizing twice is normalizing
    once, the strings it leaves unchanged are the strings of digits, and
    it distributes over concatenation. *)
Theorem normalize_number_keeps_digits (a b : string) :
  all_chars is_digit (_normalize_number a) = true /\
  _normalize_number (_normalize_number a) = _normalize_number a /\
  (_normalize_number a = a <-> all_chars is_digit a = true) /\
  _normalize_number (a ++ b) = _normalize_number a ++ _normalize_number b.
Proof.
  pose proof (_normalize_number_all_digits a) as Hd.
  split; [exact Hd|]. split; [apply _normalize_number_digits; exact Hd|].
  split; [|apply _normalize_number_append]. split.
  - intros E. rewrite <- E. exact Hd.
  - apply _normalize_number_digits.
Qed.

(** *** Delimited links and handles are found *)

(** Every character of a match of the link pattern is one a link may
    contain. *)
Lemma url_spans_chars prev (m rest : string) :
  spans URL_PATTERN prev m rest -> all_chars url_char m = true.
Proof.
  unfold URL_PATTERN. cbn [spans Lit].
  intros (m1 & m2 & -> &
          (h1 & h2 & -> & -> & h3 & h4 & -> & -> & h5 & h6 & -> & ->
           & h7 & h8 & -> & -> & ->)
          & m3 & m4 & -> & Hs & m5 & body & -> &
          (c1 & c2 & -> & -> & c3 & c4 & -> & -> & c5 & c6 & -> & -> & ->)
          & (Hb & _)).
  rewrite !all_chars_append, Hb.
  destruct Hs as [->| ->]; reflexivity.
Qed.

(** A match of a pattern whose matches consist of characters of the class
    [p], started in a text that ends with a character outside [p], ends
    inside that text. *)
Lemma class_no_straddle r p prev (a t rest : string) :
  (forall prev m rest, spans r prev m rest -> all_chars p m = true) ->
  a <> "" -> (forall c, last_char a = Some c -> p c = false) ->
  match_at r prev (a ++ t) = Some rest ->
  (String.length t <= String.length rest)%nat.
Proof.
  intros Hr Hne Hl H. apply match_at_sound in H as [p1 H].
  apply Matches_spans in H as (m & E & S & _). apply Hr in S.
  destruct (le_lt_dec (String.length a) (String.length m)) as [Hle|Hlt].
  - exfalso. destruct (append_split _ _ _ _ E Hle) as (u & -> & _).
    rewrite all_chars_append in S. apply andb_true_iff in S as [S _].
    destruct (last_char a) as [l|] eqn:El.
    + pose proof (all_chars_last p a l S El) as Hp.
      rewrite (Hl l eq_refl) in Hp. discriminate Hp.
    + apply last_char_none in El. congruence.
  - apply (f_equal String.length) in E. rewrite !length_append in E. lia.
Qed.

(** The link pattern matches a scheme and a run of link characters that
    ends where the class stops. *)
Lemma link_matches prev (secure : bool) (body rest : string) :
  all_chars url_char body = true -> body <> "" ->
  (forall c, first_char rest = Some c -> url_char c = false) ->
  match_at URL_PATTERN prev
    ((if secure then "https://" else "http://") ++ body ++ rest) = Some rest.
Proof.
  intros Hb Hne Hr. unfold match_at, URL_PATTERN.
  assert (Hrun : forall prev',
    repeat_class url_char 1 None (fun _ rest' => Some rest') prev' (body ++ rest)
    = Some rest).
  { intros prev'. apply repeat_class_run; try assumption; try exact I.
    - destruct body; [congruence | simpl; lia].
    - reflexivity. }
  destruct secure; rewrite !append_cons, append_empty_l; cbn [bt Lit];
    rewrite Hrun; reflexivity.
Qed.

(** X24. A link that is delimited in the text is extracted in full:
    when http:// or https:// is followed by a non-empty run of characters
    other than white space, quotes and the greater-than sign, the run ends
    at such a character or at the end of the text, and the link starts the
    text or follows such a character, then the scheme with the whole run is
    among the phishing links. *)
Theorem delimited_link_extracted (secure : bool) (pre body post : string) :
  all_chars url_char body = true -> body <> "" ->
  (forall c, last_char pre = Some c -> url_char c = false) ->
  (forall c, first_char post = Some c -> url_char c = false) ->
  let link := (if secure then "https://" else "http://") ++ body in
  link ∈ phishingLinks (extract_intelligence (pre ++ link ++ post)).
Proof.
  intros Hb Hne Hl Hr link. unfold extract_intelligence. cbn [phishingLinks].
  apply elem_of_to_set. unfold findall.
  apply (scan_reaches URL_PATTERN link post (link ++ post)).
  - reflexivity.
  - intros prev. unfold link. rewrite append_assoc.
    apply link_matches; assumption.
  - intros a1 a2 prev rest' -> Hne2 Hm.
    apply (class_no_straddle URL_PATTERN url_char prev a2);
      [exact url_spans_chars | exact Hne2 | | exact Hm].
    rewrite last_char_append in Hl by exact Hne2. exact Hl.
  - lia.
Qed.

Lemma delimited_link_extracted_witness :
  let link := (if true then "https://" else "http://") ++ "pay.example/kyc?id=7" in
  link ∈ phishingLinks (extract_intelligence ("verify at " ++ link ++ " today")).
Proof.
  apply (delimited_link_extracted true "verify at " "pay.example/kyc?id=7"
           " today").
  - reflexivity.
  - discriminate.
  - intros c [= <-]. reflexivity.
  - intros c [= <-]. reflexivity.
Defined.

Lemma alpha_upi_local c : is_alpha c = true -> upi_local c = true.
Proof. intros H. unfold upi_local. rewrite H. reflexivity. Qed.

Lemma all_chars_impl (p q : ascii -> bool) (s : string) :
  (forall c, p c = true -> q c = true) ->
  all_chars p s = true -> all_chars q s = true.
Proof.
  intros Hpq. unfold all_chars. induction s as [|c s IH]; [reflexivity|].
  cbn. intros [Hc Hs]%andb_true_iff. rewrite (Hpq c Hc), IH by exact Hs.
  reflexivity.
Qed.

(** Every character of a match of the UPI pattern is a letter, a digit,
    a dot, a hyphen, an underscore or the at-sign. *)
Lemma upi_spans_chars prev (m rest : string) :
  spans UPI_PATTERN prev m rest -> all_chars upi_char m = true.
Proof.
  intros (m1 & m2 & -> & [-> _] & loc & m3 & -> & (Hl & _)
          & m4 & m5 & -> & -> & dom & m6 & -> & (Hd & _) & [-> _]).
  rewrite !all_chars_append.
  rewrite (all_chars_impl upi_local upi_char loc), (all_chars_impl is_alpha upi_char dom);
    try assumption; try reflexivity.
  - intros c Hc. unfold upi_char. rewrite (alpha_upi_local c Hc). reflexivity.
  - intros c Hc. unfold upi_char. rewrite Hc. reflexivity.
Qed.

Lemma word_upi_char c : is_word c = true -> upi_char c = true.
Proof.
  unfold is_word, upi_char, upi_local. intros H.
  apply orb_true_iff in H as [H|H].
  - rewrite H. reflexivity.
  - apply Ascii.eqb_eq in H. subst c. reflexivity.
Qed.

Lemma not_upi_char_not_word (o : option ascii) :
  (forall c, o = Some c -> upi_char c = false) -> word_opt o = false.
Proof.
  intros H. destruct o as [c|]; [|reflexivity]. cbn.
  destruct (is_word c) eqn:E; [|reflexivity].
  pose proof (H c eq_refl) as Hc. rewrite (word_upi_char c E) in Hc.
  discriminate Hc.
Qed.

Lemma alpha_word c : is_alpha c = true -> is_word c = true.
Proof. intros H. unfold is_word. rewrite H. reflexivity. Qed.

(** The UPI pattern matches a handle that starts with a word character
    after a non-word character and is followed by a non-word character. *)
Lemma upi_matches prev (loc dom rest : string) :
  all_chars upi_local loc = true -> (3 <= String.length loc)%nat ->
  word_opt (first_char loc) = true ->
  all_chars is_alpha dom = true -> (2 <= String.length dom)%nat ->
  word_opt prev = false -> word_opt (first_char rest) = false ->
  match_at UPI_PATTERN prev ((loc ++ "@" ++ dom) ++ rest) = Some rest.
Proof.
  intros Hl Hll Hf Hd Hdl Hp Hr.
  assert (Hne : loc <> "") by (apply (long_nonempty loc 2); exact Hll).
  assert (Hnd : dom <> "") by (apply (long_nonempty dom 1); exact Hdl).
  unfold match_at, UPI_PATTERN. cbn [bt].
  rewrite !append_assoc. unfold at_boundary at 1.
  rewrite Hp, first_char_append, Hf by exact Hne. cbn [xorb].
  apply repeat_class_run; try assumption; try exact I.
  - intros c [= <-]. reflexivity.
  - rewrite append_cons, append_empty_l. cbn [bt].
    change (Ascii.eqb "@" "@") with true. cbv iota.
    apply repeat_class_run; try assumption; try exact I.
    + intros c Hc. destruct (is_alpha c) eqn:E; [|reflexivity].
      rewrite Hc in Hr. cbn in Hr. rewrite (alpha_word c E) in Hr.
      discriminate Hr.
    + unfold at_boundary. rewrite Hr, after_text_nonempty by exact Hnd.
      destruct (word_run_ends is_alpha dom alpha_word Hd Hnd) as [_ ->].
      reflexivity.
Qed.

(** X25. A UPI handle that is delimited in the text is extracted: when
    a run of at least three letters, digits, dots, hyphens and underscores
    that starts with a letter, a digit or an underscore is followed by the
    at-sign and at least two letters, the handle starts the text or follows
    a character that is none of these, and a non-word character or the end
    of the text follows it, then the handle is among the UPI ids. *)
Theorem delimited_upi_extracted (pre loc dom post : string) :
  all_chars upi_local loc = true -> (3 <= String.length loc)%nat ->
  word_opt (first_char loc) = true ->
  all_chars is_alpha dom = true -> (2 <= String.length dom)%nat ->
  (forall c, last_char pre = Some c -> upi_char c = false) ->
  word_opt (first_char post) = false ->
  let handle := loc ++ "@" ++ dom in
  handle ∈ upiIds (extract_intelligence (pre ++ handle ++ post)).
Proof.
  intros Hl Hll Hf Hd Hdl Hpre Hpost handle.
  unfold extract_intelligence. cbn [upiIds].
  apply elem_of_to_set. unfold findall.
  apply (scan_reaches_after UPI_PATTERN handle post (handle ++ post)).
  - reflexivity.
  - intros a1 a2 prev rest' -> Hne2 Hm.
    apply (class_no_straddle UPI_PATTERN upi_char prev a2);
      [exact upi_spans_chars | exact Hne2 | | exact Hm].
    rewrite last_char_append in Hpre by exact Hne2. exact Hpre.
  - lia.
  - apply upi_matches; try assumption.
    apply not_upi_char_not_word. intros c Hc. apply Hpre.
    unfold after_text in Hc. destruct (last_char pre); [exact Hc | discriminate Hc].
Qed.

Lemma delimited_upi_extracted_witness :
  let handle := "scammer.acct99" ++ "@" ++ "upi" in
  handle ∈ upiIds (extract_intelligence ("pay to " ++ handle ++ " now")).
Proof.
  apply (delimited_upi_extracted "pay to " "scammer.acct99" "upi" " now");
    try reflexivity.
  - cbn. lia.
  - cbn. lia.
  - intros c [= <-]. reflexivity.
Defined.

End FurtherExtractFacts.

(** ** detector.py: the model-backed mode *)

Section FurtherDetectorFacts.
Import Text Detector Shape.

Lemma scam_label_spec result :
  contains "phish" (lower (label result)) || contains "spam" (lower (label result))
  || contains "fraud" (lower (label result)) = true <-> scam_label result.
Proof.
  unfold scam_label. rewrite !orb_true_iff, !contains_spec. tauto.
Qed.

(** X7. In model-backed mode, when the classifier answers, the verdict is
    scam-like exactly when the label reads as a scam, or a strong keyword
    occurs, or two suspicious keywords occur in the lower-cased text. A
    scam-like verdict carries at least the score of the classifier, and
    exactly that score when no keyword rule applies; any other verdict
    carries the score 0.0. *)
Theorem detect_scam_model_verdict
    (detector : string -> option Classification) (text : string)
    (result : Classification) :
  detector (lower text) = Some result ->
  exists b s,
    detect_scam false detector text = Some (b, s) /\
    (b = true <-> scam_label result \/ strong_present (lower text)
                  \/ two_suspicious (lower text)) /\
    (b = true -> (score result <= s)%Q) /\
    (b = true -> ~ strong_present (lower text) ->
     ~ two_suspicious (lower text) -> s = score result) /\
    (b = false -> s = 0.0%Q).
Proof.
  intros Hd. unfold detect_scam. rewrite Hd.
  pose proof (any_strong_spec (lower text)) as Hs.
  pose proof (hits_spec (lower text)) as Ht.
  pose proof (scam_label_spec result) as Hl.
  set (lab := contains "phish" (lower (label result))
              || contains "spam" (lower (label result))
              || contains "fraud" (lower (label result))) in *.
  destruct (any_strong (lower text)), (2 <=? hits (lower text))%nat;
    [| | |destruct lab]; eexists _, _; (split; [reflexivity|]);
    (split; [intuition congruence|]);
    (split; [intros Hb; try discriminate Hb
            |split; [intuition congruence|intuition congruence]]).
  - apply Qle_trans with (y := pymax (score result) 0.85%Q); apply pymax_ge_l.
  - apply pymax_ge_l.
  - apply pymax_ge_l.
  - apply Qle_refl.
Qed.

Lemma detect_scam_model_verdict_witness :
  exists b s,
    detect_scam false (fun _ => Some (mkClassification "PHISHING" 0.97%Q))
                "Dear customer, hello" = Some (b, s) /\
    (b = true <-> scam_label (mkClassification "PHISHING" 0.97%Q)
                  \/ strong_present (lower "Dear customer, hello")
                  \/ two_suspicious (lower "Dear customer, hello")) /\
    (b = true -> (0.97 <= s)%Q) /\
    (b = true -> ~ strong_present (lower "Dear customer, hello") ->
     ~ two_suspicious (lower "Dear customer, hello") -> s = 0.97%Q) /\
    (b = false -> s = 0.0%Q).
Proof.
  apply (detect_scam_model_verdict
           (fun _ => Some (mkClassification "PHISHING" 0.97%Q))
           "Dear customer, hello" (mkClassification "PHISHING" 0.97%Q)).
  reflexivity.
Defined.

(** X8. In model-backed mode, when two suspicious keywords occur in the
    lower-cased text and the classifier answers, the verdict is scam-like
    with a score of at least 0.6 and at least the classifier's score,
    whatever the label; without a strong keyword the score is the higher
    of the classifier's score and 0.6. *)
Theorem detect_scam_two_keyword_floor
    (detector : string -> option Classification) (text : string)
    (result : Classification) :
  detector (lower text) = Some result ->
  two_suspicious (lower text) ->
  exists s,
    detect_scam false detector text = Some (true, s) /\
    (0.6 <= s)%Q /\ (score result <= s)%Q /\
    (~ strong_present (lower text) -> s = pymax (score result) 0.6%Q).
Proof.
  intros Hd Ht. apply hits_spec in Ht. unfold detect_scam. rewrite Hd, Ht.
  pose proof (any_strong_spec (lower text)) as Hs.
  destruct (any_strong (lower text));
    eexists; (split; [reflexivity|]); (split; [apply pymax_ge_r|]); split.
  - apply Qle_trans with (y := pymax (score result) 0.85%Q); apply pymax_ge_l.
  - intros H. exfalso. apply H, Hs. reflexivity.
  - apply pymax_ge_l.
  - reflexivity.
Qed.

Lemma detect_scam_two_keyword_floor_witness :
  exists s,
    detect_scam false (fun _ => Some (mkClassification "LEGITIMATE" 0.2%Q))
                "Your bank account is fine" = Some (true, s) /\
    (0.6 <= s)%Q /\ (0.2 <= s)%Q /\
    (~ strong_present (lower "Your bank account is fine") ->
     s = pymax 0.2%Q 0.6%Q).
Proof.
  apply (detect_scam_two_keyword_floor
           (fun _ => Some (mkClassification "LEGITIMATE" 0.2%Q))
           "Your bank account is fine" (mkClassification "LEGITIMATE" 0.2%Q)).
  - reflexivity.
  - apply hits_spec. reflexivity.
Defined.

(** X9. Whatever the lightweight mode flags, the model-backed mode flags
    too: if [detect_scam] answers scam-like in lightweight mode, it
    answers scam-like with a score of at least 0.6 in model-backed mode
    whenever the classifier answers; and lightweight mode answers with one
    of (true, 0.9), (true, 0.7) and (false, 0.0), never an error. *)
Theorem model_mode_covers_lightweight
    (d0 detector : string -> option Classification) (text : string)
    (result : Classification) :
  detector (lower text) = Some result ->
  (detect_scam true d0 text = Some (true, 0.9%Q) \/
   detect_scam true d0 text = Some (true, 0.7%Q) \/
   detect_scam true d0 text = Some (false, 0.0%Q)) /\
  (forall s0, detect_scam true d0 text = Some (true, s0) ->
   exists s, detect_scam false detector text = Some (true, s) /\ (0.6 <= s)%Q).
Proof.
  intros Hd. unfold detect_scam. rewrite Hd.
  destruct (any_strong (lower text)), (2 <=? hits (lower text))%nat; split;
    auto; intros s0 H; try discriminate H; eexists; (split; [reflexivity|]).
  - apply pymax_ge_r.
  - apply Qle_trans with (y := 0.85%Q); [unfold Qle; cbn; lia | apply pymax_ge_r].
  - apply pymax_ge_r.
Qed.

Lemma model_mode_covers_lightweight_witness :
  (detect_scam true (fun _ => None) "Share the OTP" = Some (true, 0.9%Q) \/
   detect_scam true (fun _ => None) "Share the OTP" = Some (true, 0.7%Q) \/
   detect_scam true (fun _ => None) "Share the OTP" = Some (false, 0.0%Q)) /\
  (forall s0, detect_scam true (fun _ => None) "Share the OTP" = Some (true, s0) ->
   exists s,
     detect_scam false (fun _ => Some (mkClassification "LEGITIMATE" 0.1%Q))
                 "Share the OTP" = Some (true, s) /\ (0.6 <= s)%Q).
Proof.
  apply (model_mode_covers_lightweight (fun _ => None)
           (fun _ => Some (mkClassification "LEGITIMATE" 0.1%Q))
           "Share the OTP" (mkClassification "LEGITIMATE" 0.1%Q)).
  reflexivity.
Defined.

End FurtherDetectorFacts.

(** ** agent.py: chains and replies *)

Section FurtherAgentFacts.
Import Text Shape Agent.

Lemma cleanup_chains_removed ids (cs : gmap string Memory) k :
  k ∈ ids -> cleanup_chains_for_sessions ids cs !! k = None.
Proof.
  unfold cleanup_chains_for_sessions. revert cs.
  induction ids as [|i ids IH]; intros cs Hk; [inversion Hk|].
  cbn [foldl]. destruct (decide (k ∈ ids)) as [Hin|Hout].
  - apply IH. exact Hin.
  - apply elem_of_cons in Hk as [->|Hk]; [|contradiction].
    change (cleanup_chains_for_sessions ids (delete i cs) !! i = None).
    rewrite cleanup_chains_lookup by exact Hout. apply lookup_delete_eq.
Qed.

(** X10. [cleanup_chains_for_sessions] drops the chains of the listed
    sessions and no other: afterwards a listed id has no chain, whether it
    had one or not, and every other id has the chain it had. *)
Theorem cleanup_chains_drops_listed ids (cs : gmap string Memory) k :
  cleanup_chains_for_sessions ids cs !! k =
  if bool_decide (k ∈ ids) then None else cs !! k.
Proof.
  destruct (decide (k ∈ ids)) as [Hin|Hout].
  - rewrite bool_decide_eq_true_2 by exact Hin.
    apply cleanup_chains_removed. exact Hin.
  - rewrite bool_decide_eq_false_2 by exact Hout.
    apply cleanup_chains_lookup. exact Hout.
Qed.

Lemma generate_reply_cases llm sid msg (cs : gmap string Memory) :
  let old := default [] (cs !! sid) in
  generate_reply llm sid msg cs =
  match llm old msg with
  | Some r => (Some (strip r), <[sid := (old ++ [(msg, r)])%list]> cs)
  | None => (None, <[sid := old]> cs)
  end.
Proof.
  unfold generate_reply, _get_or_create_chain.
  destruct (cs !! sid) as [m|] eqn:E; cbn [default from_option id].
  - destruct (llm m msg) as [r|].
    + f_equal. f_equal. destruct (String.eqb_spec r ""); [subst r|]; reflexivity.
    + f_equal. symmetry. apply insert_id. exact E.
  - destruct (llm [] msg) as [r|].
    + rewrite insert_insert_eq. f_equal. f_equal.
      destruct (String.eqb_spec r ""); [subst r|]; reflexivity.
    + reflexivity.
Qed.

(** X11. [generate_reply] keeps one conversation memory per session: the
    model is asked with the turns saved for this session only (none for a
    session without a chain); a successful call appends the turn (message,
    response) to them and returns the stripped response; a failed call
    leaves the session with a chain and the turns it had; the chains of
    all other sessions are left as they were. *)
Theorem generate_reply_session_memory llm sid msg (cs : gmap string Memory) :
  let old := default [] (cs !! sid) in
  let x := generate_reply llm sid msg cs in
  (forall k, k <> sid -> x.2 !! k = cs !! k) /\
  match llm old msg with
  | Some r => x.1 = Some (strip r) /\ x.2 !! sid = Some (old ++ [(msg, r)])%list
  | None => x.1 = None /\ x.2 !! sid = Some old
  end.
Proof.
  cbv zeta. rewrite generate_reply_cases.
  destruct (llm (default [] (cs !! sid)) msg) as [r|]; cbn [fst snd]; split;
    try (intros k Hk; apply lookup_insert_ne; congruence);
    (split; [reflexivity | apply lookup_insert_eq]).
Qed.

(** X12. After its chain has been dropped, a session starts afresh: the
    next [generate_reply] asks the model with an empty memory, and the
    memory afterwards holds this one turn at most. *)
Theorem dropped_chain_starts_afresh llm ids sid msg (cs : gmap string Memory) :
  sid ∈ ids ->
  let x := generate_reply llm sid msg (cleanup_chains_for_sessions ids cs) in
  x.1 = strip <$> llm [] msg /\
  x.2 !! sid = Some (match llm [] msg with
                     | Some r => [(msg, r)]
                     | None => []
                     end).
Proof.
  intros Hin. cbv zeta. rewrite generate_reply_cases. cbv zeta.
  pose proof (cleanup_chains_removed ids cs sid Hin) as E.
  destruct (cleanup_chains_for_sessions ids cs !! sid) as [m|];
    [discriminate E|]. cbn [default from_option id].
  destruct (llm [] msg) as [r|]; cbn [fst snd fmap option_fmap option_map];
    (split; [reflexivity | apply lookup_insert_eq]).
Qed.

Lemma dropped_chain_starts_afresh_witness :
  let llm := fun (m : Memory) (_ : string) =>
               Some (if decide (m = []) then " Hello? " else "Again") in
  let cs := <["s1" := [("old", "turn")]]> (∅ : gmap string Memory) in
  let x := generate_reply llm "s1" "hi" (cleanup_chains_for_sessions ["s1"] cs) in
  x.1 = strip <$> llm [] "hi" /\
  x.2 !! "s1" = Some (match llm [] "hi" with
                      | Some r => [("hi", r)]
                      | None => []
                      end).
Proof.
  apply (dropped_chain_starts_afresh _ ["s1"] "s1" "hi"). left.
Defined.

(** X13. The reply returned by [generate_reply] is the response of the
    model without the white space around it: the response is the reply
    between two runs of white space, and the reply neither starts nor ends
    with a white-space character. *)
Theorem generate_reply_stripped llm sid msg (cs : gmap string Memory) r :
  (generate_reply llm sid msg cs).1 = Some r ->
  exists response a b,
    llm (default [] (cs !! sid)) msg = Some response /\
    response = a ++ r ++ b /\
    all_chars is_space a = true /\ all_chars is_space b = true /\
    (forall c, first_char r = Some c -> is_space c = false) /\
    (forall c, last_char r = Some c -> is_space c = false).
Proof.
  rewrite generate_reply_cases.
  destruct (llm (default [] (cs !! sid)) msg) as [response|]; cbn [fst];
    [|discriminate].
  intros [= <-]. destruct (strip_spec response) as (a & b & H).
  exists response, a, b. split; [reflexivity | exact H].
Qed.

Lemma generate_reply_stripped_witness :
  exists response a b,
    (fun (_ : Memory) (_ : string) => Some "  Who is this? ")
      (default [] ((∅ : gmap string Memory) !! "s1")) "hi" = Some response /\
    response = a ++ "Who is this?" ++ b /\
    all_chars is_space a = true /\ all_chars is_space b = true /\
    (forall c, first_char "Who is this?" = Some c -> is_space c = false) /\
    (forall c, last_char "Who is this?" = Some c -> is_space c = false).
Proof.
  apply (generate_reply_stripped
           (fun _ _ => Some "  Who is this? ") "s1" "hi" ∅ "Who is this?").
  reflexivity.
Defined.

End FurtherAgentFacts.

(** ** app.py: one request, case by case *)

Section FurtherAppFacts.
Import Text Regex Shape Extract Detector SessionManager Agent App Step Trace.
Local Open Scope list_scope.

(** An authorized scammer request, case by case. *)
Lemma request_cases cfg env body w :
  wf_store (sessions w) ->
  sender (message body) = "scammer" ->
  let sid := App.sessionId body in
  let txt := text (message body) in
  let sw := cleanup_stale (now env) 86400 sid (sessions w) in
  let cs := cleanup_chains_for_sessions sw.1 (chains w) in
  let old := default [] (cs !! sid) in
  let s1 := touched (now env) (entry (sessions w) sid (now env)) in
  handle_message cfg env body (Some (API_KEY cfg)) w =
  match detect_scam (IS_RENDER cfg) (detector env) txt with
  | None =>
      (Raise InternalError, mkWorld (<[sid := s1]> sw.2) cs,
       [EvSweep sw.1; EvDetect txt])
  | Some d =>
      let s3 := scored d s1 in
      if agent_active s3 then
        match llm env old txt with
        | None =>
            (Raise InternalError,
             mkWorld (<[sid := s3]> sw.2) (<[sid := old]> cs),
             [EvSweep sw.1; EvDetect txt; EvGenerate sid txt])
        | Some r =>
            let cs' := <[sid := old ++ [(txt, r)]]> cs in
            match history_text body with
            | None =>
                (Raise InternalError, mkWorld (<[sid := s3]> sw.2) cs',
                 [EvSweep sw.1; EvDetect txt; EvGenerate sid txt])
            | Some h =>
                let all := cumulative h txt (strip r) in
                let fin :=
                  finalized cfg env (merged (extract_intelligence all) s3) in
                (Ret {| status := "success"; reply := strip r |},
                 mkWorld (<[sid := fin.1]> sw.2) cs',
                 EvSweep sw.1 :: EvDetect txt :: EvGenerate sid txt
                   :: EvExtract all :: fin.2)
            end
        end
      else
        match history_text body with
        | None =>
            (Raise InternalError, mkWorld (<[sid := s3]> sw.2) cs,
             [EvSweep sw.1; EvDetect txt])
        | Some h =>
            let all := cumulative h txt FALLBACK_REPLY in
            let fin :=
              finalized cfg env (merged (extract_intelligence all) s3) in
            (Ret {| status := "success"; reply := FALLBACK_REPLY |},
             mkWorld (<[sid := fin.1]> sw.2) cs,
             EvSweep sw.1 :: EvDetect txt :: EvExtract all :: fin.2)
        end
  end.
Proof.
  intros Hwf Hs. cbv zeta. rewrite (handle_message_step cfg env body w Hwf Hs).
  cbv zeta. unfold step.
  destruct (detect_scam (IS_RENDER cfg) (detector env) (text (message body)))
    as [d|]; [|reflexivity].
  destruct (agent_active _).
  - rewrite generate_reply_cases. cbv zeta.
    destruct (llm env _ (text (message body))) as [r|]; [|reflexivity].
    destruct (history_text body) as [h|]; [|reflexivity].
    destruct (finalized cfg env _) as [s5 evs]. reflexivity.
  - destruct (history_text body) as [h|]; [|reflexivity].
    destruct (finalized cfg env _) as [s5 evs]. reflexivity.
Qed.

(** The six paths of an authorized scammer request: success with and
    without the agent, a malformed history after and without a reply of
    the model, a failure of the model, a failure of the detector. *)
Ltac request_paths env :=
  destruct (detect_scam _ _ _) as [d|];
  [destruct (agent_active (scored d _)) eqn:Ea;
   [destruct (llm env _ _) as [r|] eqn:El;
    [destruct (history_text _) as [h|] eqn:Eh|]
   |destruct (history_text _) as [h|] eqn:Eh]|].

Lemma finalized_events cfg env s :
  Forall (fun e => is_callback_event e = true) (finalized cfg env s).2.
Proof.
  unfold finalized. destruct (due s); [|constructor].
  rewrite send_events_cases. cbv zeta.
  destruct (delivered (post env 0)); [repeat constructor|].
  destruct (delivered (post env 1)); [repeat constructor|].
  destruct (delivered (post env 2)); repeat constructor.
Qed.

Lemma finalized_session cfg env s :
  (finalized cfg env s).1 = s \/ (finalized cfg env s).1 = reported s.
Proof.
  unfold finalized. destruct (due s); [|left; reflexivity].
  destruct (send_events cfg env s) as [[] evs]; [right | left]; reflexivity.
Qed.

Lemma count_none P t :
  Forall (fun e => P e = false) t -> count P t = 0%nat.
Proof.
  induction 1 as [|e t He _ IH]; [reflexivity|].
  rewrite count_cons, He, IH. reflexivity.
Qed.

Lemma callback_events_counts cfg env s :
  count is_generate (finalized cfg env s).2 = 0%nat /\
  count is_extract (finalized cfg env s).2 = 0%nat.
Proof.
  split; apply count_none;
    (eapply Forall_impl; [apply finalized_events|]);
    intros [] H; try discriminate H; reflexivity.
Qed.

Lemma finalized_keeps cfg env s :
  SessionManager.sessionId (finalized cfg env s).1 = SessionManager.sessionId s /\
  total_messages (finalized cfg env s).1 = total_messages s /\
  intelligence (finalized cfg env s).1 = intelligence s.
Proof.
  destruct (finalized_session cfg env s) as [-> | ->]; repeat split.
Qed.

(** The ids the sweep removes: the stale sessions other than the
    excluded one. *)
Lemma removed_spec now x (store : gmap string Session) k :
  k ∈ (cleanup_stale now 86400 x store).1 <->
  k <> x /\ swept_away now store k = true.
Proof.
  unfold cleanup_stale, swept_away. cbn [fst]. rewrite list_elem_of_fmap. split.
  - intros ([k' s] & -> & H). apply elem_of_map_to_list in H.
    apply map_lookup_filter_Some in H as [H [H1 H2]]. cbn in *.
    rewrite H. auto.
  - intros [Hk H]. destruct (store !! k) as [s|] eqn:E; [|discriminate].
    exists (k, s). split; [reflexivity|]. apply elem_of_map_to_list.
    apply map_lookup_filter_Some. split; [exact E|]. split; assumption.
Qed.

Lemma request_counts_in cfg env body w :
  wf_store (sessions w) ->
  sender (message body) = "scammer" ->
  exists s',
    sessions (world_of (handle_message cfg env body (Some (API_KEY cfg)) w))
      !! App.sessionId body = Some s'.
Proof.
  intros Hwf Hs. rewrite (request_cases cfg env body w Hwf Hs). cbv zeta.
  request_paths env;
    eexists; unfold world_of; cbn [fst snd sessions];
    apply lookup_insert_eq.
Qed.

(** X14. A scammer request with the right key is counted whatever
    happens next: afterwards its session is stored under its id, also
    when it had been idle for longer than the limit, and its message
    count is one more than before (one for a new session), even when the
    detector or the language model failed. *)
Theorem request_counts_message cfg env body w :
  wf_store (sessions w) ->
  sender (message body) = "scammer" ->
  let x := handle_message cfg env body (Some (API_KEY cfg)) w in
  let sid := App.sessionId body in
  exists s',
    sessions (world_of x) !! sid = Some s' /\
    SessionManager.sessionId s' = sid /\
    total_messages s' = S (total_messages (entry (sessions w) sid (now env))).
Proof.
  intros Hwf Hs. cbv zeta. rewrite (request_cases cfg env body w Hwf Hs).
  cbv zeta. pose proof (entry_id (sessions w) (App.sessionId body) (now env) Hwf)
    as Hid.
  set (s0 := entry (sessions w) (App.sessionId body) (now env)) in *.
  destruct (detect_scam _ _ _) as [d|].
  2: { eexists. unfold world_of. cbn [fst snd sessions].
       rewrite lookup_insert_eq. repeat split. exact Hid. }
  destruct (scored_fields d (touched (now env) s0)) as (_ & Ht & _ & _).
  pose proof (sessionId_scored d (touched (now env) s0)) as Hi.
  set (s3 := scored d (touched (now env) s0)) in *.
  assert (H3 : SessionManager.sessionId s3 = App.sessionId body /\
               total_messages s3 = S (total_messages s0)).
  { split; [rewrite Hi; exact Hid | rewrite Ht; reflexivity]. }
  assert (Hfin : forall i,
            SessionManager.sessionId (finalized cfg env (merged i s3)).1
              = App.sessionId body /\
            total_messages (finalized cfg env (merged i s3)).1
              = S (total_messages s0)).
  { intros i. destruct (finalized_keeps cfg env (merged i s3)) as (E1 & E2 & _).
    destruct (merged_fields i s3) as (_ & _ & E3 & _).
    rewrite E1, E2, E3, (sessionId_merged i s3). exact H3. }
  destruct (agent_active s3);
    [destruct (llm env _ _) as [r|]; [destruct (history_text _) as [h|]|]
    |destruct (history_text _) as [h|]];
    eexists; unfold world_of; cbn [fst snd sessions];
    rewrite lookup_insert_eq; (split; [reflexivity|]);
    first [apply Hfin | exact H3].
Qed.

Lemma request_counts_message_witness :
  let x := handle_message Sample.cfg (Sample.env (fun _ => Ok2xx))
             (Sample.request "s1" "scammer" "hello")
             (Some (API_KEY Sample.cfg)) Sample.ripe_world in
  exists s',
    sessions (world_of x) !! "s1" = Some s' /\
    SessionManager.sessionId s' = "s1" /\
    total_messages s' =
      S (total_messages (entry (sessions Sample.ripe_world) "s1" 0)).
Proof.
  apply (request_counts_message Sample.cfg (Sample.env (fun _ => Ok2xx))
           (Sample.request "s1" "scammer" "hello") Sample.ripe_world).
  - apply wf_store_singleton. reflexivity.
  - reflexivity.
Defined.

Lemma swept_other now x (store : gmap string Session) k :
  k <> x ->
  (cleanup_stale now 86400 x store).2 !! k =
  if swept_away now store k then None else store !! k.
Proof.
  intros Hk. pose proof (removed_spec now x store k) as H.
  destruct (swept_away now store k).
  - apply swept_lookup_removed, H. auto.
  - apply swept_lookup_kept. intros Hin. apply H in Hin as [_ Hin].
    discriminate Hin.
Qed.

Lemma cleaned_other now x (store : gmap string Session)
    (cs : gmap string Memory) k :
  k <> x ->
  cleanup_chains_for_sessions (cleanup_stale now 86400 x store).1 cs !! k =
  if swept_away now store k then None else cs !! k.
Proof.
  intros Hk. pose proof (removed_spec now x store k) as H.
  destruct (swept_away now store k).
  - apply cleanup_chains_removed, H. auto.
  - apply cleanup_chains_lookup. intros Hin. apply H in Hin as [_ Hin].
    discriminate Hin.
Qed.

Lemma request_others cfg env body w k :
  wf_store (sessions w) ->
  sender (message body) = "scammer" ->
  k <> App.sessionId body ->
  let x := handle_message cfg env body (Some (API_KEY cfg)) w in
  sessions (world_of x) !! k =
    (if swept_away (now env) (sessions w) k then None else sessions w !! k) /\
  chains (world_of x) !! k =
    (if swept_away (now env) (sessions w) k then None else chains w !! k).
Proof.
  intros Hwf Hs Hk. cbv zeta. rewrite (request_cases cfg env body w Hwf Hs).
  cbv zeta.
  pose proof (swept_other (now env) (App.sessionId body) (sessions w) k Hk)
    as Hsw.
  pose proof (cleaned_other (now env) (App.sessionId body) (sessions w)
                (chains w) k Hk) as Hcl.
  request_paths env;
    unfold world_of; cbn [fst snd sessions chains];
    rewrite ?lookup_insert_ne by congruence; split; assumption.
Qed.

(** X15. A scammer request with the right key touches no session but
    its own, the sweep apart: every other stored session that has been
    idle for longer than 86400 seconds is removed together with its chain,
    and every other session and chain is left as it was. The ids the
    sweep reports are exactly the ids of the removed sessions. *)
Theorem request_leaves_other_sessions cfg env body w k :
  wf_store (sessions w) ->
  sender (message body) = "scammer" ->
  k <> App.sessionId body ->
  let x := handle_message cfg env body (Some (API_KEY cfg)) w in
  let gone := swept_away (now env) (sessions w) k in
  sessions (world_of x) !! k = (if gone then None else sessions w !! k) /\
  chains (world_of x) !! k = (if gone then None else chains w !! k) /\
  exists removed rest,
    events_of x = EvSweep removed :: rest /\
    (k ∈ removed <-> gone = true) /\ App.sessionId body ∉ removed.
Proof.
  intros Hwf Hs Hk. cbv zeta.
  destruct (request_others cfg env body w k Hwf Hs Hk) as [H1 H2].
  split; [exact H1|]. split; [exact H2|].
  exists (cleanup_stale (now env) 86400 (App.sessionId body) (sessions w)).1.
  rewrite (request_cases cfg env body w Hwf Hs). cbv zeta.
  assert (Hr : k ∈ (cleanup_stale (now env) 86400 (App.sessionId body)
                      (sessions w)).1
               <-> swept_away (now env) (sessions w) k = true).
  { rewrite removed_spec. tauto. }
  pose proof (swept_self_not_removed (now env) 86400 (App.sessionId body)
                (sessions w)) as Hself.
  request_paths env;
    eexists; unfold events_of; cbn [snd]; (split; [reflexivity|]);
    split; assumption.
Qed.

Lemma request_leaves_other_sessions_witness :
  let x := handle_message Sample.cfg (Sample.env_at 100000 (fun _ => Ok2xx))
             (Sample.request "s2" "scammer" "hello")
             (Some (API_KEY Sample.cfg)) Sample.ripe_world in
  let gone := swept_away 100000 (sessions Sample.ripe_world) "s1" in
  sessions (world_of x) !! "s1" =
    (if gone then None else sessions Sample.ripe_world !! "s1") /\
  chains (world_of x) !! "s1" =
    (if gone then None else chains Sample.ripe_world !! "s1") /\
  exists removed rest,
    events_of x = EvSweep removed :: rest /\
    ("s1" ∈ removed <-> gone = true) /\ "s2" ∉ removed.
Proof.
  apply (request_leaves_other_sessions Sample.cfg
           (Sample.env_at 100000 (fun _ => Ok2xx))
           (Sample.request "s2" "scammer" "hello") Sample.ripe_world "s1").
  - apply wf_store_singleton. reflexivity.
  - reflexivity.
  - discriminate.
Defined.

(** X16. A scammer request with the right key fails only with an
    internal error, and for one of three reasons: the detector failed; or
    the agent is active and the language model, called once, failed; or
    the conversation history is malformed (an entry that is not an object,
    or a text that is not a string), which shows only when the history is
    joined, after the reply. A failed request has extracted nothing and
    attempted no callback: its session keeps the intelligence and the
    callback flag it had. Conversely, each of the three makes the request
    fail. *)
Theorem failed_request_effects cfg env body w :
  wf_store (sessions w) ->
  sender (message body) = "scammer" ->
  let x := handle_message cfg env body (Some (API_KEY cfg)) w in
  let sid := App.sessionId body in
  let txt := text (message body) in
  let s0 := entry (sessions w) sid (now env) in
  let cs := cleanup_chains_for_sessions
              (cleanup_stale (now env) 86400 sid (sessions w)).1 (chains w) in
  let detection := detect_scam (IS_RENDER cfg) (detector env) txt in
  let answer := llm env (default [] (cs !! sid)) txt in
  (forall e, result_of x = Raise e ->
     e = InternalError /\
     count is_extract (events_of x) = 0%nat /\
     count is_post (events_of x) = 0%nat /\
     exists s',
       sessions (world_of x) !! sid = Some s' /\
       intelligence s' = intelligence s0 /\
       callback_sent s' = callback_sent s0 /\
       (detection = None
        \/ (agent_active s' = true /\ answer = None /\
            count is_generate (events_of x) = 1%nat)
        \/ history_text body = None)) /\
  (detection = None -> result_of x = Raise InternalError) /\
  (history_text body = None -> result_of x = Raise InternalError) /\
  (forall d, detection = Some d ->
     agent_active (scored d (touched (now env) s0)) = true ->
     answer = None -> result_of x = Raise InternalError).
Proof.
  intros Hwf Hs. cbv zeta. rewrite (request_cases cfg env body w Hwf Hs).
  cbv zeta. set (s0 := entry (sessions w) (App.sessionId body) (now env)).
  destruct (detect_scam _ _ _) as [d|].
  2: { unfold result_of, events_of, world_of. cbn [fst snd sessions].
       split; [|split; [|split]].
       - intros e [= <-]. repeat (split; [reflexivity|]).
         eexists. rewrite lookup_insert_eq. repeat split. left. reflexivity.
       - reflexivity.
       - reflexivity.
       - intros d H; discriminate H. }
  destruct (scored_fields d (touched (now env) s0)) as (Hc & _ & Hi & _).
  destruct (agent_active (scored d _)) eqn:Ea;
    [destruct (llm env _ _) as [r|] eqn:El;
      [destruct (history_text _) as [h|] eqn:Eh|]
    |destruct (history_text _) as [h|] eqn:Eh];
    unfold result_of, events_of, world_of; cbn [fst snd sessions];
    (split; [|split; [|split]]);
    try (intros H; discriminate H); try (intros _; reflexivity);
    try (intros e H; discriminate H);
    try (intros d' [= <-] Ha Hl;
         first [discriminate Hl | reflexivity
               | rewrite Ea in Ha; discriminate Ha]);
    intros e H; injection H as <-;
    repeat (split; [reflexivity|]);
    eexists; rewrite lookup_insert_eq; (split; [reflexivity|]);
    (split; [exact Hi|]); (split; [exact Hc|]).
  - right. right. reflexivity.
  - right. left. split; [exact Ea|]. split; reflexivity.
  - right. right. reflexivity.
Qed.

Lemma failed_request_effects_witness :
  let env := Sample.env (fun _ => Ok2xx) in
  let body := mkIncomingRequest "s1"
                (mkMessage "scammer" "hello" "2026-01-01T00:00:00Z")
                [JObject {[ "text" := JString "earlier" ]}; JNotObject] ∅ in
  let x := handle_message Sample.cfg env body (Some (API_KEY Sample.cfg))
             Sample.ripe_world in
  let s0 := entry (sessions Sample.ripe_world) "s1" 0 in
  let cs := cleanup_chains_for_sessions
              (cleanup_stale 0 86400 "s1" (sessions Sample.ripe_world)).1
              (chains Sample.ripe_world) in
  let detection := detect_scam (IS_RENDER Sample.cfg) (detector env) "hello" in
  let answer := llm env (default [] (cs !! "s1")) "hello" in
  (forall e, result_of x = Raise e ->
     e = InternalError /\
     count is_extract (events_of x) = 0%nat /\
     count is_post (events_of x) = 0%nat /\
     exists s',
       sessions (world_of x) !! "s1" = Some s' /\
       intelligence s' = intelligence s0 /\
       callback_sent s' = callback_sent s0 /\
       (detection = None
        \/ (agent_active s' = true /\ answer = None /\
            count is_generate (events_of x) = 1%nat)
        \/ history_text body = None)) /\
  (detection = None -> result_of x = Raise InternalError) /\
  (history_text body = None -> result_of x = Raise InternalError) /\
  (forall d, detection = Some d ->
     agent_active (scored d (touched (now env) s0)) = true ->
     answer = None -> result_of x = Raise InternalError).
Proof.
  apply (failed_request_effects Sample.cfg (Sample.env (fun _ => Ok2xx))
           (mkIncomingRequest "s1"
              (mkMessage "scammer" "hello" "2026-01-01T00:00:00Z")
              [JObject {[ "text" := JString "earlier" ]}; JNotObject] ∅)
           Sample.ripe_world).
  - apply wf_store_singleton. reflexivity.
  - reflexivity.
Defined.

(** A request with a malformed history fails after the reply: the model
    has been called, the turn saved and the message counted. *)
Example malformed_history_fails :
  let body := mkIncomingRequest "s1"
                (mkMessage "scammer" "hello" "2026-01-01T00:00:00Z")
                [JObject {[ "text" := JString "earlier" ]}; JNotObject] ∅ in
  let x := handle_message Sample.cfg (Sample.env (fun _ => Ok2xx)) body
             (Some (API_KEY Sample.cfg)) Sample.ripe_world in
  history_text body = None /\
  result_of x = Raise InternalError /\
  events_of x = [EvSweep []; EvDetect "hello"; EvGenerate "s1" "hello"] /\
  (total_messages <$> sessions (world_of x) !! "s1") = Some 8%nat /\
  chains (world_of x) !! "s1" = Some [("hello", "Which bank is this, dear?")].
Proof. cbv zeta. repeat split; vm_compute; reflexivity. Qed.

Lemma active_after cfg env i s :
  agent_active (finalized cfg env (merged i s)).1 = agent_active s.
Proof.
  destruct (finalized_fields cfg env (merged i s)) as [_ ->].
  destruct (merged_fields i s) as (-> & _). reflexivity.
Qed.

(** X17. Where the reply of a successful request comes from. The status
    is success. If the session is not active after the request, the reply
    is the fixed fallback sentence, the language model was not consulted
    and no chain was touched beyond the sweep. If it is active, the model
    was consulted once, with the turns saved for this session, the reply
    is its stripped response, and the turn was appended to the session's
    chain. *)
Theorem reply_source cfg env body w resp :
  wf_store (sessions w) ->
  sender (message body) = "scammer" ->
  let x := handle_message cfg env body (Some (API_KEY cfg)) w in
  let sid := App.sessionId body in
  let txt := text (message body) in
  let cs := cleanup_chains_for_sessions
              (cleanup_stale (now env) 86400 sid (sessions w)).1 (chains w) in
  let old := default [] (cs !! sid) in
  result_of x = Ret resp ->
  status resp = "success" /\
  exists s',
    sessions (world_of x) !! sid = Some s' /\
    if agent_active s' then
      count is_generate (events_of x) = 1%nat /\
      exists r, llm env old txt = Some r /\ reply resp = strip r /\
                chains (world_of x) = <[sid := old ++ [(txt, r)]]> cs
    else
      count is_generate (events_of x) = 0%nat /\
      reply resp = FALLBACK_REPLY /\ chains (world_of x) = cs.
Proof.
  intros Hwf Hs. cbv zeta. rewrite (request_cases cfg env body w Hwf Hs).
  cbv zeta.
  request_paths env;
    unfold result_of, events_of, world_of; cbn [fst snd sessions chains];
    intros H; try discriminate H; injection H as <-;
    (split; [reflexivity|]); eexists; rewrite lookup_insert_eq;
    (split; [reflexivity|]); rewrite active_after, Ea;
    (split; [rewrite !count_cons; cbn [is_generate];
             rewrite (proj1 (callback_events_counts cfg env _)); reflexivity|]).
  - exists r. repeat split.
  - split; reflexivity.
Qed.

Lemma reply_source_witness :
  let env := Sample.env (fun _ => Ok2xx) in
  let body := Sample.request "s1" "scammer" "hello" in
  let x := handle_message Sample.cfg env body (Some (API_KEY Sample.cfg))
             Sample.ripe_world in
  let cs := cleanup_chains_for_sessions
              (cleanup_stale (now env) 86400 "s1"
                 (sessions Sample.ripe_world)).1 (chains Sample.ripe_world) in
  let old := default [] (cs !! "s1") in
  let resp := {| status := "success"; reply := "Which bank is this, dear?" |} in
  status resp = "success" /\
  exists s',
    sessions (world_of x) !! "s1" = Some s' /\
    if agent_active s' then
      count is_generate (events_of x) = 1%nat /\
      exists r, llm env old "hello" = Some r /\ reply resp = strip r /\
                chains (world_of x) = <["s1" := old ++ [("hello", r)]]> cs
    else
      count is_generate (events_of x) = 0%nat /\
      reply resp = FALLBACK_REPLY /\ chains (world_of x) = cs.
Proof.
  apply (reply_source Sample.cfg (Sample.env (fun _ => Ok2xx))
           (Sample.request "s1" "scammer" "hello") Sample.ripe_world
           {| status := "success"; reply := "Which bank is this, dear?" |}).
  - apply wf_store_singleton. reflexivity.
  - reflexivity.
  - vm_compute. reflexivity.
Defined.

(** X18. The calls of one request leave the process in a fixed order.
    No call is made exactly when the request is rejected or ignored (a
    wrong key, or a sender other than scammer). Otherwise the sweep comes
    first, with the ids it removed, then the detection of the message,
    then at most one call of the language model, for this session and
    message and only if the session is active; a request that fails makes
    no further call; a request that succeeds then makes one extraction,
    on the history, the message and the reply joined by spaces, followed
    by nothing but the attempts, waits and log lines of the callback, and
    it called the model exactly when its session is active. *)
Theorem request_events_ordered cfg env body key w :
  wf_store (sessions w) ->
  let x := handle_message cfg env body key w in
  let sid := App.sessionId body in
  let txt := text (message body) in
  let removed := (cleanup_stale (now env) 86400 sid (sessions w)).1 in
  (events_of x = [] <->
   key <> Some (API_KEY cfg) \/ sender (message body) <> "scammer") /\
  (key = Some (API_KEY cfg) -> sender (message body) = "scammer" ->
   exists gen tail s',
     events_of x = EvSweep removed :: EvDetect txt :: gen ++ tail /\
     sessions (world_of x) !! sid = Some s' /\
     (gen = [] \/ gen = [EvGenerate sid txt] /\ agent_active s' = true) /\
     match result_of x with
     | Raise _ => tail = []
     | Ret resp =>
         (gen = [] -> agent_active s' = false) /\
         exists h fin,
           history_text body = Some h /\
           tail = EvExtract (h ++ " " ++ txt ++ " " ++ reply resp)%string
                    :: fin /\
           Forall (fun e => is_callback_event e = true) fin
     end).
Proof.
  intros Hwf. cbv zeta.
  destruct (decide (key = Some (API_KEY cfg))) as [->|Hkey].
  2: { rewrite handle_message_unauthorized by exact Hkey.
       split; [|intros H; contradiction]. split; auto. }
  destruct (decide (sender (message body) = "scammer")) as [Hs|Hs].
  2: { rewrite handle_message_ignored by exact Hs.
       split; [|intros _ H; contradiction]. split; auto. }
  rewrite (request_cases cfg env body w Hwf Hs). cbv zeta.
  assert (Hcons : forall (e : Event) l,
            e :: l = [] <->
            Some (API_KEY cfg) <> Some (API_KEY cfg) \/
            sender (message body) <> "scammer").
  { intros e l. split; [discriminate | intros [H|H]; contradiction]. }
  request_paths env; unfold events_of, result_of, world_of;
    cbn [fst snd sessions]; (split; [apply Hcons|]); intros _ _.
  - eexists [EvGenerate _ _], _, _. cbn [app].
    split; [reflexivity|]. split; [apply lookup_insert_eq|].
    rewrite active_after, Ea. split; [right; split; reflexivity|].
    split; [discriminate|]. eexists _, _.
    split; [reflexivity|]. split; [reflexivity | apply finalized_events].
  - eexists [EvGenerate _ _], [], _. cbn [app].
    split; [reflexivity|]. split; [apply lookup_insert_eq|].
    split; [right; split; [reflexivity | exact Ea] | reflexivity].
  - eexists [EvGenerate _ _], [], _. cbn [app].
    split; [reflexivity|]. split; [apply lookup_insert_eq|].
    split; [right; split; [reflexivity | exact Ea] | reflexivity].
  - eexists [], _, _. cbn [app].
    split; [reflexivity|]. split; [apply lookup_insert_eq|].
    rewrite active_after, Ea. split; [left; reflexivity|].
    split; [reflexivity|]. eexists _, _.
    split; [reflexivity|]. split; [reflexivity | apply finalized_events].
  - eexists [], [], _. cbn [app].
    split; [reflexivity|]. split; [apply lookup_insert_eq|].
    split; [left; reflexivity | reflexivity].
  - eexists [], [], _. cbn [app].
    split; [reflexivity|]. split; [apply lookup_insert_eq|].
    split; [left; reflexivity | reflexivity].
Qed.

Lemma request_events_ordered_witness :
  let env := Sample.env (fun _ => Ok2xx) in
  let body := Sample.request "s1" "scammer" "hello" in
  let key := Some (API_KEY Sample.cfg) in
  let x := handle_message Sample.cfg env body key Sample.ripe_world in
  let removed :=
    (cleanup_stale (now env) 86400 "s1" (sessions Sample.ripe_world)).1 in
  (events_of x = [] <->
   key <> Some (API_KEY Sample.cfg) \/ sender (message body) <> "scammer") /\
  (key = Some (API_KEY Sample.cfg) -> sender (message body) = "scammer" ->
   exists gen tail s',
     events_of x = EvSweep removed :: EvDetect "hello" :: gen ++ tail /\
     sessions (world_of x) !! "s1" = Some s' /\
     (gen = [] \/ gen = [EvGenerate "s1" "hello"] /\ agent_active s' = true) /\
     match result_of x with
     | Raise _ => tail = []
     | Ret resp =>
         (gen = [] -> agent_active s' = false) /\
         exists h fin,
           history_text body = Some h /\
           tail = EvExtract (h ++ " " ++ "hello" ++ " " ++ reply resp)%string
                    :: fin /\
           Forall (fun e => is_callback_event e = true) fin
     end).
Proof.
  apply (request_events_ordered Sample.cfg (Sample.env (fun _ => Ok2xx))
           (Sample.request "s1" "scammer" "hello")
           (Some (API_KEY Sample.cfg)) Sample.ripe_world).
  apply wf_store_singleton. reflexivity.
Defined.

Lemma finalized_posts cfg env s e :
  e ∈ (finalized cfg env s).2 -> is_post e = true ->
  due s = true /\
  exists i, e = EvPost (GUVI_CALLBACK_URL cfg) (build_payload s)
                       CALLBACK_TIMEOUT (post env i).
Proof.
  unfold finalized. destruct (due s); [|intros H; inversion H].
  intros He Hp. split; [reflexivity|]. revert He.
  destruct (send_events cfg env s) as [sent evs] eqn:E. cbn [snd].
  rewrite send_events_cases in E. cbv zeta in E.
  destruct (delivered (post env 0));
    [|destruct (delivered (post env 1)); [|destruct (delivered (post env 2))]];
    injection E as <- <-; intros He;
    repeat (apply elem_of_cons in He as [->|He]; [try discriminate Hp; eauto|]);
    inversion He.
Qed.

Lemma request_session_id env body w d i :
  wf_store (sessions w) ->
  SessionManager.sessionId
    (merged i (scored d (touched (now env)
                 (entry (sessions w) (App.sessionId body) (now env)))))
  = App.sessionId body.
Proof.
  intros Hwf. rewrite sessionId_merged, sessionId_scored. cbn.
  apply entry_id. exact Hwf.
Qed.

(** X19. Every callback attempt of a request goes to the configured URL
    with the 10-second timeout and reports the session of the request as
    it is stored when the request ends: its id, its message count (at
    least 8) and its intelligence, the items extracted during this request
    included, with scamDetected set. *)
Theorem callback_payload_matches_store
    cfg env body key w url json timeout outcome :
  wf_store (sessions w) ->
  let x := handle_message cfg env body key w in
  let sid := App.sessionId body in
  EvPost url json timeout outcome ∈ events_of x ->
  url = GUVI_CALLBACK_URL cfg /\ timeout = CALLBACK_TIMEOUT /\
  scamDetected json = true /\ payload_sessionId json = sid /\
  exists s',
    sessions (world_of x) !! sid = Some s' /\
    agent_active s' = true /\
    totalMessagesExchanged json = total_messages s' /\
    extractedIntelligence json = intelligence s' /\
    (8 <= total_messages s')%nat.
Proof.
  intros Hwf. cbv zeta.
  destruct (decide (key = Some (API_KEY cfg))) as [->|Hkey].
  2: { rewrite handle_message_unauthorized by exact Hkey.
       intros H. inversion H. }
  destruct (decide (sender (message body) = "scammer")) as [Hs|Hs].
  2: { rewrite handle_message_ignored by exact Hs. intros H. inversion H. }
  rewrite (request_cases cfg env body w Hwf Hs). cbv zeta.
  assert (Hfin : forall d i,
    let s4 := merged i (scored d (touched (now env)
                (entry (sessions w) (App.sessionId body) (now env)))) in
    EvPost url json timeout outcome ∈ (finalized cfg env s4).2 ->
    url = GUVI_CALLBACK_URL cfg /\ timeout = CALLBACK_TIMEOUT /\
    scamDetected json = true /\ payload_sessionId json = App.sessionId body /\
    agent_active (finalized cfg env s4).1 = true /\
    totalMessagesExchanged json = total_messages (finalized cfg env s4).1 /\
    extractedIntelligence json = intelligence (finalized cfg env s4).1 /\
    (8 <= total_messages (finalized cfg env s4).1)%nat).
  { intros d i s4 He.
    destruct (finalized_posts cfg env s4 _ He eq_refl) as (Hdue & n & E).
    injection E as -> -> -> _.
    apply due_spec in Hdue as (Ha & _ & Hf).
    apply should_finalize_spec in Hf as [_ Hf].
    destruct (finalized_keeps cfg env s4) as (_ & -> & ->).
    destruct (finalized_fields cfg env s4) as [_ ->].
    repeat split; try assumption.
    apply (request_session_id env body w d i Hwf). }
  request_paths env;
    unfold events_of, world_of; cbn [fst snd sessions]; intros He;
    repeat (apply elem_of_cons in He as [He|He]; [discriminate He|]);
    try (inversion He; fail);
    apply Hfin in He as (H1 & H2 & H3 & H4 & H5 & H6 & H7 & H8);
    repeat (split; [assumption|]);
    eexists; rewrite lookup_insert_eq; (split; [reflexivity|]);
    repeat split; assumption.
Qed.

Lemma callback_payload_matches_store_witness :
  let x := handle_message Sample.cfg (Sample.env (fun _ => Ok2xx))
             (Sample.request "s1" "scammer" "hello")
             (Some (API_KEY Sample.cfg)) Sample.ripe_world in
  let json :=
    build_payload
      (mkSession "s1" 8 0.72 true false
         (mkIntelligence [] [] ["9876543210"] [] ["otp"; "bank"]) 0) in
  "https://callback.example/report" = GUVI_CALLBACK_URL Sample.cfg /\
  10%Q = CALLBACK_TIMEOUT /\
  scamDetected json = true /\ payload_sessionId json = "s1" /\
  exists s',
    sessions (world_of x) !! "s1" = Some s' /\
    agent_active s' = true /\
    totalMessagesExchanged json = total_messages s' /\
    extractedIntelligence json = intelligence s' /\
    (8 <= total_messages s')%nat.
Proof.
  apply (callback_payload_matches_store Sample.cfg
           (Sample.env (fun _ => Ok2xx))
           (Sample.request "s1" "scammer" "hello")
           (Some (API_KEY Sample.cfg)) Sample.ripe_world
           "https://callback.example/report" _ 10%Q Ok2xx).
  - apply wf_store_singleton. reflexivity.
  - vm_compute. do 4 right. left.
Defined.

Lemma union_values_elem (old new : list string) v :
  v ∈ union_values old new <-> v ∈ old \/ v ∈ new.
Proof.
  unfold union_values.
  rewrite elem_of_app, list_elem_of_filter, elem_of_remove_dups.
  destruct (decide (v ∈ old)); tauto.
Qed.

Lemma union_values_NoDup (old new : list string) :
  NoDup old -> NoDup (union_values old new).
Proof.
  intros H. unfold union_values. apply NoDup_app. split; [exact H|]. split.
  - intros v Hv Hf. apply list_elem_of_filter in Hf as [Hn _]. exact (Hn Hv).
  - apply NoDup_filter, NoDup_remove_dups.
Qed.

(** What [merge_intelligence] leaves in a category. *)
Lemma merged_category c intel s :
  get_category c (intelligence (merged intel s)) =
  if is_empty (get_category c intel) then get_category c (intelligence s)
  else union_values (get_category c (intelligence s)) (get_category c intel).
Proof.
  unfold merged, items. cbn [foldl fst snd].
  destruct (bankAccounts intel) eqn:E1, (upiIds intel) eqn:E2,
    (phoneNumbers intel) eqn:E3, (phishingLinks intel) eqn:E4,
    (suspiciousKeywords intel) eqn:E5; destruct c;
    cbn [is_empty get_category enriched intelligence set_category
         bankAccounts upiIds phoneNumbers phishingLinks suspiciousKeywords];
    rewrite ?E1, ?E2, ?E3, ?E4, ?E5; reflexivity.
Qed.

Lemma merged_elem c intel s v :
  v ∈ get_category c (intelligence (merged intel s)) <->
  v ∈ get_category c (intelligence s) \/ v ∈ get_category c intel.
Proof.
  rewrite merged_category. destruct (get_category c intel) as [|a l] eqn:E;
    cbn [is_empty].
  - split; [auto | intros [H|H]; [exact H | inversion H]].
  - apply union_values_elem.
Qed.

(** X20. [merge_intelligence] adds and never removes: afterwards each
    category of the session holds what it held before and what the
    extraction found for it, and nothing else; a category without
    duplicates stays without duplicates; the other fields of the session
    and the other sessions are left as they were. Skipping the empty
    categories changes nothing of this. *)
Theorem merge_intelligence_unions session_id intel w s :
  sessions w !! session_id = Some s ->
  let x := merge_intelligence session_id intel w in
  result_of x = Ret tt /\ events_of x = [] /\ chains (world_of x) = chains w /\
  (forall k, k <> session_id -> sessions (world_of x) !! k = sessions w !! k) /\
  exists s',
    sessions (world_of x) !! session_id = Some s' /\
    (forall c v, v ∈ get_category c (intelligence s') <->
                 v ∈ get_category c (intelligence s) \/
                 v ∈ get_category c intel) /\
    (forall c, NoDup (get_category c (intelligence s)) ->
               NoDup (get_category c (intelligence s'))) /\
    total_messages s' = total_messages s /\
    agent_active s' = agent_active s /\ callback_sent s' = callback_sent s.
Proof.
  intros Hs. cbv zeta. unfold merge_intelligence, update_sessions, result_of,
    events_of, world_of. cbn [fst snd sessions chains].
  rewrite merge_store_merged. repeat (split; [reflexivity|]). split.
  - intros k Hk. apply lookup_alter_ne. congruence.
  - exists (merged intel s). split.
    + rewrite lookup_alter_eq, Hs. reflexivity.
    + destruct (merged_fields intel s) as (Ha & Hc & Ht & _).
      split; [intros c v; apply merged_elem|]. split; [|auto].
      intros c Hn. rewrite merged_category.
      destruct (is_empty _); [exact Hn | apply union_values_NoDup, Hn].
Qed.

Lemma merge_intelligence_unions_witness :
  let x := merge_intelligence "s1"
             (mkIntelligence [] ["a.b@upi"] ["9876543210"] [] ["bank"])
             Sample.ripe_world in
  result_of x = Ret tt /\ events_of x = [] /\
  chains (world_of x) = chains Sample.ripe_world /\
  (forall k, k <> "s1" ->
     sessions (world_of x) !! k = sessions Sample.ripe_world !! k) /\
  exists s',
    sessions (world_of x) !! "s1" = Some s' /\
    (forall c v, v ∈ get_category c (intelligence s') <->
                 v ∈ get_category c (intelligence Sample.ripe_session) \/
                 v ∈ get_category c
                       (mkIntelligence [] ["a.b@upi"] ["9876543210"] [] ["bank"])) /\
    (forall c, NoDup (get_category c (intelligence Sample.ripe_session)) ->
               NoDup (get_category c (intelligence s'))) /\
    total_messages s' = total_messages Sample.ripe_session /\
    agent_active s' = agent_active Sample.ripe_session /\
    callback_sent s' = callback_sent Sample.ripe_session.
Proof.
  apply (merge_intelligence_unions "s1"
           (mkIntelligence [] ["a.b@upi"] ["9876543210"] [] ["bank"])
           Sample.ripe_world Sample.ripe_session).
  reflexivity.
Defined.

Lemma gathered cfg env i s c v :
  v ∈ get_category c (intelligence (finalized cfg env (merged i s)).1) <->
  v ∈ get_category c (intelligence s) \/ v ∈ get_category c i.
Proof.
  destruct (finalized_keeps cfg env (merged i s)) as (_ & _ & ->).
  apply merged_elem.
Qed.

(** X21. What a successful request leaves in its session: the history
    was well formed, and each category holds what it held before and what
    [extract_intelligence] finds in the history texts, the message and
    the reply joined by spaces; nothing is removed and nothing else is
    added. *)
Theorem request_gathers_intelligence cfg env body w resp :
  wf_store (sessions w) ->
  sender (message body) = "scammer" ->
  let x := handle_message cfg env body (Some (API_KEY cfg)) w in
  let sid := App.sessionId body in
  let s0 := entry (sessions w) sid (now env) in
  result_of x = Ret resp ->
  exists h s',
    history_text body = Some h /\
    sessions (world_of x) !! sid = Some s' /\
    let all := (h ++ " " ++ text (message body) ++ " " ++ reply resp)%string in
    forall c v, v ∈ get_category c (intelligence s') <->
                v ∈ get_category c (intelligence s0) \/
                v ∈ get_category c (extract_intelligence all).
Proof.
  intros Hwf Hs. cbv zeta. rewrite (request_cases cfg env body w Hwf Hs).
  cbv zeta. destruct (detect_scam _ _ _) as [d|];
    [|unfold result_of; cbn [fst snd]; intros H; discriminate H].
  destruct (scored_fields d (touched (now env)
              (entry (sessions w) (App.sessionId body) (now env))))
    as (_ & _ & Hi & _).
  destruct (agent_active (scored d _));
    [destruct (llm env _ _) as [r|];
      [destruct (history_text _) as [h|]|]
    |destruct (history_text _) as [h|]];
    unfold result_of, world_of; cbn [fst snd sessions];
    intros H; try discriminate H; injection H as <-;
    exists h; eexists; (split; [reflexivity|]); rewrite lookup_insert_eq;
    (split; [reflexivity|]); intros c v; rewrite gathered, Hi; reflexivity.
Qed.

Lemma request_gathers_intelligence_witness :
  let x := handle_message Sample.cfg (Sample.env (fun _ => Ok2xx))
             (Sample.request "s1" "scammer" "pay a.b@upi")
             (Some (API_KEY Sample.cfg)) Sample.ripe_world in
  let s0 := entry (sessions Sample.ripe_world) "s1" 0 in
  exists h s',
    history_text (Sample.request "s1" "scammer" "pay a.b@upi") = Some h /\
    sessions (world_of x) !! "s1" = Some s' /\
    let all := (h ++ " " ++ "pay a.b@upi" ++ " "
                ++ "Which bank is this, dear?")%string in
    forall c v, v ∈ get_category c (intelligence s') <->
                v ∈ get_category c (intelligence s0) \/
                v ∈ get_category c (extract_intelligence all).
Proof.
  apply (request_gathers_intelligence Sample.cfg (Sample.env (fun _ => Ok2xx))
           (Sample.request "s1" "scammer" "pay a.b@upi") Sample.ripe_world
           {| status := "success"; reply := "Which bank is this, dear?" |}).
  - apply wf_store_singleton. reflexivity.
  - reflexivity.
  - vm_compute. reflexivity.
Defined.

Lemma last_char_space_before (h pre : string) :
  word_opt (last_char pre) = false ->
  word_opt (last_char (h ++ " " ++ pre)) = false.
Proof.
  intros H. destruct pre as [|c pre].
  - rewrite append_empty_r, last_char_append by discriminate. reflexivity.
  - rewrite <- append_assoc, last_char_append by discriminate. exact H.
Qed.

Lemma first_char_space_after (post r : string) :
  word_opt (first_char post) = false ->
  word_opt (first_char (post ++ " " ++ r)) = false.
Proof. intros H. destruct post as [|c post]; [reflexivity | exact H]. Qed.

Lemma mobile_in_cumulative h r (pre num post : string) :
  mobile_number num = true ->
  word_opt (last_char pre) = false ->
  word_opt (first_char post) = false ->
  country_prefixed (h ++ " " ++ pre)%string = false ->
  num ∈ findall PHONE_PATTERN (cumulative h (pre ++ num ++ post) r).
Proof.
  intros Hn Hl Hr Hcc.
  assert (E : cumulative h (pre ++ num ++ post) r =
              ((h ++ " " ++ pre) ++ num ++ (post ++ " " ++ r))%string).
  { unfold cumulative. rewrite !append_assoc. reflexivity. }
  rewrite E. apply mobile_found.
  - exact Hn.
  - apply last_char_space_before. exact Hl.
  - apply first_char_space_after. exact Hr.
  - exact Hcc.
Qed.

Lemma phone_category (i : Intelligence) (v : string) :
  v ∈ get_category PhoneNumbers i -> v ∈ phoneNumbers i.
Proof. intros H. exact H. Qed.

Lemma phone_numbers_findall text v :
  v ∈ findall PHONE_PATTERN text ->
  v ∈ get_category PhoneNumbers (extract_intelligence text).
Proof. intros H. apply elem_of_to_set. exact H. Qed.

(** X22. A mobile number in the message of a scammer reaches the
    session: if the message contains a mobile number (ten digits, the
    first one 6 to 9) between non-word characters or its ends, and the
    text before the number, the joined history included, does not end
    with +91 and a hyphen or white-space character, then after a
    successful request the number is among the phone numbers of the
    session. *)
Theorem mobile_number_reaches_session cfg env body w resp (pre num post : string) :
  wf_store (sessions w) ->
  sender (message body) = "scammer" ->
  text (message body) = (pre ++ num ++ post)%string ->
  mobile_number num = true ->
  word_opt (last_char pre) = false ->
  word_opt (first_char post) = false ->
  (forall h, history_text body = Some h ->
             country_prefixed (h ++ " " ++ pre)%string = false) ->
  let x := handle_message cfg env body (Some (API_KEY cfg)) w in
  result_of x = Ret resp ->
  exists s',
    sessions (world_of x) !! App.sessionId body = Some s' /\
    num ∈ phoneNumbers (intelligence s').
Proof.
  intros Hwf Hs Ht Hn Hl Hr Hcc. cbv zeta.
  pose proof (fun h r E => phone_numbers_findall _ _
                (mobile_in_cumulative h r pre num post Hn Hl Hr (Hcc h E)))
    as Hfound.
  rewrite (request_cases cfg env body w Hwf Hs). cbv zeta. rewrite Ht.
  destruct (detect_scam _ _ _) as [d|];
    [|unfold result_of; cbn [fst snd]; intros H; discriminate H].
  destruct (agent_active (scored d _));
    [destruct (llm env _ _) as [r|];
      [destruct (history_text _) as [h|] eqn:Eh|]
    |destruct (history_text _) as [h|] eqn:Eh];
    unfold result_of, world_of; cbn [fst snd sessions]; intros H;
    try discriminate H; clear H; eexists; rewrite lookup_insert_eq;
    (split; [reflexivity|]); apply phone_category;
    apply (proj2 (gathered cfg env _ _ PhoneNumbers num)); right;
    apply Hfound; reflexivity.
Qed.

Lemma mobile_number_reaches_session_witness :
  let body := mkIncomingRequest "s9"
                (mkMessage "scammer" "call me on 7000012345."
                   "2026-01-01T00:00:00Z")
                [JObject {[ "text" := JString "my number is +91" ]}] ∅ in
  let x := handle_message Sample.cfg (Sample.env (fun _ => Ok2xx)) body
             (Some (API_KEY Sample.cfg)) Sample.empty_world in
  exists s',
    sessions (world_of x) !! App.sessionId body = Some s' /\
    "7000012345" ∈ phoneNumbers (intelligence s').
Proof.
  apply (mobile_number_reaches_session Sample.cfg (Sample.env (fun _ => Ok2xx))
           (mkIncomingRequest "s9"
              (mkMessage "scammer" "call me on 7000012345."
                 "2026-01-01T00:00:00Z")
              [JObject {[ "text" := JString "my number is +91" ]}] ∅)
           Sample.empty_world
           {| status := "success"; reply := FALLBACK_REPLY |}
           "call me on " "7000012345" ".");
    try reflexivity.
  - apply wf_store_empty.
  - intros h H. vm_compute in H. injection H as <-. reflexivity.
Defined.

(** Chains are created for the session of the request only. *)
Lemma request_tracks_chains cfg env body key w :
  wf_store (sessions w) -> chains_tracked w ->
  chains_tracked (world_of (handle_message cfg env body key w)).
Proof.
  intros Hwf Htr.
  destruct (decide (key = Some (API_KEY cfg))) as [->|Hkey].
  2: { rewrite handle_message_unauthorized by exact Hkey. exact Htr. }
  destruct (decide (sender (message body) = "scammer")) as [Hs|Hs].
  2: { rewrite handle_message_ignored by exact Hs. exact Htr. }
  intros k Hk. destruct (decide (k = App.sessionId body)) as [->|Hne].
  { destruct (request_counts_in cfg env body w Hwf Hs) as (s' & E).
    rewrite E. eauto. }
  destruct (request_others cfg env body w k Hwf Hs Hne) as [E1 E2].
  rewrite E2 in Hk. rewrite E1.
  destruct (swept_away (now env) (sessions w) k).
  - destruct Hk as [m Hk]. discriminate Hk.
  - apply Htr. exact Hk.
Qed.

(** X23. No chain outlives its session: in every state reached from an
    empty store and an empty chain registry by any sequence of requests,
    every session id that has a chain has a stored session. *)
Theorem no_orphan_chains cfg calls k :
  let w := (serve cfg calls (mkWorld ∅ ∅)).1 in
  is_Some (chains w !! k) -> is_Some (sessions w !! k).
Proof.
  cbv zeta.
  assert (H : forall w0, wf_store (sessions w0) -> chains_tracked w0 ->
                chains_tracked (serve cfg calls w0).1).
  { induction calls as [|c calls IH]; intros w0 Hwf Htr; [exact Htr|].
    rewrite serve_cons. cbv zeta. cbn [fst]. apply IH.
    - apply (request_reports cfg (call_env c) (call_body c) (call_key c) w0 "").
      exact Hwf.
    - apply request_tracks_chains; assumption. }
  apply H.
  - apply wf_store_empty.
  - intros k' [m Hm]. cbn [chains] in Hm. rewrite lookup_empty in Hm.
    discriminate Hm.
Qed.

Lemma no_orphan_chains_witness :
  let call := mkCall (Sample.env (fun _ => Ok2xx))
                (Sample.request "s1" "scammer" "share the otp now")
                (Some (API_KEY Sample.cfg)) in
  let w := (serve Sample.cfg [call; call] (mkWorld ∅ ∅)).1 in
  is_Some (sessions w !! "s1").
Proof.
  apply (no_orphan_chains Sample.cfg
           [mkCall (Sample.env (fun _ => Ok2xx))
              (Sample.request "s1" "scammer" "share the otp now")
              (Some (API_KEY Sample.cfg));
            mkCall (Sample.env (fun _ => Ok2xx))
              (Sample.request "s1" "scammer" "share the otp now")
              (Some (API_KEY Sample.cfg))] "s1").
  vm_compute. eauto.
Defined.

(** *** Confidence and activation over sequences of requests *)

Lemma scored_confident d s :
  PrimFloat.leb 0.6 (confidence (scored d s)) = true ->
  agent_active (scored d s) = true.
Proof. intros H. rewrite scored_active, H. apply orb_true_r. Qed.

Lemma gathered_confident cfg env i d s :
  let s5 := (finalized cfg env (merged i (scored d s))).1 in
  PrimFloat.leb 0.6 (confidence s5) = true -> agent_active s5 = true.
Proof.
  cbv zeta. destruct (finalized_fields cfg env (merged i (scored d s)))
    as [-> ->].
  destruct (merged_fields i (scored d s)) as (-> & _ & _ & -> & _).
  apply scored_confident.
Qed.

Lemma request_keeps_confident_active cfg env body key w :
  wf_store (sessions w) -> confident_active (sessions w) ->
  confident_active (sessions (world_of (handle_message cfg env body key w))).
Proof.
  intros Hwf Hinv.
  destruct (decide (key = Some (API_KEY cfg))) as [->|Hkey].
  2: { rewrite handle_message_unauthorized by exact Hkey. exact Hinv. }
  destruct (decide (sender (message body) = "scammer")) as [Hs|Hs].
  2: { rewrite handle_message_ignored by exact Hs. exact Hinv. }
  intros k s Hk. destruct (decide (k = App.sessionId body)) as [->|Hne].
  2: { destruct (request_others cfg env body w k Hwf Hs Hne) as [E _].
       rewrite E in Hk. destruct (swept_away _ _ _); [discriminate Hk|].
       exact (Hinv k s Hk). }
  revert Hk. rewrite (request_cases cfg env body w Hwf Hs). cbv zeta.
  set (s0 := entry (sessions w) (App.sessionId body) (now env)).
  assert (H0 : PrimFloat.leb 0.6 (confidence (touched (now env) s0)) = true ->
               agent_active (touched (now env) s0) = true).
  { unfold s0, entry. destruct (sessions w !! App.sessionId body) as [s1|] eqn:E.
    - exact (Hinv _ s1 E).
    - cbn. discriminate. }
  request_paths env;
    unfold world_of; cbn [fst snd sessions]; rewrite lookup_insert_eq;
    intros [= <-].
  - apply gathered_confident.
  - apply scored_confident.
  - apply scored_confident.
  - apply gathered_confident.
  - apply scored_confident.
  - exact H0.
Qed.

(** X26. A session is never left waiting above the threshold: in every
    state reached from an empty store by any sequence of requests, every
    stored session whose confidence is at least 0.6 has its agent
    active. *)
Theorem confident_sessions_are_active cfg calls cs k s :
  sessions (serve cfg calls (mkWorld ∅ cs)).1 !! k = Some s ->
  PrimFloat.leb 0.6 (confidence s) = true -> agent_active s = true.
Proof.
  assert (H : forall w0, wf_store (sessions w0) -> confident_active (sessions w0) ->
                confident_active (sessions (serve cfg calls w0).1)).
  { induction calls as [|c calls IH]; intros w0 Hwf Hinv; [exact Hinv|].
    rewrite serve_cons. cbv zeta. cbn [fst]. apply IH.
    - apply (request_reports cfg (call_env c) (call_body c) (call_key c) w0 "").
      exact Hwf.
    - apply request_keeps_confident_active; assumption. }
  intros Hk Hc. apply (H (mkWorld ∅ cs)) with (k := k).
  - apply wf_store_empty.
  - intros k' s' Hk'. cbn [sessions] in Hk'. rewrite lookup_empty in Hk'.
    discriminate Hk'.
  - exact Hk.
  - exact Hc.
Qed.

Lemma confident_sessions_are_active_witness :
  let call := mkCall (Sample.env (fun _ => Ok2xx))
                (Sample.request "s1" "scammer" "share the otp")
                (Some (API_KEY Sample.cfg)) in
  let w := (serve Sample.cfg [call; call] (mkWorld ∅ ∅)).1 in
  agent_active (default (fresh_session "s1" 0) (sessions w !! "s1")) = true.
Proof.
  cbv zeta.
  apply (confident_sessions_are_active Sample.cfg
           [mkCall (Sample.env (fun _ => Ok2xx))
              (Sample.request "s1" "scammer" "share the otp")
              (Some (API_KEY Sample.cfg));
            mkCall (Sample.env (fun _ => Ok2xx))
              (Sample.request "s1" "scammer" "share the otp")
              (Some (API_KEY Sample.cfg))] ∅ "s1").
  - vm_compute. reflexivity.
  - vm_compute. reflexivity.
Defined.

End FurtherAppFacts.
